(** * ArticlesCitationsService: citation relation queries over Neo4j and Elasticsearch

    A shallow embedding of the NestJS service [ArticlesCitationsService]
    (four page operations and four count-only operations), of the part of
    JavaScript it relies on (truthiness, optional chaining, [Promise.all],
    [Array.prototype.sort]) and of the Cypher fragment its query texts are
    written in, followed by the properties of the service. *)

From Stdlib Require Import Ascii.
From stdpp Require Import gmap strings list pretty.

#[local] Set Warnings "-register-all".

(** ** JavaScript values and control *)

Module JS.

(** Values as the service meets them: driver bindings, node property maps,
    search-index documents.  Numbers that occur are integral. *)
Inductive jsval : Type :=
| JUndefined
| JNull
| JBool (b : bool)
| JNum (z : Z)
| JStr (s : string)
| JArray (items : list jsval)
| JObject (fields : gmap string jsval).

(** A plain object, e.g. a node's [properties] or a hit's [_source]. *)
Abbreviation obj := (gmap string jsval).

(** ToBoolean: [undefined], [null], [false], [0] and the empty string are
    falsy, every object is truthy. *)
Definition truthy (v : jsval) : bool :=
  match v with
  | JUndefined | JNull => false
  | JBool b => b
  | JNum z => negb (z =? 0)%Z
  | JStr s => negb (String.eqb s "")
  | JArray _ | JObject _ => true
  end.

(** [a || b] *)
Definition or_else (a b : jsval) : jsval := if truthy a then a else b.

(** [o[k]] on a plain object: a missing key reads as [undefined]. *)
Definition member (o : obj) (k : string) : jsval := default JUndefined (o !! k).

(** Thrown values are [Error] objects; the service reads only [message]. *)
Record Error := { error_name : string; message : string }.

Definition TypeError (msg : string) : Error :=
  {| error_name := "TypeError"; message := msg |}.

Inductive outcome (A : Type) : Type :=
| Fulfilled (a : A)
| Rejected (e : Error).
Arguments Fulfilled {A} a.
Arguments Rejected {A} e.

#[export] Instance outcome_ret : MRet outcome := λ A a, Fulfilled a.

#[export] Instance outcome_bind : MBind outcome := λ A B k m,
  match m with
  | Fulfilled a => k a
  | Rejected e => Rejected e
  end.

#[export] Instance outcome_fmap : FMap outcome := λ A B f m,
  match m with
  | Fulfilled a => Fulfilled (f a)
  | Rejected e => Rejected e
  end.

(** [xs.map(f)] where [f] may throw: the first throwing call aborts the map. *)
Fixpoint map_throwing {A B} (f : A → outcome B) (xs : list A) : outcome (list B) :=
  match xs with
  | [] => Fulfilled []
  | x :: xs' =>
      y ← f x; ys ← map_throwing f xs'; mret (y :: ys)
  end.

(** [v.k]: reading a property of [undefined] or [null] throws a TypeError;
    primitives and arrays have none of the properties the service reads. *)
Definition get_prop (v : jsval) (k : string) : outcome jsval :=
  match v with
  | JUndefined =>
      Rejected (TypeError ("Cannot read properties of undefined (reading '" +:+ k +:+ "')"))
  | JNull =>
      Rejected (TypeError ("Cannot read properties of null (reading '" +:+ k +:+ "')"))
  | JObject o => Fulfilled (member o k)
  | JBool _ | JNum _ | JStr _ | JArray _ => Fulfilled JUndefined
  end.

(** Own enumerable properties copied by object spread [{...v}]: those of an
    object, the indices of an array or of a string, none otherwise. *)
Definition spread (v : jsval) : obj :=
  match v with
  | JObject o => o
  | JArray items => list_to_map (imap (λ i x, (pretty i, x)) items)
  | JStr s =>
      list_to_map (imap (λ i c, (pretty i, JStr (String c EmptyString)))
                        (String.list_ascii_of_string s))
  | JUndefined | JNull | JBool _ | JNum _ => ∅
  end.

(** A promise that has run to completion: when it settled and how.  The
    host is single-threaded; only the order in which the promises of one
    [Promise.all] settle is observable, and [settles_at] records it. *)
Record promise (A : Type) := { settles_at : nat; settled : outcome A }.
Arguments settles_at {A} p.
Arguments settled {A} p.

(** [await p] *)
Definition await {A} (p : promise A) : outcome A := settled p.

(** [p.then(f)] for a synchronous total [f]. *)
Definition then_ {A B} (f : A → B) (p : promise A) : promise B :=
  {| settles_at := settles_at p; settled := f <$> settled p |}.

(** The rejection that settles first; of two that settle together, the one
    earlier in the array. *)
Fixpoint first_rejection {A} (ps : list (promise A)) : option (nat * Error) :=
  match ps with
  | [] => None
  | p :: ps' =>
      match settled p, first_rejection ps' with
      | Rejected e, Some (t', e') =>
          if settles_at p <=? t' then Some (settles_at p, e) else Some (t', e')
      | Rejected e, None => Some (settles_at p, e)
      | Fulfilled _, r => r
      end
  end.

Fixpoint fulfilled_values {A} (ps : list (promise A)) : list A :=
  match ps with
  | [] => []
  | p :: ps' =>
      match settled p with
      | Fulfilled a => a :: fulfilled_values ps'
      | Rejected _ => fulfilled_values ps'
      end
  end.

(** [Promise.all(ps)]: rejects with the first rejection to occur, otherwise
    fulfils with all the values, in array order. *)
Definition Promise_all {A} (ps : list (promise A)) : promise (list A) :=
  match first_rejection ps with
  | Some (t, e) => {| settles_at := t; settled := Rejected e |}
  | None =>
      {| settles_at := foldr Nat.max 0 (settles_at <$> ps);
         settled := Fulfilled (fulfilled_values ps) |}
  end.

(** [Array.prototype.sort(comparefn)] is a stable sort: [x] moves behind
    [y] only when [comparefn(x, y) > 0]. *)
Fixpoint sort_insert {A} (comparefn : A → A → Z) (x : A) (l : list A) : list A :=
  match l with
  | [] => [x]
  | y :: l' =>
      if (0 <? comparefn x y)%Z then y :: sort_insert comparefn x l' else x :: l
  end.

Definition sort {A} (comparefn : A → A → Z) (l : list A) : list A :=
  foldr (sort_insert comparefn) [] l.

(** [Array.prototype.flat()] on an array of arrays. *)
Definition flat {A} (ls : list (list A)) : list A := concat ls.

End JS.
Export JS.

(** ** The graph driver and the search client, at their interface *)

Module Neo4j.

(** The driver's [Integer]: a 64-bit integer kept as two words, [low] and
    [high], each a signed 32-bit number ([neo4j.int(2147483648).low] is
    [-2147483648]). *)
Definition Integer (low high : Z) : jsval :=
  JObject (<["low" := JNum low]> (<["high" := JNum high]> ∅)).

(** The signed 32-bit reading of the low 32 bits of [z] (ToInt32). *)
Definition to_int32 (z : Z) : Z := ((z + 2 ^ 31) `mod` 2 ^ 32 - 2 ^ 31)%Z.

(** [neo4j.int(c)] for a 64-bit [c]. *)
Definition int (c : Z) : jsval := Integer (to_int32 c) (to_int32 (c `div` 2 ^ 32)).

(** A result row: the bindings of one RETURN, by column name. *)
Abbreviation Neo4jRecord := (gmap string jsval).

Definition Neo4jError (msg : string) : Error :=
  {| error_name := "Neo4jError"; message := msg |}.

(** [this.keys] put into a string: the column names with commas between. *)
Fixpoint joined (keys : list string) : string :=
  match keys with
  | [] => ""
  | [k] => k
  | k :: keys' => k +:+ "," +:+ joined keys'
  end.

(** The message of the error [record.get(key)] throws.  The driver lists the
    columns in the order of the RETURN; a row is kept here as a map, so they
    are listed in the order of the map, which is the driver's for a row of
    one column. *)
Definition noField (record : Neo4jRecord) (key : string) : string :=
  "This record has no field with key '" +:+ key +:+ "', available keys are: ["
  +:+ joined (map_to_list record).*1 +:+ "].".

(** [record.get(key)] throws when the row has no such column. *)
Definition get (record : Neo4jRecord) (key : string) : outcome jsval :=
  match record !! key with
  | Some v => Fulfilled v
  | None => Rejected (Neo4jError (noField record key))
  end.

End Neo4j.

Module Elasticsearch.

(** [{ index, body: { query: { match: { number } } } }] *)
Record SearchRequest := { index : string; match_number : jsval }.

Record SearchHit := { _source : obj }.

(** The part of the response the service reads: [result.hits.hits]. *)
Record SearchResponse := { hits : list SearchHit }.

End Elasticsearch.

(** ** The service *)

Module ArticlesCitationsService.

Import Neo4j Elasticsearch.

(** The injected collaborators, [neo4jService.runQuery(query, parameters)]
    and [elasticsearchService.search(request)]: what each call settles to,
    and when. *)
Record Services := {
  runQuery : string → obj → promise (list Neo4jRecord);
  search : SearchRequest → promise SearchResponse
}.

(** Modelled from the spec: the declaration of [ArticlesCitationsFilterDto]
    is not among the sources; the filter is a subject id, an optional search
    term and a window of non-negative integers, under the names the
    operations destructure it with. *)
Record ArticlesCitationsFilterDto := {
  articleId : string;
  searchTerm : option string;
  skip : nat;
  limit : nat
}.

(** An optional string as the JavaScript value it is. *)
Definition term (searchTerm : option string) : jsval :=
  from_option JStr JUndefined searchTerm.

(** What the logger received, in order. *)
Inductive level := LOG | ERROR.
Definition Logged (A : Type) : Type := list (level * string) * A.

(** [this.logger.log(msg); rest] *)
Definition log_then {A} (msg : string) (rest : Logged A) : Logged A :=
  ((LOG, msg) :: rest.1, rest.2).

(** [try { body } catch (error) { this.logger.error(msg(error)); throw error; }] *)
Definition try_catch {A} (body : outcome A) (msg : Error → string) : Logged (outcome A) :=
  match body with
  | Fulfilled a => ([], Fulfilled a)
  | Rejected error => ([(ERROR, msg error)], Rejected error)
  end.

(** [Promise.all([p, q])] destructured as a pair. *)
Definition Promise_all2 {A B} (p : promise A) (q : promise B) : promise (A * B) :=
  match settled p, settled q with
  | Fulfilled a, Fulfilled b =>
      {| settles_at := settles_at p `max` settles_at q; settled := Fulfilled (a, b) |}
  | Rejected e, Fulfilled _ => {| settles_at := settles_at p; settled := Rejected e |}
  | Fulfilled _, Rejected e => {| settles_at := settles_at q; settled := Rejected e |}
  | Rejected e, Rejected e' =>
      if settles_at p <=? settles_at q
      then {| settles_at := settles_at p; settled := Rejected e |}
      else {| settles_at := settles_at q; settled := Rejected e' |}
  end.

(** The object a page operation returns: [{ articles | cases | references, total }]. *)
Record Page := { items_key : string; items : list obj; total : jsval }.

(** [(a, b) => (b[key] ? 1 : 0) - (a[key] ? 1 : 0)] *)
Definition byHasName (key : string) (a b : obj) : Z :=
  let aHasName := (if truthy (member a key) then 1 else 0)%Z in
  let bHasName := (if truthy (member b key) then 1 else 0)%Z in
  (bHasName - aHasName)%Z.

(** [{ articleId, searchTerm }] and [{ articleId, searchTerm, skip, limit }] *)
Definition countParams (filter : ArticlesCitationsFilterDto) : obj :=
  <["articleId" := JStr (articleId filter)]>
    (<["searchTerm" := term (searchTerm filter)]> ∅).

Definition pageParams (filter : ArticlesCitationsFilterDto) : obj :=
  <["articleId" := JStr (articleId filter)]>
    (<["searchTerm" := term (searchTerm filter)]>
       (<["skip" := JNum (Z.of_nat (skip filter))]>
          (<["limit" := JNum (Z.of_nat (limit filter))]> ∅))).

(** *** Query texts of [getCitedByArticles] *)

Module CitedByArticles.

Definition getSearchCondition (searchTerm : option string) (alias nameAlias : string) : string :=
  if negb (truthy (term searchTerm)) then "" else
  let lowerSearch := "toLower($searchTerm)" in
  "
      WHERE toLower(" +:+ nameAlias +:+ ") CONTAINS " +:+ lowerSearch +:+ "
      OR toLower(" +:+ alias +:+ ".number) CONTAINS " +:+ lowerSearch +:+ "
      OR toLower(" +:+ alias +:+ ".text) CONTAINS " +:+ lowerSearch +:+ "
    ".

Definition getCountQuery (searchTerm : option string) : string :=
  "
    MATCH (a:Article)-[:CITES]->(b:Article {number: $articleId})
    OPTIONAL MATCH (a)-[:IS_NAMED]->(n:Name)
    WITH a, n  
    " +:+ getSearchCondition searchTerm "a" "n.short" +:+ "
    RETURN count(a) AS totalCount
  ".

Definition getArticlesQuery (searchTerm : option string) : string :=
  "
    MATCH (a:Article)-[:CITES]->(b:Article {number: $articleId})
    OPTIONAL MATCH (a)-[:IS_NAMED]->(n:Name)
    WITH a, n 
    " +:+ getSearchCondition searchTerm "a" "n.short" +:+ " 
    RETURN DISTINCT a, n.short AS name, elementId(a) AS elementId
    ORDER BY a.citing_cases DESC
    SKIP toInteger($skip) LIMIT toInteger($limit)
  ".

End CitedByArticles.

(** *** Query texts of [getArticleCitingOtherArticles] *)

Module ArticleCitingOtherArticles.

Definition getSearchCondition (searchTerm : option string) (alias nameAlias : string) : string :=
  if negb (truthy (term searchTerm)) then "" else
  let lowerSearch := "toLower($searchTerm)" in
  "
      WHERE toLower(" +:+ nameAlias +:+ ") CONTAINS " +:+ lowerSearch +:+ "
      OR toLower(" +:+ alias +:+ ".number) CONTAINS " +:+ lowerSearch +:+ "
      OR toLower(" +:+ alias +:+ ".text) CONTAINS " +:+ lowerSearch +:+ "
    ".

Definition getCountQuery (searchTerm : option string) : string :=
  "
    MATCH (a:Article {number: $articleId})-[:CITES]->(b:Article)
    OPTIONAL MATCH (b)-[:IS_NAMED]->(n:Name)
    WITH b, n 
    " +:+ getSearchCondition searchTerm "b" "n.short" +:+ "
    RETURN count(b) AS totalCount
  ".

Definition getArticlesQuery (searchTerm : option string) : string :=
  "
    MATCH (a:Article {number: $articleId})-[:CITES]->(b:Article)
    OPTIONAL MATCH (b)-[:IS_NAMED]->(n:Name)
    WITH b, n 
    " +:+ getSearchCondition searchTerm "b" "n.short" +:+ "
    RETURN DISTINCT b, n.short AS name, elementId(b) AS elementId
    ORDER BY b.citing_cases DESC
    SKIP toInteger($skip) LIMIT toInteger($limit)
  ".

End ArticleCitingOtherArticles.

(** *** Query texts of [getCasesCitingArticle] *)

Module CasesCitingArticle.

Definition getSearchCondition (searchTerm : option string) (alias caseNameAlias : string) : string :=
  if negb (truthy (term searchTerm)) then "" else
  let lowerSearch := "toLower($searchTerm)" in
  "
      WHERE toLower(" +:+ caseNameAlias +:+ ") CONTAINS " +:+ lowerSearch +:+ " 
      OR toLower(" +:+ alias +:+ ".number) CONTAINS " +:+ lowerSearch +:+ "
      OR toLower(" +:+ alias +:+ ".judgment) CONTAINS " +:+ lowerSearch +:+ "
      OR toLower(" +:+ alias +:+ ".facts) CONTAINS " +:+ lowerSearch +:+ "
      OR toLower(" +:+ alias +:+ ".reasoning) CONTAINS " +:+ lowerSearch +:+ "
      OR toLower(" +:+ alias +:+ ".headnotes) CONTAINS " +:+ lowerSearch +:+ "
      OR toLower(" +:+ alias +:+ ".year) CONTAINS " +:+ lowerSearch +:+ "
      OR toLower(" +:+ alias +:+ ".decision_type) CONTAINS " +:+ lowerSearch +:+ "
      ".

Definition getCountQuery (searchTerm : option string) : string :=
  "
        MATCH (c:Case)-[:REFERS_TO]->(a:Article {number: $articleId})
        OPTIONAL MATCH (c)-[:IS_NAMED]->(n:Name)
        WITH c, n
        " +:+ getSearchCondition searchTerm "c" "n.short" +:+ "
        RETURN count(c) AS totalCount
      ".

Definition getCasesQuery (searchTerm : option string) : string :=
  "
        MATCH (c:Case)-[:REFERS_TO]->(a:Article {number: $articleId})
        OPTIONAL MATCH (c)-[:IS_NAMED]->(n:Name)
        WITH c, n
        " +:+ getSearchCondition searchTerm "c" "n.short" +:+ "
        RETURN DISTINCT c, n.short AS caseName, elementId(c) AS elementId
        ORDER BY c.citing_cases DESC
        SKIP toInteger($skip) LIMIT toInteger($limit)
      ".

End CasesCitingArticle.

(** *** Query texts of [getReferencesWithArticle] *)

Module ReferencesWithArticle.

Definition getSearchCondition (searchTerm : option string) (alias : string) : string :=
  if negb (truthy (term searchTerm)) then "" else
  let lowerSearch := "toLower($searchTerm)" in
  "
          WHERE toLower(" +:+ alias +:+ ".context) CONTAINS " +:+ lowerSearch +:+ "
          OR toLower(" +:+ alias +:+ ".text) CONTAINS " +:+ lowerSearch +:+ "
        ".

Definition getCountQuery (searchTerm : option string) : string :=
  "
        MATCH (r:Reference)-[:MENTIONS]->(a:Article {number: $articleId})
        " +:+ getSearchCondition searchTerm "r" +:+ "
        RETURN count(r) AS totalCount
      ".

Definition getReferencesQuery (searchTerm : option string) : string :=
  "
        MATCH (r:Reference)-[:MENTIONS]->(a:Article {number: $articleId})
        " +:+ getSearchCondition searchTerm "r" +:+ "
        RETURN DISTINCT r
        SKIP toInteger($skip) LIMIT toInteger($limit)
      ".

End ReferencesWithArticle.

(** *** The operations *)

Definition getCitedByArticles (svc : Services) (filter : ArticlesCitationsFilterDto)
  : Logged (outcome Page) :=
  log_then ("Fetching articles cited by article: " +:+ articleId filter)
    (try_catch
       ('(countResult, articlesResult) ← await (Promise_all2
            (runQuery svc (CitedByArticles.getCountQuery (searchTerm filter)) (countParams filter))
            (runQuery svc (CitedByArticles.getArticlesQuery (searchTerm filter)) (pageParams filter)));
        low ← match countResult !! 0%nat with
              | None => mret JUndefined
              | Some record => v ← get record "totalCount"; get_prop v "low"
              end;
        let totalCount := or_else low (JNum 0) in
        articles ← map_throwing (λ record,
            a ← get record "a";
            article ← get_prop a "properties";
            citedArticleId ← get record "elementId";
            name ← get record "name";
            mret (<["name" := name]> (<["id" := citedArticleId]> (spread article)))) articlesResult;
        elasticSearchResults ← await (Promise_all ((λ articleData,
            let query := {| index := "articles"; match_number := member articleData "number" |} in
            then_ (λ result, _source <$> hits result) (search svc query)) <$> articles));
        let flattenedResults := sort (byHasName "name") (flat elasticSearchResults) in
        mret {| items_key := "articles"; items := flattenedResults; total := totalCount |})
       (λ error, "Error fetching articles cited by article " +:+ articleId filter +:+ ": " +:+ message error)).

Definition getCitedByArticlesCount (svc : Services) (articleId : string) : Logged (outcome jsval) :=
  log_then ("Fetching count of articles cited by article: " +:+ articleId)
    (let query := "MATCH (a:Article)-[:CITES]->(b:Article{number: $articleId}) " in
     let query := query +:+ "OPTIONAL MATCH (a:Article)-[:IS_NAMED]->(n:Name) " in
     let query := query +:+ "RETURN COUNT(a) AS count" in
     try_catch
       (result ← await (runQuery svc query (<["articleId" := JStr articleId]> ∅));
        record ← match result !! 0%nat with
                 | None => Rejected (TypeError "Cannot read properties of undefined (reading 'get')")
                 | Some record => mret record
                 end;
        v ← get record "count";
        get_prop v "low")
       (λ error, "Error fetching count of articles cited by article " +:+ articleId +:+ ": " +:+ message error)).

Definition getArticleCitingOtherArticles (svc : Services) (filter : ArticlesCitationsFilterDto)
  : Logged (outcome Page) :=
  log_then ("Fetching articles citing article: " +:+ articleId filter)
    (try_catch
       ('(countResult, articlesResult) ← await (Promise_all2
            (runQuery svc (ArticleCitingOtherArticles.getCountQuery (searchTerm filter)) (countParams filter))
            (runQuery svc (ArticleCitingOtherArticles.getArticlesQuery (searchTerm filter)) (pageParams filter)));
        low ← match countResult !! 0%nat with
              | None => mret JUndefined
              | Some record => v ← get record "totalCount"; get_prop v "low"
              end;
        let totalCount := or_else low (JNum 0) in
        articles ← map_throwing (λ record,
            b ← get record "b";
            article ← get_prop b "properties";
            citedArticleId ← get record "elementId";
            name ← get record "name";
            mret (<["name" := name]> (<["id" := citedArticleId]> (spread article)))) articlesResult;
        elasticSearchResults ← await (Promise_all ((λ articleData,
            let query := {| index := "articles"; match_number := member articleData "number" |} in
            then_ (λ result, _source <$> hits result) (search svc query)) <$> articles));
        let flattenedResults := sort (byHasName "name") (flat elasticSearchResults) in
        mret {| items_key := "articles"; items := flattenedResults; total := totalCount |})
       (λ error, "Error fetching articles cited by article " +:+ articleId filter +:+ ": " +:+ message error)).

Definition getArticleCitingOtherArticlesCount (svc : Services) (articleId : string) : Logged (outcome jsval) :=
  log_then ("Fetching count of articles citing article: " +:+ articleId)
    (let query := "MATCH (a:Article{number: $articleId})-[:CITES]->(b:Article) " in
     let query := query +:+ "OPTIONAL MATCH (b:Article)-[:IS_NAMED]->(n:Name) " in
     let query := query +:+ "RETURN COUNT(b) AS count" in
     try_catch
       (result ← await (runQuery svc query (<["articleId" := JStr articleId]> ∅));
        record ← match result !! 0%nat with
                 | None => Rejected (TypeError "Cannot read properties of undefined (reading 'get')")
                 | Some record => mret record
                 end;
        v ← get record "count";
        get_prop v "low")
       (λ error, "Error fetching count of articles citing article " +:+ articleId +:+ ": " +:+ message error)).

Definition getCasesCitingArticle (svc : Services) (filter : ArticlesCitationsFilterDto)
  : Logged (outcome Page) :=
  log_then ("Fetching cases citing article: " +:+ articleId filter)
    (try_catch
       ('(countResult, casesResult) ← await (Promise_all2
            (runQuery svc (CasesCitingArticle.getCountQuery (searchTerm filter)) (countParams filter))
            (runQuery svc (CasesCitingArticle.getCasesQuery (searchTerm filter)) (pageParams filter)));
        low ← match countResult !! 0%nat with
              | None => mret JUndefined
              | Some record => v ← get record "totalCount"; get_prop v "low"
              end;
        let totalCount := or_else low (JNum 0) in
        cases ← map_throwing (λ record,
            c ← get record "c";
            caseg ← get_prop c "properties";
            caseName ← get record "caseName";
            caseId ← get record "elementId";
            mret (<["caseName" := caseName]> (<["id" := caseId]> (spread caseg)))) casesResult;
        elasticSearchResults ← await (Promise_all ((λ caseData,
            let query := {| index := "cases"; match_number := member caseData "number" |} in
            then_ (λ result, _source <$> hits result) (search svc query)) <$> cases));
        let flattenedResults := sort (byHasName "caseName") (flat elasticSearchResults) in
        mret {| items_key := "cases"; items := flattenedResults; total := totalCount |})
       (λ error, "Error fetching cases citing article " +:+ articleId filter +:+ ": " +:+ message error)).

Definition getCasesCitingArticleCount (svc : Services) (articleId : string) : Logged (outcome jsval) :=
  log_then ("Fetching count of cases citing article: " +:+ articleId)
    (let query := "MATCH (c:Case)-[:REFERS_TO]->(a:Article {number: $articleId}) " in
     let query := query +:+ "OPTIONAL MATCH (c:Case)-[:IS_NAMED]->(n:Name) " in
     let query := query +:+ "RETURN COUNT(c) AS count" in
     try_catch
       (result ← await (runQuery svc query (<["articleId" := JStr articleId]> ∅));
        record ← match result !! 0%nat with
                 | None => Rejected (TypeError "Cannot read properties of undefined (reading 'get')")
                 | Some record => mret record
                 end;
        v ← get record "count";
        get_prop v "low")
       (λ error, "Error fetching count of cases citing article " +:+ articleId +:+ ": " +:+ message error)).

Definition getReferencesWithArticle (svc : Services) (filter : ArticlesCitationsFilterDto)
  : Logged (outcome Page) :=
  log_then ("Fetching references with article: " +:+ articleId filter)
    (try_catch
       ('(countResult, referencesResult) ← await (Promise_all2
            (runQuery svc (ReferencesWithArticle.getCountQuery (searchTerm filter)) (countParams filter))
            (runQuery svc (ReferencesWithArticle.getReferencesQuery (searchTerm filter)) (pageParams filter)));
        low ← match countResult !! 0%nat with
              | None => mret JUndefined
              | Some record => v ← get record "totalCount"; get_prop v "low"
              end;
        let totalCount := or_else low (JNum 0) in
        references ← map_throwing (λ record,
            r ← get record "r";
            reference ← get_prop r "properties";
            mret (spread reference)) referencesResult;
        mret {| items_key := "references"; items := references; total := totalCount |})
       (λ error, "Error fetching references for article " +:+ articleId filter +:+ ": " +:+ message error)).

Definition getReferencesWithArticleCount (svc : Services) (articleId : string) : Logged (outcome jsval) :=
  log_then ("Fetching count of references with article: " +:+ articleId)
    (let query := "MATCH (r:Reference)-[:MENTIONS]->(a:Article {number: $articleId}) " in
     let query := query +:+ "RETURN COUNT(r) AS count" in
     try_catch
       (result ← await (runQuery svc query (<["articleId" := JStr articleId]> ∅));
        record ← match result !! 0%nat with
                 | None => Rejected (TypeError "Cannot read properties of undefined (reading 'get')")
                 | Some record => mret record
                 end;
        v ← get record "count";
        get_prop v "low")
       (λ error, "Error fetching count of references with article " +:+ articleId +:+ ": " +:+ message error)).

End ArticlesCitationsService.

(** ** The Cypher fragment the query texts are written in *)

Module Cypher.

Import Neo4j.

(** *** Syntax *)

Inductive token := TWord (w : string) | TSym (c : ascii).

Definition is_space (c : ascii) : bool :=
  let n := nat_of_ascii c in (n =? 32) || (n =? 10) || (n =? 9) || (n =? 13).

Definition is_word_char (c : ascii) : bool :=
  let n := nat_of_ascii c in
  ((65 <=? n) && (n <=? 90)) || ((97 <=? n) && (n <=? 122))
  || ((48 <=? n) && (n <=? 57)) || (n =? 95) || (n =? 36).

Definition flush (word : string) : list token :=
  if String.eqb word "" then [] else [TWord word].

(** Words are maximal runs of letters, digits, [_] and [$]; every other
    character that is not white space is a token of its own. *)
Fixpoint lex (word : string) (text : string) : list token :=
  match text with
  | EmptyString => flush word
  | String c text' =>
      if is_word_char c then lex (word +:+ String c EmptyString) text'
      else flush word ++ (if is_space c then [] else [TSym c]) ++ lex "" text'
  end.

Definition upper_ascii (c : ascii) : ascii :=
  let n := nat_of_ascii c in
  if (97 <=? n) && (n <=? 122) then ascii_of_nat (n - 32) else c.

Fixpoint upper (s : string) : string :=
  match s with
  | EmptyString => EmptyString
  | String c s' => String (upper_ascii c) (upper s')
  end.

(** Keywords and function names are matched without regard to case. *)
Definition is_kw (kw : string) (t : token) : bool :=
  match t with
  | TWord w => String.eqb (upper w) kw
  | TSym _ => false
  end.

Inductive expr :=
| EVar (v : string)
| EProp (v key : string)
| EParam (p : string)
| EToLower (e : expr)
| EToInteger (e : expr)
| EElementId (e : expr)
| ECount (e : expr).

Inductive pred :=
| PContains (l r : expr)
| POr (p q : pred).

(** [(v:Label {key: $param})] *)
Record node_pattern := {
  np_var : string;
  np_label : option string;
  np_prop : option (string * string)
}.

(** [(l)-[:TYPE]->(r)] *)
Record path_pattern := {
  pp_left : node_pattern;
  pp_type : string;
  pp_right : node_pattern
}.

Record return_item := { ri_expr : expr; ri_alias : option string }.

(** MATCH, OPTIONAL MATCH, WITH, WHERE, RETURN [DISTINCT], ORDER BY .. DESC,
    SKIP .. LIMIT, in this order. *)
Record query := {
  q_match : path_pattern;
  q_optional : option path_pattern;
  q_with : option (list string);
  q_where : option pred;
  q_distinct : bool;
  q_return : list return_item;
  q_order_by : option expr;
  q_skip_limit : option (expr * expr)
}.

Definition param_name (w : string) : option string :=
  match w with
  | String "$" p => Some p
  | _ => None
  end.

Definition function_named (f : string) : option (expr → expr) :=
  let f := upper f in
  if String.eqb f "TOLOWER" then Some EToLower
  else if String.eqb f "TOINTEGER" then Some EToInteger
  else if String.eqb f "ELEMENTID" then Some EElementId
  else if String.eqb f "COUNT" then Some ECount
  else None.

Fixpoint parse_expr (fuel : nat) (ts : list token) : option (expr * list token) :=
  match fuel with
  | 0 => None
  | S fuel =>
      match ts with
      | TWord f :: TSym "(" :: ts1 =>
          '(e, ts2) ← parse_expr fuel ts1;
          match ts2 with
          | TSym ")" :: rest => c ← function_named f; Some (c e, rest)
          | _ => None
          end
      | TWord v :: TSym "." :: TWord key :: rest => Some (EProp v key, rest)
      | TWord w :: rest =>
          match param_name w with
          | Some p => Some (EParam p, rest)
          | None => Some (EVar w, rest)
          end
      | _ => None
      end
  end.

Definition parse_contains (ts : list token) : option (pred * list token) :=
  '(l, ts1) ← parse_expr (length ts) ts;
  match ts1 with
  | t :: ts2 =>
      if is_kw "CONTAINS" t
      then '(r, rest) ← parse_expr (length ts2) ts2; Some (PContains l r, rest)
      else None
  | [] => None
  end.

Fixpoint parse_or (fuel : nat) (p : pred) (ts : list token) : option (pred * list token) :=
  match fuel, ts with
  | S fuel, t :: ts1 =>
      if is_kw "OR" t
      then '(q, rest) ← parse_contains ts1; parse_or fuel (POr p q) rest
      else Some (p, ts)
  | _, _ => Some (p, ts)
  end.

Definition parse_pred (ts : list token) : option (pred * list token) :=
  '(p, rest) ← parse_contains ts; parse_or (length rest) p rest.

Definition parse_node (ts : list token) : option (node_pattern * list token) :=
  match ts with
  | TSym "(" :: TWord v :: ts1 =>
      let '(label, ts2) :=
        match ts1 with
        | TSym ":" :: TWord l :: r => (Some l, r)
        | _ => (None, ts1)
        end in
      match ts2 with
      | TSym "{" :: TWord key :: TSym ":" :: TWord w :: TSym "}" :: TSym ")" :: rest =>
          p ← param_name w;
          Some ({| np_var := v; np_label := label; np_prop := Some (key, p) |}, rest)
      | TSym ")" :: rest =>
          Some ({| np_var := v; np_label := label; np_prop := None |}, rest)
      | _ => None
      end
  | _ => None
  end.

Definition parse_path (ts : list token) : option (path_pattern * list token) :=
  '(l, ts1) ← parse_node ts;
  match ts1 with
  | TSym "-" :: TSym "[" :: TSym ":" :: TWord ty :: TSym "]" :: TSym "-" :: TSym ">" :: ts2 =>
      '(r, rest) ← parse_node ts2;
      Some ({| pp_left := l; pp_type := ty; pp_right := r |}, rest)
  | _ => None
  end.

Fixpoint parse_vars (fuel : nat) (ts : list token) : option (list string * list token) :=
  match fuel, ts with
  | S fuel, TWord v :: TSym "," :: ts1 =>
      '(vs, rest) ← parse_vars fuel ts1; Some (v :: vs, rest)
  | S _, TWord v :: rest => Some ([v], rest)
  | _, _ => None
  end.

Definition parse_item (ts : list token) : option (return_item * list token) :=
  '(e, ts1) ← parse_expr (length ts) ts;
  match ts1 with
  | t :: TWord alias :: rest =>
      if is_kw "AS" t
      then Some ({| ri_expr := e; ri_alias := Some alias |}, rest)
      else Some ({| ri_expr := e; ri_alias := None |}, ts1)
  | _ => Some ({| ri_expr := e; ri_alias := None |}, ts1)
  end.

Fixpoint parse_items (fuel : nat) (ts : list token) : option (list return_item * list token) :=
  match fuel with
  | 0 => None
  | S fuel =>
      '(i, ts1) ← parse_item ts;
      match ts1 with
      | TSym "," :: ts2 => '(items, rest) ← parse_items fuel ts2; Some (i :: items, rest)
      | _ => Some ([i], ts1)
      end
  end.

(** An optional clause introduced by the keywords [kws]. *)
Fixpoint after_kws (kws : list string) (ts : list token) : option (list token) :=
  match kws, ts with
  | [], _ => Some ts
  | kw :: kws', t :: ts' => if is_kw kw t then after_kws kws' ts' else None
  | _ :: _, [] => None
  end.

Definition optional_clause {A} (kws : list string)
    (body : list token → option (A * list token)) (ts : list token)
  : option (option A * list token) :=
  match after_kws kws ts with
  | Some ts1 => '(a, rest) ← body ts1; Some (Some a, rest)
  | None => Some (None, ts)
  end.

Definition parse_order (ts : list token) : option (expr * list token) :=
  '(e, ts1) ← parse_expr (length ts) ts;
  rest ← after_kws ["DESC"] ts1; Some (e, rest).

Definition parse_skip_limit (ts : list token) : option ((expr * expr) * list token) :=
  '(s, ts1) ← parse_expr (length ts) ts;
  ts2 ← after_kws ["LIMIT"] ts1;
  '(l, rest) ← parse_expr (length ts2) ts2;
  Some ((s, l), rest).

Definition parse_query (ts : list token) : option query :=
  ts ← after_kws ["MATCH"] ts;
  '(m, ts) ← parse_path ts;
  '(o, ts) ← optional_clause ["OPTIONAL"; "MATCH"] parse_path ts;
  '(w, ts) ← optional_clause ["WITH"] (λ ts, parse_vars (length ts) ts) ts;
  '(p, ts) ← optional_clause ["WHERE"] parse_pred ts;
  ts ← after_kws ["RETURN"] ts;
  '(d, ts) ← optional_clause ["DISTINCT"] (λ ts, Some ((), ts)) ts;
  '(r, ts) ← parse_items (length ts) ts;
  '(ob, ts) ← optional_clause ["ORDER"; "BY"] parse_order ts;
  '(sl, ts) ← optional_clause ["SKIP"] parse_skip_limit ts;
  match ts with
  | [] =>
      Some {| q_match := m; q_optional := o; q_with := w; q_where := p;
              q_distinct := bool_decide (is_Some d); q_return := r;
              q_order_by := ob; q_skip_limit := sl |}
  | _ :: _ => None
  end.

Definition parse (text : string) : option query := parse_query (lex "" text).

(** *** The property graph *)

Inductive pval := PStr (s : string) | PInt (z : Z).

Record Node := {
  elementId : string;
  labels : list string;
  properties : gmap string pval
}.

Record Relationship := { rel_start : string; rel_type : string; rel_end : string }.

Record Graph := { nodes : list Node; relationships : list Relationship }.

(** *** Evaluation

    The clauses mean what the Cypher reference says they mean.  MATCH gives
    one row for every relationship that fits the pattern, so a pair of
    nodes joined twice gives two rows.  OPTIONAL MATCH keeps a row that
    finds nothing and binds the new variables to null.  A property of null
    is null, [toLower] of null is null, a comparison with null is unknown,
    OR is three-valued, and WHERE keeps the rows on which the predicate is
    true.  [count(e)] counts the rows on which [e] is not null, each as
    often as it occurs, and is one row even over none.  DISTINCT keeps one
    of equal result rows.  In descending order null comes first. *)

Inductive cval := CNull | CStr (s : string) | CInt (z : Z) | CNode (n : Node).

(** A row of variable bindings. *)
Abbreviation row := (gmap string cval).

(** A row of a result: the values of the RETURN items, by column. *)
Abbreviation result_row := (list (string * cval)).

Inductive tri := TTrue | TFalse | TUnknown.

Definition tri_or (a b : tri) : tri :=
  match a, b with
  | TTrue, _ | _, TTrue => TTrue
  | TFalse, TFalse => TFalse
  | _, _ => TUnknown
  end.

(** [s CONTAINS sub] on strings. *)
Fixpoint contains (s sub : string) : bool :=
  String.prefix sub s ||
  match s with
  | EmptyString => false
  | String _ s' => contains s' sub
  end.

Definition property (n : Node) (key : string) : cval :=
  match properties n !! key with
  | Some (PStr s) => CStr s
  | Some (PInt z) => CInt z
  | None => CNull
  end.

(** The parameters the service passes are strings, numbers or absent. *)
Definition param_value (v : jsval) : cval :=
  match v with
  | JStr s => CStr s
  | JNum z => CInt z
  | _ => CNull
  end.

Definition digit (c : ascii) : option Z :=
  let n := nat_of_ascii c in
  if (48 <=? n) && (n <=? 57) then Some (Z.of_nat (n - 48)) else None.

Fixpoint decimal (acc : Z) (s : string) : option Z :=
  match s with
  | EmptyString => Some acc
  | String c s' => d ← digit c; decimal (10 * acc + d) s'
  end.

(** [toInteger] of a string: its decimal value, or null. *)
Definition integer_of_string (s : string) : cval :=
  match s with
  | EmptyString => CNull
  | String "-" s' =>
      match s' with
      | EmptyString => CNull
      | _ => from_option (λ z, CInt (- z)) CNull (decimal 0 s')
      end
  | _ => from_option CInt CNull (decimal 0 s)
  end.

Definition type_error (f : string) : Error :=
  Neo4jError ("Type mismatch in " +:+ f).

(** Equality of values as DISTINCT sees it: nodes by identity, null equal
    to null. *)
Definition cval_eqb (a b : cval) : bool :=
  match a, b with
  | CNull, CNull => true
  | CStr s, CStr t => String.eqb s t
  | CInt x, CInt y => Z.eqb x y
  | CNode n, CNode m => String.eqb (elementId n) (elementId m)
  | _, _ => false
  end.

Fixpoint result_row_eqb (r1 r2 : result_row) : bool :=
  match r1, r2 with
  | [], [] => true
  | (c1, v1) :: r1', (c2, v2) :: r2' =>
      String.eqb c1 c2 && cval_eqb v1 v2 && result_row_eqb r1' r2'
  | _, _ => false
  end.

(** DISTINCT keeps the first of equal rows. *)
Definition distinct (rows : list result_row) : list result_row :=
  fold_left (λ seen r, if existsb (result_row_eqb r) seen then seen else seen ++ [r])
            rows [].

(** The order of values, ascending: nodes, strings, integers, null. *)
Definition cval_ltb (a b : cval) : bool :=
  match a, b with
  | CNode n, CNode m => String.ltb (elementId n) (elementId m)
  | CNode _, _ => true
  | CStr _, CNode _ => false
  | CStr s, CStr t => String.ltb s t
  | CStr _, _ => true
  | CInt x, CInt y => Z.ltb x y
  | CInt _, CNull => true
  | CInt _, _ => false
  | CNull, _ => false
  end.

(** ORDER BY .. DESC: a row moves behind another only when its key is
    strictly smaller. *)
Fixpoint order_insert {A} (x : cval * A) (l : list (cval * A)) : list (cval * A) :=
  match l with
  | [] => [x]
  | y :: l' => if cval_ltb x.1 y.1 then y :: order_insert x l' else x :: l
  end.

Definition order_desc {A} (l : list (cval * A)) : list (cval * A) :=
  foldr order_insert [] l.

Fixpoint expr_text (e : expr) : string :=
  match e with
  | EVar v => v
  | EProp v key => v +:+ "." +:+ key
  | EParam p => "$" +:+ p
  | EToLower e => "toLower(" +:+ expr_text e +:+ ")"
  | EToInteger e => "toInteger(" +:+ expr_text e +:+ ")"
  | EElementId e => "elementId(" +:+ expr_text e +:+ ")"
  | ECount e => "count(" +:+ expr_text e +:+ ")"
  end.

Definition column (i : return_item) : string :=
  default (expr_text (ri_expr i)) (ri_alias i).

Fixpoint aggregates (e : expr) : bool :=
  match e with
  | ECount _ => true
  | EToLower e | EToInteger e | EElementId e => aggregates e
  | EVar _ | EProp _ _ | EParam _ => false
  end.

Section Semantics.

(** Case folding is the store's; nothing below depends on which it is. *)
Variable toLower : string → string.
Variable g : Graph.
Variable params : obj.

Fixpoint eval (ρ : row) (e : expr) : outcome cval :=
  match e with
  | EVar v =>
      match ρ !! v with
      | Some x => mret x
      | None => Rejected (Neo4jError ("Variable `" +:+ v +:+ "` not defined"))
      end
  | EProp v key =>
      match ρ !! v with
      | Some (CNode n) => mret (property n key)
      | Some CNull => mret CNull
      | Some _ => Rejected (type_error "property access")
      | None => Rejected (Neo4jError ("Variable `" +:+ v +:+ "` not defined"))
      end
  | EParam p =>
      match params !! p with
      | Some v => mret (param_value v)
      | None => Rejected (Neo4jError ("Expected parameter(s): " +:+ p))
      end
  | EToLower e =>
      x ← eval ρ e;
      match x with
      | CStr s => mret (CStr (toLower s))
      | CNull => mret CNull
      | _ => Rejected (type_error "toLower")
      end
  | EToInteger e =>
      x ← eval ρ e;
      match x with
      | CInt z => mret (CInt z)
      | CStr s => mret (integer_of_string s)
      | CNull => mret CNull
      | CNode _ => Rejected (type_error "toInteger")
      end
  | EElementId e =>
      x ← eval ρ e;
      match x with
      | CNode n => mret (CStr (elementId n))
      | CNull => mret CNull
      | _ => Rejected (type_error "elementId")
      end
  | ECount _ => Rejected (Neo4jError "Invalid use of aggregating function count(...)")
  end.

(** Three-valued: a comparison with null is unknown. *)
Fixpoint holds (ρ : row) (p : pred) : outcome tri :=
  match p with
  | PContains l r =>
      x ← eval ρ l;
      y ← eval ρ r;
      match x, y with
      | CStr s, CStr sub => mret (if contains s sub then TTrue else TFalse)
      | CNull, (CNull | CStr _) | CStr _, CNull => mret TUnknown
      | _, _ => Rejected (type_error "CONTAINS")
      end
  | POr p q => a ← holds ρ p; b ← holds ρ q; mret (tri_or a b)
  end.

Definition find_node (id : string) : option Node :=
  List.find (λ n, String.eqb (elementId n) id) (nodes g).

(** The [{key: $param}] of a node pattern, with the parameter resolved. *)
Definition resolve (np : node_pattern) : outcome (option (string * cval)) :=
  match np_prop np with
  | None => mret None
  | Some (key, p) => v ← eval ∅ (EParam p); mret (Some (key, v))
  end.

(** Whether node [n] fits a node pattern in a row: its label, its property
    (null equals nothing) and, if the variable is bound, its identity. *)
Definition fits (np : node_pattern) (want : option (string * cval)) (ρ : row) (n : Node) : bool :=
  match np_label np with
  | Some l => bool_decide (l ∈ labels n)
  | None => true
  end
  && match want with
     | Some (key, v) =>
         match v with
         | CNull => false
         | _ => cval_eqb (property n key) v
         end
     | None => true
     end
  && match ρ !! np_var np with
     | Some (CNode m) => String.eqb (elementId m) (elementId n)
     | Some _ => false
     | None => true
     end.

(** The extensions of row [ρ] by the relationships that fit the pattern,
    in the order of the store.  Cypher promises no order of the rows
    without ORDER BY, nor among rows of equal key with it: the store is
    taken to go through its relationships in the order of [relationships],
    whichever that is, and a property of the rows of a page is stated so
    that it holds in every order. *)
Definition extensions (pp : path_pattern) (wl wr : option (string * cval)) (ρ : row)
  : list row :=
  omap (λ rel,
    if String.eqb (rel_type rel) (pp_type pp) then
      s ← find_node (rel_start rel);
      d ← find_node (rel_end rel);
      if fits (pp_left pp) wl ρ s && fits (pp_right pp) wr ρ d
      then Some (<[np_var (pp_right pp) := CNode d]>
                   (<[np_var (pp_left pp) := CNode s]> ρ))
      else None
    else None) (relationships g).

Definition expand (pp : path_pattern) (ρ : row) : outcome (list row) :=
  wl ← resolve (pp_left pp);
  wr ← resolve (pp_right pp);
  mret (extensions pp wl wr ρ).

Definition bind_null (v : string) (ρ : row) : row :=
  match ρ !! v with
  | Some _ => ρ
  | None => <[v := CNull]> ρ
  end.

(** OPTIONAL MATCH: a row without a match is kept, the pattern's new
    variables null. *)
Definition expand_optional (pp : path_pattern) (ρ : row) : outcome (list row) :=
  ms ← expand pp ρ;
  match ms with
  | [] => mret [bind_null (np_var (pp_right pp)) (bind_null (np_var (pp_left pp)) ρ)]
  | _ :: _ => mret ms
  end.

(** WITH v1, v2, ..: only these variables stay in scope. *)
Fixpoint with_vars (vs : list string) (ρ : row) : outcome row :=
  match vs with
  | [] => mret ∅
  | v :: vs' => x ← eval ρ (EVar v); ρ' ← with_vars vs' ρ; mret (<[v := x]> ρ')
  end.

(** WHERE keeps the rows on which the predicate is true. *)
Fixpoint where_ (p : pred) (rows : list row) : outcome (list row) :=
  match rows with
  | [] => mret []
  | ρ :: rows' =>
      t ← holds ρ p;
      kept ← where_ p rows';
      mret (match t with TTrue => ρ :: kept | _ => kept end)
  end.

(** The rows that reach RETURN. *)
Definition matched (q : query) : outcome (list row) :=
  rows ← expand (q_match q) ∅;
  rows ← match q_optional q with
         | Some pp => flat <$> map_throwing (expand_optional pp) rows
         | None => mret rows
         end;
  rows ← match q_with q with
         | Some vs => map_throwing (with_vars vs) rows
         | None => mret rows
         end;
  match q_where q with
  | Some p => where_ p rows
  | None => mret rows
  end.

Definition is_null (v : cval) : bool :=
  match v with
  | CNull => true
  | _ => false
  end.

(** RETURN: a lone [count(e)] counts the rows on which [e] is not null,
    duplicates included; otherwise every row gives a result row, and
    DISTINCT drops the repeated ones. *)
Definition returned (q : query) (rows : list row) : outcome (list result_row) :=
  match q_return q with
  | [ {| ri_expr := ECount e; ri_alias := a |} ] =>
      vs ← map_throwing (λ ρ, eval ρ e) rows;
      mret [[ (column {| ri_expr := ECount e; ri_alias := a |},
               CInt (Z.of_nat (length (filter (λ v, is_null v = false) vs)))) ]]
  | items =>
      if existsb (λ i, aggregates (ri_expr i)) items
      then Rejected (Neo4jError "Unsupported aggregation")
      else
        rs ← map_throwing (λ ρ,
               map_throwing (λ i, v ← eval ρ (ri_expr i); mret (column i, v)) items) rows;
        mret (if q_distinct q then distinct rs else rs)
  end.

(** ORDER BY reads the columns of the result. *)
Definition ordered (q : query) (rs : list result_row) : outcome (list result_row) :=
  match q_order_by q with
  | Some e =>
      keyed ← map_throwing (λ r, k ← eval (list_to_map r) e; mret (k, r)) rs;
      mret (snd <$> order_desc keyed)
  | None => mret rs
  end.

Definition sliced (q : query) (rs : list result_row) : outcome (list result_row) :=
  match q_skip_limit q with
  | Some (s, l) =>
      s ← eval ∅ s;
      l ← eval ∅ l;
      match s, l with
      | CInt s, CInt l =>
          if (0 <=? s)%Z && (0 <=? l)%Z
          then mret (take (Z.to_nat l) (drop (Z.to_nat s) rs))
          else Rejected (Neo4jError "Invalid input: SKIP and LIMIT must not be negative")
      | _, _ => Rejected (Neo4jError "Invalid input: SKIP and LIMIT take integers")
      end
  | None => mret rs
  end.

Definition run (q : query) : outcome (list result_row) :=
  rows ← matched q;
  rs ← returned q rows;
  rs ← ordered q rs;
  sliced q rs.

End Semantics.

(** *** The parameters a query mentions before RETURN *)

Fixpoint expr_params (e : expr) : list string :=
  match e with
  | EParam p => [p]
  | EVar _ | EProp _ _ => []
  | EToLower e | EToInteger e | EElementId e | ECount e => expr_params e
  end.

Fixpoint pred_params (p : pred) : list string :=
  match p with
  | PContains l r => expr_params l ++ expr_params r
  | POr p q => pred_params p ++ pred_params q
  end.

Definition node_params (np : node_pattern) : list string :=
  match np_prop np with
  | Some (_, p) => [p]
  | None => []
  end.

Definition path_params (pp : path_pattern) : list string :=
  node_params (pp_left pp) ++ node_params (pp_right pp).

Definition matched_params (q : query) : list string :=
  path_params (q_match q)
  ++ from_option path_params [] (q_optional q)
  ++ from_option pred_params [] (q_where q).

(** Two parameter maps that agree on the names [xs]. *)
Definition agree (xs : list string) (ps ps' : obj) : Prop :=
  ∀ x, x ∈ xs → ps !! x = ps' !! x.

(** *** Results as the driver hands them over *)

Definition pval_js (v : pval) : jsval :=
  match v with
  | PStr s => JStr s
  | PInt z => int z
  end.

(** A driver [Node]: [labels], [properties] and [elementId]. *)
Definition node_js (n : Node) : jsval :=
  JObject (<["labels" := JArray (JStr <$> labels n)]>
             (<["properties" := JObject (pval_js <$> properties n)]>
                (<["elementId" := JStr (elementId n)]> ∅))).

Definition cval_js (v : cval) : jsval :=
  match v with
  | CNull => JNull
  | CStr s => JStr s
  | CInt z => int z
  | CNode n => node_js n
  end.

Definition record_of (r : result_row) : Neo4jRecord :=
  list_to_map (prod_map id cval_js <$> r).

(** The graph store behind [runQuery]: it parses the text it is sent, runs
    it on the graph with the parameters, and hands the rows over as driver
    records. *)
Definition execute (toLower : string → string) (g : Graph)
    (text : string) (params : obj) : outcome (list Neo4jRecord) :=
  match parse text with
  | Some q => fmap (M := list) record_of <$> run toLower g params q
  | None => Rejected (Neo4jError "Invalid input: syntax error")
  end.

Definition graphStore (toLower : string → string) (g : Graph)
    (text : string) (params : obj) : promise (list Neo4jRecord) :=
  {| settles_at := 0; settled := execute toLower g text params |}.

End Cypher.

(** ** The four relation queries, uniformly

    The four page operations are copies of one another up to their query
    texts, column names and search index.  [page_operation] is that common
    body; [pageOperation_unfold] below shows each operation to be an
    instance of it. *)

Module Relations.

Import Neo4j Elasticsearch ArticlesCitationsService Cypher.

Inductive relation := CitedBy | Citing | CasesCiting | References.

Definition pageOperation (r : relation)
  : Services → ArticlesCitationsFilterDto → Logged (outcome Page) :=
  match r with
  | CitedBy => getCitedByArticles
  | Citing => getArticleCitingOtherArticles
  | CasesCiting => getCasesCitingArticle
  | References => getReferencesWithArticle
  end.

Definition countOperation (r : relation) : Services → string → Logged (outcome jsval) :=
  match r with
  | CitedBy => getCitedByArticlesCount
  | Citing => getArticleCitingOtherArticlesCount
  | CasesCiting => getCasesCitingArticleCount
  | References => getReferencesWithArticleCount
  end.

Definition countQuery (r : relation) : option string → string :=
  match r with
  | CitedBy => CitedByArticles.getCountQuery
  | Citing => ArticleCitingOtherArticles.getCountQuery
  | CasesCiting => CasesCitingArticle.getCountQuery
  | References => ReferencesWithArticle.getCountQuery
  end.

Definition pageQuery (r : relation) : option string → string :=
  match r with
  | CitedBy => CitedByArticles.getArticlesQuery
  | Citing => ArticleCitingOtherArticles.getArticlesQuery
  | CasesCiting => CasesCitingArticle.getCasesQuery
  | References => ReferencesWithArticle.getReferencesQuery
  end.

(** The text a count-only operation sends. *)
Definition countOnlyQuery (r : relation) : string :=
  match r with
  | CitedBy =>
      "MATCH (a:Article)-[:CITES]->(b:Article{number: $articleId}) "
      +:+ "OPTIONAL MATCH (a:Article)-[:IS_NAMED]->(n:Name) "
      +:+ "RETURN COUNT(a) AS count"
  | Citing =>
      "MATCH (a:Article{number: $articleId})-[:CITES]->(b:Article) "
      +:+ "OPTIONAL MATCH (b:Article)-[:IS_NAMED]->(n:Name) "
      +:+ "RETURN COUNT(b) AS count"
  | CasesCiting =>
      "MATCH (c:Case)-[:REFERS_TO]->(a:Article {number: $articleId}) "
      +:+ "OPTIONAL MATCH (c:Case)-[:IS_NAMED]->(n:Name) "
      +:+ "RETURN COUNT(c) AS count"
  | References =>
      "MATCH (r:Reference)-[:MENTIONS]->(a:Article {number: $articleId}) "
      +:+ "RETURN COUNT(r) AS count"
  end.

(** The variable of the entity a relation query lists. *)
Definition subject (r : relation) : string :=
  match r with
  | CitedBy => "a"
  | Citing => "b"
  | CasesCiting => "c"
  | References => "r"
  end.

(** The fields a relation's search condition names, in its order. *)
Definition searchFields (r : relation) : list expr :=
  match r with
  | CitedBy => [EProp "n" "short"; EProp "a" "number"; EProp "a" "text"]
  | Citing => [EProp "n" "short"; EProp "b" "number"; EProp "b" "text"]
  | CasesCiting =>
      [EProp "n" "short"; EProp "c" "number"; EProp "c" "judgment"; EProp "c" "facts";
       EProp "c" "reasoning"; EProp "c" "headnotes"; EProp "c" "year";
       EProp "c" "decision_type"]
  | References => [EProp "r" "context"; EProp "r" "text"]
  end.

(** [toLower(f) CONTAINS toLower($searchTerm)] *)
Definition matches_term (f : expr) : pred :=
  PContains (EToLower f) (EToLower (EParam "searchTerm")).

(** [m1 OR m2 OR ..], as the parser associates it. *)
Definition any_field (f : expr) (fs : list expr) : pred :=
  fold_left (λ p f', POr p (matches_term f')) fs (matches_term f).

(** The search index and the sort key of an enriched relation. *)
Definition enrichment (r : relation) : option (string * string) :=
  match r with
  | CitedBy | Citing => Some ("articles", "name")
  | CasesCiting => Some ("cases", "caseName")
  | References => None
  end.

Definition itemsKey (r : relation) : string :=
  match r with
  | CitedBy | Citing => "articles"
  | CasesCiting => "cases"
  | References => "references"
  end.

(** How an operation turns a page row into a plain record. *)
Definition normalize (r : relation) (record : Neo4jRecord) : outcome obj :=
  match r with
  | CitedBy | Citing =>
      a ← get record (subject r);
      article ← get_prop a "properties";
      citedArticleId ← get record "elementId";
      name ← get record "name";
      mret (<["name" := name]> (<["id" := citedArticleId]> (spread article)))
  | CasesCiting =>
      c ← get record "c";
      caseg ← get_prop c "properties";
      caseName ← get record "caseName";
      caseId ← get record "elementId";
      mret (<["caseName" := caseName]> (<["id" := caseId]> (spread caseg)))
  | References =>
      r ← get record "r";
      reference ← get_prop r "properties";
      mret (spread reference)
  end.

Definition startMessage (r : relation) : string :=
  match r with
  | CitedBy => "Fetching articles cited by article: "
  | Citing => "Fetching articles citing article: "
  | CasesCiting => "Fetching cases citing article: "
  | References => "Fetching references with article: "
  end.

Definition errorMessage (r : relation) : string :=
  match r with
  | CitedBy | Citing => "Error fetching articles cited by article "
  | CasesCiting => "Error fetching cases citing article "
  | References => "Error fetching references for article "
  end.

(** The two graph calls of a page operation. *)
Definition countCall (r : relation) (svc : Services) (filter : ArticlesCitationsFilterDto)
  : promise (list Neo4jRecord) :=
  runQuery svc (countQuery r (searchTerm filter)) (countParams filter).

Definition pageCall (r : relation) (svc : Services) (filter : ArticlesCitationsFilterDto)
  : promise (list Neo4jRecord) :=
  runQuery svc (pageQuery r (searchTerm filter)) (pageParams filter).

(** [countResult[0]?.get('totalCount').low || 0] *)
Definition totalCount (countResult : list Neo4jRecord) : outcome jsval :=
  low ← match countResult !! 0%nat with
        | None => mret JUndefined
        | Some record => v ← get record "totalCount"; get_prop v "low"
        end;
  mret (or_else low (JNum 0)).

(** The lookup issued for one normalized row. *)
Definition lookup (svc : Services) (idx : string) (data : obj) : promise (list obj) :=
  then_ (λ result, _source <$> hits result)
        (search svc {| index := idx; match_number := member data "number" |}).

Definition page_body (r : relation) (svc : Services) (filter : ArticlesCitationsFilterDto)
  : outcome Page :=
  '(countResult, pageResult) ← await (Promise_all2 (countCall r svc filter) (pageCall r svc filter));
  total ← totalCount countResult;
  rows ← map_throwing (normalize r) pageResult;
  match enrichment r with
  | Some (idx, key) =>
      found ← await (Promise_all (lookup svc idx <$> rows));
      mret {| items_key := itemsKey r; items := sort (byHasName key) (flat found);
              total := total |}
  | None => mret {| items_key := itemsKey r; items := rows; total := total |}
  end.

Definition page_operation (r : relation) (svc : Services) (filter : ArticlesCitationsFilterDto)
  : Logged (outcome Page) :=
  log_then (startMessage r +:+ articleId filter)
    (try_catch (page_body r svc filter)
       (λ error, errorMessage r +:+ articleId filter +:+ ": " +:+ message error)).

(** [result[0].get('count').low] *)
Definition count_body (r : relation) (svc : Services) (articleId : string) : outcome jsval :=
  result ← await (runQuery svc (countOnlyQuery r) (<["articleId" := JStr articleId]> ∅));
  record ← match result !! 0%nat with
           | None => Rejected (TypeError "Cannot read properties of undefined (reading 'get')")
           | Some record => mret record
           end;
  v ← get record "count";
  get_prop v "low".

(** *** The plans the query texts stand for

    [parse_countQuery] and [parse_pageQuery] below show that the texts of
    the service parse to these. *)

Definition plain (v label : string) : node_pattern :=
  {| np_var := v; np_label := Some label; np_prop := None |}.

(** [(v:Article {number: $articleId})] *)
Definition numbered (v : string) : node_pattern :=
  {| np_var := v; np_label := Some "Article"; np_prop := Some ("number", "articleId") |}.

Definition traversal (r : relation) : path_pattern :=
  match r with
  | CitedBy =>
      {| pp_left := plain "a" "Article"; pp_type := "CITES"; pp_right := numbered "b" |}
  | Citing =>
      {| pp_left := numbered "a"; pp_type := "CITES"; pp_right := plain "b" "Article" |}
  | CasesCiting =>
      {| pp_left := plain "c" "Case"; pp_type := "REFERS_TO"; pp_right := numbered "a" |}
  | References =>
      {| pp_left := plain "r" "Reference"; pp_type := "MENTIONS"; pp_right := numbered "a" |}
  end.

(** [OPTIONAL MATCH (subject)-[:IS_NAMED]->(n:Name)] *)
Definition naming (r : relation) : option path_pattern :=
  match r with
  | References => None
  | _ =>
      Some {| pp_left := {| np_var := subject r; np_label := None; np_prop := None |};
              pp_type := "IS_NAMED"; pp_right := plain "n" "Name" |}
  end.

Definition scope (r : relation) : option (list string) :=
  match r with
  | References => None
  | _ => Some [subject r; "n"]
  end.

Definition condition (r : relation) (searchTerm : option string) : option pred :=
  if truthy (term searchTerm)
  then match searchFields r with
       | f :: fs => Some (any_field f fs)
       | [] => None
       end
  else None.

Definition named (e : expr) (alias : string) : return_item :=
  {| ri_expr := e; ri_alias := Some alias |}.

Definition projection (r : relation) : list return_item :=
  match r with
  | CitedBy | Citing =>
      [ {| ri_expr := EVar (subject r); ri_alias := None |};
        named (EProp "n" "short") "name";
        named (EElementId (EVar (subject r))) "elementId" ]
  | CasesCiting =>
      [ {| ri_expr := EVar "c"; ri_alias := None |};
        named (EProp "n" "short") "caseName";
        named (EElementId (EVar "c")) "elementId" ]
  | References => [ {| ri_expr := EVar "r"; ri_alias := None |} ]
  end.

Definition ordering (r : relation) : option expr :=
  match r with
  | References => None
  | _ => Some (EProp (subject r) "citing_cases")
  end.

Definition countPlan (r : relation) (searchTerm : option string) : query :=
  {| q_match := traversal r; q_optional := naming r; q_with := scope r;
     q_where := condition r searchTerm;
     q_distinct := false;
     q_return := [named (ECount (EVar (subject r))) "totalCount"];
     q_order_by := None; q_skip_limit := None |}.

Definition pagePlan (r : relation) (searchTerm : option string) : query :=
  {| q_match := traversal r; q_optional := naming r; q_with := scope r;
     q_where := condition r searchTerm;
     q_distinct := true;
     q_return := projection r;
     q_order_by := ordering r;
     q_skip_limit := Some (EToInteger (EParam "skip"), EToInteger (EParam "limit")) |}.

(** What the rows of a relation query bind when they reach RETURN: the
    subject to a node and, where a name is looked for, [n] to a node or to
    null. *)
Definition shaped (r : relation) (ρ : row) : Prop :=
  (∃ x, ρ !! subject r = Some (CNode x))
  ∧ (naming r ≠ None → ρ !! "n" = Some CNull ∨ ∃ m, ρ !! "n" = Some (CNode m)).

(** The entity a row lists. *)
Definition subject_id (r : relation) (ρ : row) : option string :=
  match ρ !! subject r with
  | Some (CNode x) => Some (elementId x)
  | _ => None
  end.

(** A field of row [ρ] holds text that contains the term [s], both folded. *)
Definition hit (toLower : string → string) (ps : obj) (ρ : row) (s : string) (f : expr)
  : Prop :=
  ∃ v, eval toLower ps ρ f = Fulfilled (CStr v) ∧ contains (toLower v) (toLower s) = true.

(** A field of row [ρ] is null or text. *)
Definition textual (toLower : string → string) (ps : obj) (ρ : row) (f : expr) : Prop :=
  eval toLower ps ρ f = Fulfilled CNull ∨ ∃ v, eval toLower ps ρ f = Fulfilled (CStr v).

(** Whether document [a] carries a name: [a[key]] is truthy. *)
Definition hasName (key : string) (a : obj) : bool := truthy (member a key).




(** The same store and a different search index. *)
Definition with_search (svc : Services) (search' : SearchRequest → promise SearchResponse)
  : Services :=
  {| runQuery := runQuery svc; search := search' |}.

(** The same filter and another window. *)
Definition with_window (filter : ArticlesCitationsFilterDto) (skip' limit' : nat)
  : ArticlesCitationsFilterDto :=
  {| articleId := articleId filter; searchTerm := searchTerm filter;
     skip := skip'; limit := limit' |}.

End Relations.

(** ** Stores and graphs to run the service on *)

Module Examples.

Import Neo4j Elasticsearch ArticlesCitationsService Cypher Relations.

Definition settling {A} (t : nat) (o : outcome A) : promise A :=
  {| settles_at := t; settled := o |}.

(** A store that answers a count query (no [skip] among its parameters)
    with [countRows] and a page query with [pageRows]. *)
Definition answering (countRows pageRows : outcome (list Neo4jRecord))
    (text : string) (params : obj) : promise (list Neo4jRecord) :=
  match params !! "skip" with
  | Some _ => settling 1 pageRows
  | None => settling 2 countRows
  end.

(** A row of a count query whose count is [c]. *)
Definition countRow (c : Z) : Neo4jRecord :=
  <["totalCount" := int c]> {[ "count" := int c ]}.

(** A search index holding [docs]: a lookup finds the documents whose
    [number] is the string asked for. *)
Definition indexOf (docs : list obj) (request : SearchRequest) : promise SearchResponse :=
  settling 1 (Fulfilled {| hits :=
    Build_SearchHit <$>
      List.filter (λ d, match member d "number", match_number request with
                        | JStr n, JStr m => String.eqb n m
                        | _, _ => false
                        end) docs |}).

(** The error of a store that cannot be reached. *)
Definition refused (address : string) : Error :=
  {| error_name := "Error"; message := "connect ECONNREFUSED " +:+ address |}.

Definition unreachable {A} (address : string) : promise A :=
  settling 0 (Rejected (refused address)).

(** Lower-casing of the ASCII letters. *)
Definition lower_ascii (c : ascii) : ascii :=
  let n := nat_of_ascii c in
  if (65 <=? n) && (n <=? 90) then ascii_of_nat (n + 32) else c.

Fixpoint asciiLower (s : string) : string :=
  match s with
  | EmptyString => EmptyString
  | String c s' => String (lower_ascii c) (asciiLower s')
  end.

Definition article (id number : string) : Node :=
  {| elementId := id; labels := ["Article"];
     properties := <["text" := PStr ("Text of article " +:+ number)]> {[ "number" := PStr number ]} |}.

Definition name_ (id short : string) : Node :=
  {| elementId := id; labels := ["Name"]; properties := {[ "short" := PStr short ]} |}.

Definition reference (id context : string) : Node :=
  {| elementId := id; labels := ["Reference"];
     properties := <["text" := PStr "see there"]> {[ "context" := PStr context ]} |}.

Definition case_ (id number : string) : Node :=
  {| elementId := id; labels := ["Case"];
     properties := <["year" := PStr "1999"]> {[ "number" := PStr number ]} |}.

Definition rel (s ty d : string) : Relationship :=
  {| rel_start := s; rel_type := ty; rel_end := d |}.

(** Articles 1 and 2 cite article 5; article 1 is named Alpha; one case
    refers to article 5 and one reference mentions it. *)
Definition cited : Graph :=
  {| nodes := [article "n1" "1"; article "n2" "2"; article "n5" "5";
               name_ "m1" "Alpha"; reference "r1" "as held in article 5";
               case_ "c1" "C-1"];
     relationships := [rel "n2" "CITES" "n5"; rel "n1" "CITES" "n5";
                       rel "n1" "IS_NAMED" "m1"; rel "r1" "MENTIONS" "n5";
                       rel "c1" "REFERS_TO" "n5"] |}.

(** Article 1 cites article 5 in two places. *)
Definition citedTwice : Graph :=
  {| nodes := [article "n1" "1"; article "n5" "5"];
     relationships := [rel "n1" "CITES" "n5"; rel "n1" "CITES" "n5"] |}.

(** One reference mentions article 5 in two places. *)
Definition mentionedTwice : Graph :=
  {| nodes := [reference "r1" "as held in article 5"; article "n5" "5"];
     relationships := [rel "r1" "MENTIONS" "n5"; rel "r1" "MENTIONS" "n5"] |}.

Definition doc1 : obj := <["name" := JStr "Alpha"]> {[ "number" := JStr "1" ]}.
Definition doc2 : obj := {[ "number" := JStr "2" ]}.

Definition onGraph (g : Graph) (docs : list obj) : Services :=
  {| runQuery := graphStore asciiLower g; search := indexOf docs |}.

Definition firstPage (id : string) (term : option string) : ArticlesCitationsFilterDto :=
  {| articleId := id; searchTerm := term; skip := 0; limit := 10 |}.

(** A document whose name is the empty string. *)
Definition doc3 : obj := <["name" := JStr ""]> {[ "number" := JStr "3" ]}.


(** A store whose count is [c], with an empty page and an empty index. *)
Definition counting (c : Z) : Services :=
  {| runQuery := answering (Fulfilled [countRow c]) (Fulfilled []); search := indexOf [] |}.

(** A store that answers every query with no rows. *)
Definition rowless : Services :=
  {| runQuery := answering (Fulfilled []) (Fulfilled []); search := indexOf [] |}.

(** A store that cannot be reached for the count query. *)
Definition countless : Services :=
  {| runQuery := answering (Rejected (refused "bolt://graph:7687")) (Fulfilled []);
     search := indexOf [] |}.

(** The row of article 2, which has no name. *)
Definition unnamedRow : row := <["a" := CNode (article "n2" "2")]> (<["n" := CNull]> ∅).

End Examples.

(** ** Count-only plans, listings and further stores *)

Module Listings.

Import Neo4j Elasticsearch ArticlesCitationsService Cypher Relations Examples.

(** The label a count-only text repeats on the subject it has bound. *)
Definition subjectLabel (r : relation) : string :=
  match r with
  | CitedBy | Citing => "Article"
  | CasesCiting => "Case"
  | References => "Reference"
  end.

(** [OPTIONAL MATCH (subject:Label)-[:IS_NAMED]->(n:Name)] *)
Definition labelled (r : relation) : option path_pattern :=
  match r with
  | References => None
  | _ =>
      Some {| pp_left := plain (subject r) (subjectLabel r);
              pp_type := "IS_NAMED"; pp_right := plain "n" "Name" |}
  end.

(** The plan a count-only text stands for ([parse_countOnlyQuery]). *)
Definition countOnlyPlan (r : relation) : query :=
  {| q_match := traversal r; q_optional := labelled r; q_with := None;
     q_where := None;
     q_distinct := false;
     q_return := [named (ECount (EVar (subject r))) "count"];
     q_order_by := None; q_skip_limit := None |}.

(** [{ articleId }] *)
Definition countOnlyParams (id : string) : obj := <["articleId" := JStr id]> ∅.

Definition countStartMessage (r : relation) : string :=
  match r with
  | CitedBy => "Fetching count of articles cited by article: "
  | Citing => "Fetching count of articles citing article: "
  | CasesCiting => "Fetching count of cases citing article: "
  | References => "Fetching count of references with article: "
  end.

Definition countErrorMessage (r : relation) : string :=
  match r with
  | CitedBy => "Error fetching count of articles cited by article "
  | Citing => "Error fetching count of articles citing article "
  | CasesCiting => "Error fetching count of cases citing article "
  | References => "Error fetching count of references with article "
  end.

(** The request a lookup sends for a normalized row. *)
Definition request (idx : string) (data : obj) : SearchRequest :=
  {| index := idx; match_number := member data "number" |}.

(** [result.hits.hits.map((hit) => hit._source)] *)
Definition sources (result : SearchResponse) : list obj := _source <$> hits result.

(** The page query before SKIP and LIMIT. *)
Definition listing (toLower : string → string) (g : Graph) (r : relation)
    (filter : ArticlesCitationsFilterDto) : outcome (list result_row) :=
  rows ← matched toLower g (pageParams filter) (pagePlan r (searchTerm filter));
  rs ← returned toLower (pageParams filter) (pagePlan r (searchTerm filter)) rows;
  ordered toLower (pageParams filter) (pagePlan r (searchTerm filter)) rs.

(** No two rows of [rs] are equal as DISTINCT sees them. *)
Definition distinct_rows (rs : list result_row) : Prop :=
  ∀ i j a b, i ≠ j → rs !! i = Some a → rs !! j = Some b → result_row_eqb a b = false.

(** The [citing_cases] of the subject a result row leads with. *)
Definition citing_cases (row : result_row) : cval :=
  match row with
  | (_, CNode x) :: _ => property x "citing_cases"
  | _ => CNull
  end.

(** No row of [rs] is followed by one of greater key. *)
Definition descending (rs : list result_row) : Prop :=
  ∀ i a b, rs !! i = Some a → rs !! S i = Some b →
    cval_ltb (citing_cases a) (citing_cases b) = false.

(** The same filter without its search term. *)
Definition without_term (filter : ArticlesCitationsFilterDto) : ArticlesCitationsFilterDto :=
  {| articleId := articleId filter; searchTerm := None;
     skip := skip filter; limit := limit filter |}.

(** A row of a count query as a driver that hands integers over as plain
    numbers gives it. *)
Definition plainCountRow (z : Z) : Neo4jRecord :=
  <["totalCount" := JNum z]> {[ "count" := JNum z ]}.

(** What the cited-by operation for article 5 gets on the graph [cited]
    and the index of [doc2] and [doc1]: the page rows, the rows normalized
    and the responses to the lookups. *)
Definition citedPage : list Neo4jRecord :=
  record_of <$> [ [("a", CNode (article "n2" "2")); ("name", CNull);
                   ("elementId", CStr "n2")];
                  [("a", CNode (article "n1" "1")); ("name", CStr "Alpha");
                   ("elementId", CStr "n1")] ].

Definition citedRows : list obj :=
  [ <["name" := JNull]> (<["id" := JStr "n2"]> (pval_js <$> properties (article "n2" "2")));
    <["name" := JStr "Alpha"]>
      (<["id" := JStr "n1"]> (pval_js <$> properties (article "n1" "1"))) ].

Definition citedResponses : list SearchResponse :=
  [ {| hits := [ {| _source := doc2 |} ] |}; {| hits := [ {| _source := doc1 |} ] |} ].

(** A row with the one column of a page operation's count query. *)
Definition totalOnlyRow (c : Z) : Neo4jRecord := {[ "totalCount" := int c ]}.

(** A store whose count rows are [rows], with an empty page and index. *)
Definition countingRows (rows : list Neo4jRecord) : Services :=
  {| runQuery := answering (Fulfilled rows) (Fulfilled []); search := indexOf [] |}.

(** A store that cannot be reached at all. *)
Definition down : Services :=
  {| runQuery := λ _ _, unreachable "bolt://graph:7687";
     search := λ _, unreachable "http://search:9200" |}.

(** A search index that cannot be reached. *)
Definition searchDown (request : SearchRequest) : promise SearchResponse :=
  unreachable "http://search:9200".

(** The same services, each call settling [delay] later. *)
Definition delayed (delay : nat) (svc : Services) : Services :=
  {| runQuery := λ text params,
       {| settles_at := settles_at (runQuery svc text params) + delay;
          settled := settled (runQuery svc text params) |};
     search := λ request,
       {| settles_at := settles_at (search svc request) + delay;
          settled := settled (search svc request) |} |}.

(** The same services, each query settling at [query_at] of its text and
    each lookup at [lookup_at] of its request. *)
Definition retimed (query_at : string → nat) (lookup_at : SearchRequest → nat)
    (svc : Services) : Services :=
  {| runQuery := λ text params,
       {| settles_at := query_at text; settled := settled (runQuery svc text params) |};
     search := λ request,
       {| settles_at := lookup_at request; settled := settled (search svc request) |} |}.

(** The page query completes before the count query. *)
Definition pageFirst (text : string) : nat :=
  if contains text "totalCount" then 9 else 3.

(** The lookup for article 2 completes after every other. *)
Definition lastFirst (request : SearchRequest) : nat :=
  match match_number request with
  | JStr "2" => 8
  | _ => 1
  end.

(** Articles with a number of citing cases; 1, 2 and 3 cite article 5. *)
Definition ranked (id number : string) (cases : Z) : Node :=
  {| elementId := id; labels := ["Article"];
     properties := <["citing_cases" := PInt cases]> {[ "number" := PStr number ]} |}.

Definition citedRanked : Graph :=
  {| nodes := [ranked "n1" "1" 4; ranked "n2" "2" 9; ranked "n3" "3" 7; ranked "n5" "5" 0];
     relationships := [rel "n1" "CITES" "n5"; rel "n2" "CITES" "n5"; rel "n3" "CITES" "n5";
                       rel "n2" "CITES" "n5"] |}.

(** A page row of the cited-by query whose node has a property [id]. *)
Definition clashingRecord : Neo4jRecord :=
  record_of [("a", CNode {| elementId := "n1"; labels := ["Article"];
                            properties := <["id" := PStr "legacy-17"]>
                                            {[ "number" := PStr "1" ]} |});
             ("name", CStr "Alpha"); ("elementId", CStr "n1")].

Definition window (id : string) (term : option string) (skip' limit' : nat)
  : ArticlesCitationsFilterDto :=
  {| articleId := id; searchTerm := term; skip := skip'; limit := limit' |}.

(** Rows that DISTINCT tells apart. *)
Definition apart (a b : result_row) : Prop := result_row_eqb a b = false.

(** Keyed rows of which none is followed by one of greater key. *)
Fixpoint descending_keys {A} (l : list (cval * A)) : Prop :=
  match l with
  | x :: l' =>
      match l' with
      | y :: _ => cval_ltb x.1 y.1 = false
      | [] => True
      end ∧ descending_keys l'
  | [] => True
  end.

End Listings.

(** * Properties *)

Import Neo4j Elasticsearch ArticlesCitationsService Cypher Relations Examples.

(** Each page operation is the common body at its relation. *)
Lemma pageOperation_unfold (r : relation) svc filter :
  pageOperation r svc filter = page_operation r svc filter.
Proof.
  destruct r; unfold pageOperation, page_operation, page_body;
    [unfold getCitedByArticles | unfold getArticleCitingOtherArticles
     | unfold getCasesCitingArticle | unfold getReferencesWithArticle];
    do 2 f_equal; unfold totalCount, countCall, pageCall, countQuery, pageQuery;
    destruct (await (Promise_all2 _ _)) as [[countResult pageResult]|e]; try reflexivity;
    cbn [mbind outcome_bind];
    destruct (countResult !! 0%nat) as [record|]; cbn.
  all: try (destruct (get record "totalCount") as [v|]; cbn; [|reflexivity]).
  all: try (destruct (get_prop v "low") as [low|]; cbn; [|reflexivity]).
  all: reflexivity.
Qed.

Lemma try_catch_outcome {A} (body : outcome A) msg : (try_catch body msg).2 = body.
Proof. destruct body; reflexivity. Qed.

(** What an operation hands to its caller is what its body produced: the
    handler logs and rethrows the very error it caught. *)
Lemma pageOperation_outcome (r : relation) svc filter :
  (pageOperation r svc filter).2 = page_body r svc filter.
Proof. rewrite pageOperation_unfold. apply try_catch_outcome. Qed.

Lemma countOperation_outcome (r : relation) svc articleId :
  (countOperation r svc articleId).2 = count_body r svc articleId.
Proof. destruct r; apply try_catch_outcome. Qed.

(** ** The merge step *)

Section Merge.

Variable key : string.

Lemma byHasName_pos (x y : obj) :
  (0 <? byHasName key x y)%Z = negb (hasName key x) && hasName key y.
Proof.
  unfold byHasName, hasName.
  destruct (truthy (member x key)), (truthy (member y key)); reflexivity.
Qed.

Lemma sort_insert_named (x : obj) (l : list obj) :
  hasName key x = true → sort_insert (byHasName key) x l = x :: l.
Proof.
  intros Hx. destruct l as [|y l]; [reflexivity|].
  cbn. rewrite byHasName_pos, Hx. reflexivity.
Qed.

Lemma sort_insert_unnamed (x : obj) (named rest : list obj) :
  hasName key x = false →
  Forall (λ d, hasName key d = true) named →
  Forall (λ d, hasName key d = false) rest →
  sort_insert (byHasName key) x (named ++ rest) = named ++ x :: rest.
Proof.
  intros Hx Hnamed Hrest. induction Hnamed as [|y named Hy _ IH]; cbn.
  - destruct Hrest as [|z rest Hz _]; [reflexivity|].
    cbn. rewrite byHasName_pos, Hx, Hz. reflexivity.
  - rewrite byHasName_pos, Hx, Hy. cbn. by rewrite IH.
Qed.

Lemma Forall_filter_true {A} (f : A → bool) (l : list A) :
  Forall (λ d, f d = true) (List.filter f l).
Proof.
  apply Forall_forall. intros d Hd. apply list_elem_of_In in Hd.
  by apply List.filter_In in Hd as [_ ?].
Qed.

Lemma Forall_filter_false {A} (f : A → bool) (l : list A) :
  Forall (λ d, f d = false) (List.filter (λ d, negb (f d)) l).
Proof.
  apply Forall_forall. intros d Hd. apply list_elem_of_In in Hd.
  apply List.filter_In in Hd as [_ Hd]. by apply negb_true_iff.
Qed.

(** The sorted sequence is the named documents followed by the unnamed
    ones, each group in its original order. *)
Lemma sort_byHasName (l : list obj) :
  sort (byHasName key) l
  = List.filter (hasName key) l ++ List.filter (λ d, negb (hasName key d)) l.
Proof.
  induction l as [|x l IH]; [reflexivity|].
  unfold sort in *. cbn [foldr List.filter]. rewrite IH.
  destruct (hasName key x) eqn:Hx; cbn [negb].
  - by apply sort_insert_named.
  - apply sort_insert_unnamed; [done|apply Forall_filter_true|apply Forall_filter_false].
Qed.




(** The comparator leaves a stable sort no choice: whatever puts the named
    documents first and keeps both groups in their order gives this very
    sequence. *)
Lemma stable_sort_unique (l out named rest : list obj) :
  out = named ++ rest →
  Forall (λ d, hasName key d = true) named →
  Forall (λ d, hasName key d = false) rest →
  List.filter (hasName key) out = List.filter (hasName key) l →
  List.filter (λ d, negb (hasName key d)) out = List.filter (λ d, negb (hasName key d)) l →
  out = sort (byHasName key) l.
Proof.
  intros -> Hnamed Hrest Hn Hr. rewrite sort_byHasName, <- Hn, <- Hr.
  rewrite !List.filter_app.
  assert (Hall : ∀ (f : obj → bool) (k : list obj),
            Forall (λ d, f d = true) k → List.filter f k = k).
  { intros f k Hk. induction Hk as [|d k Hd _ IH]; [reflexivity|].
    cbn. by rewrite Hd, IH. }
  assert (Hnone : ∀ (f : obj → bool) (k : list obj),
            Forall (λ d, f d = false) k → List.filter f k = []).
  { intros f k Hk. induction Hk as [|d k Hd _ IH]; [reflexivity|].
    cbn. by rewrite Hd, IH. }
  rewrite (Hall _ named Hnamed), (Hnone _ rest Hrest), app_nil_r.
  rewrite (Hnone (λ d, negb (hasName key d)) named), (Hall (λ d, negb (hasName key d)) rest).
  - reflexivity.
  - eapply Forall_impl; [exact Hrest|]. intros d ->. reflexivity.
  - eapply Forall_impl; [exact Hnamed|]. intros d ->. reflexivity.
Qed.


End Merge.





(** ** The scalar count *)

Lemma to_int32_range (c : Z) : (- 2 ^ 31 ≤ to_int32 c < 2 ^ 31)%Z.
Proof. unfold to_int32. pose proof (Z.mod_pos_bound (c + 2 ^ 31) (2 ^ 32)). lia. Qed.

Lemma to_int32_congruent (c : Z) : (to_int32 c `mod` 2 ^ 32 = c `mod` 2 ^ 32)%Z.
Proof.
  unfold to_int32.
  rewrite Zminus_mod_idemp_l.
  f_equal. lia.
Qed.

Lemma to_int32_unsigned (c : Z) :
  to_int32 c = (c `mod` 2 ^ 32)%Z ↔ (c `mod` 2 ^ 32 < 2 ^ 31)%Z.
Proof.
  pose proof (to_int32_range c). pose proof (to_int32_congruent c) as Hc.
  pose proof (Z.mod_pos_bound c (2 ^ 32)).
  split.
  - intros <-. lia.
  - intros Hlt. rewrite <- Hc in Hlt |- *.
    destruct (decide (0 ≤ to_int32 c)%Z).
    + rewrite Z.mod_small; lia.
    + exfalso. revert Hlt. 
      replace (to_int32 c) with ((to_int32 c + 2 ^ 32) + (-1) * 2 ^ 32)%Z by lia.
      rewrite Z_mod_plus_full, Z.mod_small; lia.
Qed.

Lemma get_Integer_low (record : Neo4jRecord) (key : string) (lo hi : Z) :
  record !! key = Some (Integer lo hi) →
  (v ← get record key; get_prop v "low") = Fulfilled (JNum lo).
Proof. intros H. unfold get. rewrite H. reflexivity. Qed.

Lemma or_else_num (z : Z) : or_else (JNum z) (JNum 0) = JNum z.
Proof. unfold or_else. cbn. destruct (Z.eqb_spec z 0) as [->|]; reflexivity. Qed.

Lemma totalCount_Integer (record : Neo4jRecord) rest (lo hi : Z) :
  record !! "totalCount" = Some (Integer lo hi) →
  totalCount (record :: rest) = Fulfilled (JNum lo).
Proof.
  intros H. unfold totalCount.
  change ((record :: rest) !! 0) with (Some record). cbv beta iota.
  rewrite (get_Integer_low _ _ _ _ H). cbn. by rewrite or_else_num.
Qed.

Lemma totalCount_no_rows : totalCount [] = Fulfilled (JNum 0).
Proof. reflexivity. Qed.

(** Both graph calls fulfilled, and the total, when a page body returns. *)
Lemma page_body_fulfilled (r : relation) svc filter (p : Page) :
  page_body r svc filter = Fulfilled p →
  ∃ countResult pageResult rows,
    settled (countCall r svc filter) = Fulfilled countResult
    ∧ settled (pageCall r svc filter) = Fulfilled pageResult
    ∧ totalCount countResult = Fulfilled (total p)
    ∧ map_throwing (normalize r) pageResult = Fulfilled rows
    ∧ items_key p = itemsKey r
    ∧ match enrichment r with
      | Some (idx, key) =>
          ∃ found, settled (Promise_all (lookup svc idx <$> rows)) = Fulfilled found
                   ∧ items p = sort (byHasName key) (flat found)
      | None => items p = rows
      end.
Proof.
  unfold page_body, await, Promise_all2.
  destruct (settled (countCall r svc filter)) as [countResult|e1] eqn:Hc,
           (settled (pageCall r svc filter)) as [pageResult|e2] eqn:Hp;
    cbn; try done; [|destruct (_ <=? _); done].
  destruct (totalCount countResult) as [t|] eqn:Ht; cbn; [|done].
  destruct (map_throwing (normalize r) pageResult) as [rows|] eqn:Hn; cbn; [|done].
  destruct (enrichment r) as [[idx key]|].
  - destruct (settled (Promise_all _)) as [found|] eqn:Hf; cbn; [|done].
    intros [= <-]. exists countResult, pageResult, rows. cbn. eauto 10.
  - intros [= <-]. exists countResult, pageResult, rows. cbn. eauto 10.
Qed.

(** The scenario of two citing articles, one of them named: total 2, the
    named document first; and a term that matches nothing. *)
Example scenario_named_first :
  (getCitedByArticles (onGraph cited [doc2; doc1]) (firstPage "5" None)).2
  = Fulfilled {| items_key := "articles"; items := [doc1; doc2]; total := JNum 2 |}.
Proof. vm_compute. reflexivity. Qed.

Example scenario_no_match :
  (getCitedByArticles (onGraph cited [doc2; doc1]) (firstPage "5" (Some "zzz"))).2
  = Fulfilled {| items_key := "articles"; items := []; total := JNum 0 |}.
Proof. vm_compute. reflexivity. Qed.

Example scenario_term_in_name :
  (getCitedByArticles (onGraph cited [doc2; doc1]) (firstPage "5" (Some "ALPH"))).2
  = Fulfilled {| items_key := "articles"; items := [doc1]; total := JNum 1 |}.
Proof. vm_compute. reflexivity. Qed.

(** C10, as amended.  Every operation reads only the [low] word of the
    driver's integer, whatever the [high] word: a page operation returns it
    as [total], a count-only operation as its result.  For a store count
    [c] that word is the signed 32-bit reading of [c]: congruent to [c]
    modulo 2^32, between -2^31 and 2^31, and equal to [c mod 2^32] exactly
    when [c mod 2^32] is below 2^31. *)
Theorem count_is_signed_low_word (r : relation) (svc : Services)
    (filter : ArticlesCitationsFilterDto) (id : string) (c : Z)
    (record : Neo4jRecord) (rest : list Neo4jRecord) :
  (∀ p lo hi, (pageOperation r svc filter).2 = Fulfilled p →
     settled (countCall r svc filter) = Fulfilled (record :: rest) →
     record !! "totalCount" = Some (Integer lo hi) →
     total p = JNum lo)
  ∧ (∀ lo hi,
       settled (runQuery svc (countOnlyQuery r) (<["articleId" := JStr id]> ∅))
       = Fulfilled (record :: rest) →
       record !! "count" = Some (Integer lo hi) →
       (countOperation r svc id).2 = Fulfilled (JNum lo))
  ∧ int c = Integer (to_int32 c) (to_int32 (c `div` 2 ^ 32))
  ∧ (to_int32 c `mod` 2 ^ 32 = c `mod` 2 ^ 32)%Z
  ∧ (- 2 ^ 31 ≤ to_int32 c < 2 ^ 31)%Z
  ∧ (to_int32 c = (c `mod` 2 ^ 32)%Z ↔ (c `mod` 2 ^ 32 < 2 ^ 31)%Z).
Proof.
  split; [|split; [|split; [|split; [|split]]]].
  - intros p lo hi Hp Hc Hrec. rewrite pageOperation_outcome in Hp.
    apply page_body_fulfilled in Hp as (countResult & ? & ? & Hc' & _ & Ht & _).
    rewrite Hc in Hc'. injection Hc' as <-.
    rewrite (totalCount_Integer _ _ _ _ Hrec) in Ht. congruence.
  - intros lo hi Hq Hrec. rewrite countOperation_outcome. unfold count_body, await.
    rewrite Hq. cbn. apply (get_Integer_low _ _ _ _ Hrec).
  - reflexivity.
  - apply to_int32_congruent.
  - apply to_int32_range.
  - apply to_int32_unsigned.
Qed.

Lemma count_is_signed_low_word_witness :
  (∃ p, (getCitedByArticles (counting 5000000000) (firstPage "5" None)).2 = Fulfilled p
        ∧ total p = JNum 705032704)
  ∧ (getCitedByArticlesCount (counting 5000000000) "5").2 = Fulfilled (JNum 705032704).
Proof.
  destruct (count_is_signed_low_word CitedBy (counting 5000000000) (firstPage "5" None) "5"
              5000000000 (countRow 5000000000) []) as (Hpage & Hcount & _).
  split.
  - eexists. split; [vm_compute; reflexivity|].
    apply (Hpage _ 705032704%Z 1%Z); vm_compute; reflexivity.
  - apply (Hcount 705032704%Z 1%Z); vm_compute; reflexivity.
Defined.

(** Counterexample to C10 as stated: for a store count of 2^31 the total
    is -2^31, not 2^31 reduced modulo 2^32 (which is 2^31). *)
Lemma total_of_2_31_is_negative :
  ∃ p, (getCitedByArticles (counting 2147483648) (firstPage "5" None)).2 = Fulfilled p
       ∧ total p = JNum (-2147483648)
       ∧ total p ≠ JNum (2147483648 `mod` 2 ^ 32).
Proof.
  eexists. split; [vm_compute; reflexivity|].
  split; [reflexivity|]. vm_compute. discriminate.
Qed.

(** ** Returning and failing *)

Lemma map_throwing_Forall2 {A B} (f : A → outcome B) (xs : list A) (ys : list B) :
  map_throwing f xs = Fulfilled ys → Forall2 (λ y x, f x = Fulfilled y) ys xs.
Proof.
  revert ys. induction xs as [|x xs IH]; intros ys; cbn.
  - intros [= <-]. constructor.
  - destruct (f x) as [y|] eqn:Hx; cbn; [|done].
    destruct (map_throwing f xs) as [ys'|]; cbn; [|done].
    intros [= <-]. constructor; auto.
Qed.

Lemma map_throwing_length {A B} (f : A → outcome B) (xs : list A) (ys : list B) :
  map_throwing f xs = Fulfilled ys → length ys = length xs.
Proof. intros H. apply map_throwing_Forall2 in H. by eapply Forall2_length. Qed.

(** A page body returns as soon as each of its steps does. *)
Lemma page_body_returns (r : relation) svc filter countResult pageResult t rows :
  settled (countCall r svc filter) = Fulfilled countResult →
  settled (pageCall r svc filter) = Fulfilled pageResult →
  totalCount countResult = Fulfilled t →
  map_throwing (normalize r) pageResult = Fulfilled rows →
  match enrichment r with
  | Some (idx, key) =>
      ∀ found, settled (Promise_all (lookup svc idx <$> rows)) = Fulfilled found →
        page_body r svc filter
        = Fulfilled {| items_key := itemsKey r; items := sort (byHasName key) (flat found);
                       total := t |}
  | None =>
      page_body r svc filter = Fulfilled {| items_key := itemsKey r; items := rows; total := t |}
  end.
Proof.
  intros Hc Hp Ht Hn. unfold page_body, await, Promise_all2.
  rewrite Hc, Hp. cbn. rewrite Ht. cbn. rewrite Hn. cbn.
  destruct (enrichment r) as [[idx key]|]; [|reflexivity].
  intros found ->. reflexivity.
Qed.

(** ** The merge step in the operations *)






Lemma first_rejection_In {A} (ps : list (promise A)) t e :
  first_rejection ps = Some (t, e) →
  ∃ p, p ∈ ps ∧ settled p = Rejected e ∧ settles_at p = t.
Proof.
  revert t e. induction ps as [|p ps IH]; intros t e; cbn; [done|].
  destruct (settled p) as [a|e0] eqn:Hp.
  - intros H. destruct (IH _ _ H) as (q & ? & ? & ?). exists q. split; [by right|done].
  - destruct (first_rejection ps) as [[t' e']|].
    + destruct (settles_at p <=? t').
      * intros [= <- <-]. exists p. split; [by left|done].
      * intros [= <- <-]. destruct (IH _ _ eq_refl) as (q & ? & ? & ?).
        exists q. split; [by right|done].
    + intros [= <- <-]. exists p. split; [by left|done].
Qed.

Lemma first_rejection_None {A} (ps : list (promise A)) :
  first_rejection ps = None → Forall (λ p, ∃ a, settled p = Fulfilled a) ps.
Proof.
  induction ps as [|p ps IH]; cbn; [constructor|].
  destruct (settled p) as [a|e0] eqn:Hp.
  - intros H. constructor; eauto.
  - destruct (first_rejection ps) as [[t' e']|]; [destruct (_ <=? _)|]; done.
Qed.

(** [Promise.all] rejects as soon as one of its promises does, with the
    error of one of them. *)
Lemma Promise_all_rejects {A} (ps : list (promise A)) (p : promise A) e :
  p ∈ ps → settled p = Rejected e →
  ∃ q e', q ∈ ps ∧ settled q = Rejected e' ∧ settled (Promise_all ps) = Rejected e'.
Proof.
  intros Hin Hp. unfold Promise_all.
  destruct (first_rejection ps) as [[t e']|] eqn:Hf.
  - destruct (first_rejection_In _ _ _ Hf) as (q & ? & ? & ?). eauto.
  - apply first_rejection_None in Hf. rewrite Forall_forall in Hf.
    destruct (Hf _ Hin) as [a Ha]. congruence.
Qed.

(** C2.  When the store answers a count query with no rows, a page
    operation takes the total to be 0 and returns whenever its page query
    and lookups do; a count-only operation reads [result[0].get] off
    [undefined] and rejects with the TypeError. *)
Theorem zero_count_rows (r : relation) (svc : Services)
    (filter : ArticlesCitationsFilterDto) (id : string) :
  (settled (countCall r svc filter) = Fulfilled [] →
   ∀ pageResult rows,
     settled (pageCall r svc filter) = Fulfilled pageResult →
     map_throwing (normalize r) pageResult = Fulfilled rows →
     (∀ idx key, enrichment r = Some (idx, key) →
        ∃ found, settled (Promise_all (lookup svc idx <$> rows)) = Fulfilled found) →
     ∃ p, (pageOperation r svc filter).2 = Fulfilled p ∧ total p = JNum 0)
  ∧ (settled (runQuery svc (countOnlyQuery r) (<["articleId" := JStr id]> ∅)) = Fulfilled [] →
     (countOperation r svc id).2
     = Rejected (TypeError "Cannot read properties of undefined (reading 'get')")).
Proof.
  split.
  - intros Hc pageResult rows Hp Hn Hfound. rewrite pageOperation_outcome.
    pose proof (page_body_returns r svc filter _ _ _ _ Hc Hp totalCount_no_rows Hn) as H.
    destruct (enrichment r) as [[idx key]|].
    + destruct (Hfound idx key eq_refl) as [found Hf].
      rewrite (H found Hf). eauto.
    + rewrite H. eauto.
  - intros Hq. rewrite countOperation_outcome. unfold count_body, await.
    rewrite Hq. reflexivity.
Qed.

Lemma zero_count_rows_witness :
  (∃ p, (getCitedByArticles rowless (firstPage "5" None)).2 = Fulfilled p ∧ total p = JNum 0)
  ∧ (getCitedByArticlesCount rowless "5").2
    = Rejected (TypeError "Cannot read properties of undefined (reading 'get')").
Proof.
  destruct (zero_count_rows CitedBy rowless (firstPage "5" None) "5") as [Hpage Hcount].
  split.
  - apply (Hpage eq_refl [] [] eq_refl eq_refl).
    intros idx key [= <- <-]. exists []. reflexivity.
  - apply Hcount. reflexivity.
Defined.

(** C5.  The total of a page operation is what the count query of the
    graph store gave and nothing else: it is the same under any other
    search index.  It need not be the number of items returned: over a
    store with graph matches, an index that lacks their documents gives
    fewer items than the total, and one that holds a document twice gives
    more. *)
Theorem total_ignores_search_index (r : relation) (svc : Services)
    (search' : SearchRequest → promise SearchResponse)
    (filter : ArticlesCitationsFilterDto) :
  (∀ p, (pageOperation r svc filter).2 = Fulfilled p →
     ∃ countResult, settled (countCall r svc filter) = Fulfilled countResult
                    ∧ totalCount countResult = Fulfilled (total p))
  ∧ (∀ p p', (pageOperation r svc filter).2 = Fulfilled p →
       (pageOperation r (with_search svc search') filter).2 = Fulfilled p' →
       total p = total p')
  ∧ (∃ svc0 filter0 p, (pageOperation r svc0 filter0).2 = Fulfilled p
       ∧ total p ≠ JNum (Z.of_nat (length (items p))))
  ∧ (∃ p, (getCitedByArticles (onGraph cited []) (firstPage "5" None)).2 = Fulfilled p
       ∧ total p = JNum 2 ∧ length (items p) = 0)
  ∧ (∃ p, (getCitedByArticles (onGraph cited [doc1; doc1; doc2]) (firstPage "5" None)).2
          = Fulfilled p
       ∧ total p = JNum 2 ∧ length (items p) = 3).
Proof.
  split; [|split; [|split; [|split]]].
  - intros p Hp. rewrite pageOperation_outcome in Hp.
    apply page_body_fulfilled in Hp as (countResult & ? & ? & Hc & _ & Ht & _). eauto.
  - intros p p' Hp Hp'. rewrite pageOperation_outcome in Hp, Hp'.
    apply page_body_fulfilled in Hp as (countResult & ? & ? & Hc & _ & Ht & _).
    apply page_body_fulfilled in Hp' as (countResult' & ? & ? & Hc' & _ & Ht' & _).
    change (countCall r (with_search svc search') filter) with (countCall r svc filter) in Hc'.
    congruence.
  - destruct r.
    + exists (onGraph cited []), (firstPage "5" None). eexists.
      split; [vm_compute; reflexivity|vm_compute; discriminate].
    + exists (onGraph cited []), (firstPage "1" None). eexists.
      split; [vm_compute; reflexivity|vm_compute; discriminate].
    + exists (onGraph cited []), (firstPage "5" None). eexists.
      split; [vm_compute; reflexivity|vm_compute; discriminate].
    + exists (onGraph cited []), (with_window (firstPage "5" None) 0 0). eexists.
      split; [vm_compute; reflexivity|vm_compute; discriminate].
  - eexists. split; [vm_compute; reflexivity|]. split; reflexivity.
  - eexists. split; [vm_compute; reflexivity|]. split; reflexivity.
Qed.

Lemma total_ignores_search_index_witness :
  ∃ p p', (getCitedByArticles (onGraph cited []) (firstPage "5" None)).2 = Fulfilled p
          ∧ (getCitedByArticles (onGraph cited [doc1; doc2]) (firstPage "5" None)).2
            = Fulfilled p'
          ∧ length (items p) ≠ length (items p') ∧ total p = total p'.
Proof.
  do 2 eexists. split; [vm_compute; reflexivity|]. split; [vm_compute; reflexivity|].
  split; [vm_compute; discriminate|].
  apply (proj1 (proj2 (total_ignores_search_index CitedBy (onGraph cited [])
                         (indexOf [doc1; doc2]) (firstPage "5" None))));
    vm_compute; reflexivity.
Defined.

(** C6.  A page operation that loses its count query, its page query or
    one of its lookups rejects, and with the very error the store or the
    index gave: the one of the failed call, or, when several calls of one
    [Promise.all] fail, the one that settled first.  Nothing is returned in
    its place, and the handler logs the error's message before rethrowing. *)
Theorem failure_propagates (r : relation) (svc : Services)
    (filter : ArticlesCitationsFilterDto) :
  (∀ e rows, settled (countCall r svc filter) = Rejected e →
     settled (pageCall r svc filter) = Fulfilled rows →
     (pageOperation r svc filter).2 = Rejected e)
  ∧ (∀ e rows, settled (pageCall r svc filter) = Rejected e →
       settled (countCall r svc filter) = Fulfilled rows →
       (pageOperation r svc filter).2 = Rejected e)
  ∧ (∀ e1 e2, settled (countCall r svc filter) = Rejected e1 →
       settled (pageCall r svc filter) = Rejected e2 →
       (pageOperation r svc filter).2
       = Rejected (if settles_at (countCall r svc filter) <=? settles_at (pageCall r svc filter)
                   then e1 else e2))
  ∧ (∀ countResult pageResult t rows idx key row e,
       settled (countCall r svc filter) = Fulfilled countResult →
       settled (pageCall r svc filter) = Fulfilled pageResult →
       totalCount countResult = Fulfilled t →
       map_throwing (normalize r) pageResult = Fulfilled rows →
       enrichment r = Some (idx, key) →
       row ∈ rows →
       settled (search svc {| index := idx; match_number := member row "number" |})
       = Rejected e →
       ∃ row' e', row' ∈ rows
         ∧ settled (search svc {| index := idx; match_number := member row' "number" |})
           = Rejected e'
         ∧ (pageOperation r svc filter).2 = Rejected e')
  ∧ (∀ e, (pageOperation r svc filter).2 = Rejected e →
       (pageOperation r svc filter).1
       = [(LOG, startMessage r +:+ articleId filter);
          (ERROR, errorMessage r +:+ articleId filter +:+ ": " +:+ message e)]).
Proof.
  split; [|split; [|split; [|split]]].
  - intros e rows Hc Hp. rewrite pageOperation_outcome.
    unfold page_body, await, Promise_all2. by rewrite Hc, Hp.
  - intros e rows Hp Hc. rewrite pageOperation_outcome.
    unfold page_body, await, Promise_all2. by rewrite Hc, Hp.
  - intros e1 e2 Hc Hp. rewrite pageOperation_outcome.
    unfold page_body, await, Promise_all2. rewrite Hc, Hp.
    by destruct (_ <=? _).
  - intros countResult pageResult t rows idx key row e Hc Hp Ht Hn He Hrow Hs.
    rewrite pageOperation_outcome.
    unfold page_body, await, Promise_all2. rewrite Hc, Hp. cbn.
    rewrite Ht. cbn. rewrite Hn. cbn. rewrite He.
    destruct (Promise_all_rejects (lookup svc idx <$> rows) (lookup svc idx row) e)
      as (q & e' & Hq & Hqe & Hall).
    { apply list_elem_of_fmap. by exists row. }
    { unfold lookup, then_. cbn. by rewrite Hs. }
    apply list_elem_of_fmap in Hq as (row' & -> & Hrow').
    exists row', e'. split; [done|]. split.
    + unfold lookup, then_ in Hqe. cbn in Hqe.
      destruct (settled (search svc {| index := idx; match_number := member row' "number" |}))
        as [|e0]; cbn in Hqe; [done|]. congruence.
    + by rewrite Hall.
  - intros e He. rewrite pageOperation_outcome in He. rewrite pageOperation_unfold.
    unfold page_operation, log_then, try_catch. rewrite He. reflexivity.
Qed.

Lemma failure_propagates_witness :
  (getCasesCitingArticle countless (firstPage "5" None)).2
  = Rejected (refused "bolt://graph:7687").
Proof.
  apply (proj1 (failure_propagates CasesCiting countless (firstPage "5" None)) _ []);
    reflexivity.
Defined.

(** A failing lookup, on the graph of the scenario. *)
Example lookup_failure_rejects :
  getCitedByArticles {| runQuery := graphStore asciiLower cited;
                        search := λ _, unreachable "http://search:9200" |}
                     (firstPage "5" None)
  = ([(LOG, "Fetching articles cited by article: 5");
      (ERROR, "Error fetching articles cited by article 5: connect ECONNREFUSED http://search:9200")],
     Rejected (refused "http://search:9200")).
Proof. vm_compute. reflexivity. Qed.

(** C7.  The references operation looks nothing up and sorts nothing: its
    items are the property maps of the [r] bindings of the page rows, row
    by row in the order of the page result, so as many as there are page
    rows; its total is the one read off the count query; and the search
    index has no part in its result.  But that count is [count(r)], not a
    count of distinct references: where one reference mentions article 5 in
    two places, the page query (skip 0, limit 10) has the one distinct row,
    the count query answers 2, and the operation returns one item with a
    total of 2. *)
Theorem references_are_page_rows :
  (∀ (svc : Services) (filter : ArticlesCitationsFilterDto) (p : Page),
     (getReferencesWithArticle svc filter).2 = Fulfilled p →
     ∃ countResult pageResult,
       settled (countCall References svc filter) = Fulfilled countResult
       ∧ settled (pageCall References svc filter) = Fulfilled pageResult
       ∧ totalCount countResult = Fulfilled (total p)
       ∧ length (items p) = length pageResult
       ∧ Forall2 (λ item record,
           ∃ node properties, record !! "r" = Some node
             ∧ get_prop node "properties" = Fulfilled properties
             ∧ item = spread properties) (items p) pageResult
       ∧ ∀ search', getReferencesWithArticle (with_search svc search') filter
                    = getReferencesWithArticle svc filter)
  ∧ execute asciiLower mentionedTwice (ReferencesWithArticle.getCountQuery None)
      (countParams (firstPage "5" None))
    = Fulfilled [<["totalCount" := int 2]> ∅]
  ∧ length <$> execute asciiLower mentionedTwice (ReferencesWithArticle.getReferencesQuery None)
                 (pageParams (firstPage "5" None))
    = Fulfilled 1
  ∧ (getReferencesWithArticle (onGraph mentionedTwice []) (firstPage "5" None)).2
    = Fulfilled {| items_key := "references";
                   items := [ <["text" := JStr "see there"]>
                                {[ "context" := JStr "as held in article 5" ]} ];
                   total := JNum 2 |}.
Proof.
  split; [|split; [|split]]; [|vm_compute; reflexivity..].
  intros svc filter p Hp. change getReferencesWithArticle with (pageOperation References) in *.
  rewrite pageOperation_outcome in Hp.
  apply page_body_fulfilled in Hp as (countResult & pageResult & rows & Hc & Hpg & Ht & Hn & _ & Hi).
  cbn in Hi. rewrite Hi. exists countResult, pageResult.
  repeat split; try done.
  - by eapply map_throwing_length.
  - apply map_throwing_Forall2 in Hn.
    eapply Forall2_impl; [exact Hn|]. intros item record. cbn. unfold get.
    destruct (record !! "r") as [node|]; cbn; [|done].
    destruct (get_prop node "properties") as [properties|] eqn:Hprops; cbn; [|done].
    intros [= <-]. eauto.
Qed.

Lemma references_are_page_rows_witness :
  ∃ p, (getReferencesWithArticle (onGraph mentionedTwice []) (firstPage "5" None)).2
       = Fulfilled p
       ∧ items p = [ <["text" := JStr "see there"]> {[ "context" := JStr "as held in article 5" ]} ]
       ∧ total p = JNum 2
       ∧ ∃ pageResult,
           settled (pageCall References (onGraph mentionedTwice []) (firstPage "5" None))
           = Fulfilled pageResult
           ∧ length (items p) = length pageResult.
Proof.
  eexists. split; [vm_compute; reflexivity|].
  split; [vm_compute; reflexivity|]. split; [reflexivity|].
  destruct (proj1 references_are_page_rows (onGraph mentionedTwice []) (firstPage "5" None)
              _ eq_refl)
    as (countResult & pageResult & _ & Hpg & _ & Hlen & _).
  exists pageResult. split; [exact Hpg|exact Hlen].
Defined.

(** ** The query texts and their plans *)

Lemma parse_countQuery (r : relation) (searchTerm : option string) :
  parse (countQuery r searchTerm) = Some (countPlan r searchTerm).
Proof. destruct r, searchTerm as [[|c s]|]; vm_compute; reflexivity. Qed.

Lemma parse_pageQuery (r : relation) (searchTerm : option string) :
  parse (pageQuery r searchTerm) = Some (pagePlan r searchTerm).
Proof. destruct r, searchTerm as [[|c s]|]; vm_compute; reflexivity. Qed.

(** ** The Cypher fragment *)

Lemma map_throwing_ext {A B} (f f' : A → outcome B) (xs : list A) :
  (∀ x, x ∈ xs → f x = f' x) → map_throwing f xs = map_throwing f' xs.
Proof.
  induction xs as [|x xs IH]; intros H; [reflexivity|]. cbn.
  rewrite (H x) by left. rewrite IH; [reflexivity|]. intros y Hy. apply H. by right.
Qed.

Lemma map_throwing_total {A B} (f : A → outcome B) (f' : A → B) (xs : list A) :
  (∀ x, x ∈ xs → f x = Fulfilled (f' x)) → map_throwing f xs = Fulfilled (f' <$> xs).
Proof.
  induction xs as [|x xs IH]; intros H; [reflexivity|]. cbn.
  rewrite (H x) by left. cbn. rewrite IH; [reflexivity|]. intros y Hy. apply H. by right.
Qed.

Lemma agree_app_l xs ys ps ps' : agree (xs ++ ys) ps ps' → agree xs ps ps'.
Proof. intros H x Hx. apply H, elem_of_app. by left. Qed.

Lemma agree_app_r xs ys ps ps' : agree (xs ++ ys) ps ps' → agree ys ps ps'.
Proof. intros H x Hx. apply H, elem_of_app. by right. Qed.

Section Agreement.

Variable toLower : string → string.
Variable g : Graph.
Variables ps ps' : obj.

Lemma eval_agree (ρ : row) (e : expr) :
  agree (expr_params e) ps ps' → eval toLower ps ρ e = eval toLower ps' ρ e.
Proof.
  induction e as [v|v key|p|e IH|e IH|e IH|e IH]; intros H; cbn; try reflexivity.
  - rewrite (H p) by (cbn; left). reflexivity.
  - by rewrite IH.
  - by rewrite IH.
  - by rewrite IH.
Qed.

Lemma holds_agree (ρ : row) (p : pred) :
  agree (pred_params p) ps ps' → holds toLower ps ρ p = holds toLower ps' ρ p.
Proof.
  induction p as [l r|p IHp q IHq]; intros H; cbn in *.
  - rewrite (eval_agree ρ l) by (by eapply agree_app_l).
    rewrite (eval_agree ρ r) by (by eapply agree_app_r). reflexivity.
  - rewrite IHp by (by eapply agree_app_l). rewrite IHq by (by eapply agree_app_r).
    reflexivity.
Qed.

Lemma resolve_agree (np : node_pattern) :
  agree (node_params np) ps ps' → resolve toLower ps np = resolve toLower ps' np.
Proof.
  unfold resolve, node_params. destruct (np_prop np) as [[key p]|]; [|reflexivity].
  intros H. rewrite (eval_agree ∅ (EParam p)); [reflexivity|exact H].
Qed.

Lemma expand_agree (pp : path_pattern) (ρ : row) :
  agree (path_params pp) ps ps' → expand toLower g ps pp ρ = expand toLower g ps' pp ρ.
Proof.
  intros H. unfold expand.
  rewrite (resolve_agree (pp_left pp)) by (by eapply agree_app_l).
  rewrite (resolve_agree (pp_right pp)) by (by eapply agree_app_r). reflexivity.
Qed.

Lemma where_agree (p : pred) (rows : list row) :
  agree (pred_params p) ps ps' → where_ toLower ps p rows = where_ toLower ps' p rows.
Proof.
  intros H. induction rows as [|ρ rows IH]; [reflexivity|]. cbn.
  by rewrite (holds_agree ρ p H), IH.
Qed.

(** The rows that reach RETURN depend on the parameters only through
    those the clauses before RETURN mention. *)
Lemma matched_agree (q : query) :
  agree (matched_params q) ps ps' → matched toLower g ps q = matched toLower g ps' q.
Proof.
  intros H. unfold matched, matched_params in *.
  rewrite (expand_agree (q_match q)) by (by eapply agree_app_l).
  apply agree_app_r in H.
  destruct (expand toLower g ps' (q_match q) ∅) as [rows|]; [|reflexivity]. cbn.
  assert (Ho : match q_optional q with
               | Some pp => flat <$> map_throwing (expand_optional toLower g ps pp) rows
               | None => mret rows
               end
             = match q_optional q with
               | Some pp => flat <$> map_throwing (expand_optional toLower g ps' pp) rows
               | None => mret rows
               end).
  { destruct (q_optional q) as [pp|]; [|reflexivity]. f_equal.
    apply map_throwing_ext. intros ρ _. unfold expand_optional.
    rewrite (expand_agree pp); [reflexivity|]. by eapply agree_app_l. }
  rewrite Ho. clear Ho.
  destruct (match q_optional q with Some _ => _ | None => _ end) as [rows1|]; [|reflexivity].
  cbn.
  destruct (match q_with q with Some _ => _ | None => _ end) as [rows2|]; [|reflexivity].
  cbn. destruct (q_where q) as [p|]; [|reflexivity].
  apply where_agree. by eapply agree_app_r.
Qed.

End Agreement.

Lemma matched_params_plan (r : relation) (searchTerm : option string) :
  Forall (λ x, x = "articleId" ∨ x = "searchTerm") (matched_params (countPlan r searchTerm)).
Proof.
  destruct r, searchTerm as [[|c s]|]; vm_compute;
    repeat first [apply Forall_nil_2 | apply Forall_cons_2; [auto|]].
Qed.

(** A count query and its page query see the same rows before RETURN. *)
Lemma matched_count_page toLower g (r : relation) (filter : ArticlesCitationsFilterDto) :
  matched toLower g (countParams filter) (countPlan r (searchTerm filter))
  = matched toLower g (pageParams filter) (pagePlan r (searchTerm filter)).
Proof.
  change (matched toLower g (pageParams filter) (pagePlan r (searchTerm filter)))
    with (matched toLower g (pageParams filter) (countPlan r (searchTerm filter))).
  apply matched_agree. intros x Hx.
  pose proof (matched_params_plan r (searchTerm filter)) as Hall.
  rewrite Forall_forall in Hall. specialize (Hall x Hx).
  unfold countParams, pageParams.
  destruct Hall as [-> | ->].
  - by rewrite !lookup_insert_eq.
  - rewrite !(lookup_insert_ne _ "articleId") by done. by rewrite !lookup_insert_eq.
Qed.

Section Rows.

Variable toLower : string → string.
Variable g : Graph.
Variable ps : obj.

Lemma extensions_elem (pp : path_pattern) wl wr (ρ ρ' : row) :
  ρ' ∈ extensions g pp wl wr ρ →
  ∃ s d, ρ' = <[np_var (pp_right pp) := CNode d]> (<[np_var (pp_left pp) := CNode s]> ρ)
         ∧ fits (pp_left pp) wl ρ s = true ∧ fits (pp_right pp) wr ρ d = true.
Proof.
  unfold extensions. rewrite list_elem_of_omap. intros (rel & _ & H).
  destruct (String.eqb _ _); [|done].
  destruct (find_node g (rel_start rel)) as [s|]; [|done].
  destruct (find_node g (rel_end rel)) as [d|]; [|done]. cbn in H.
  destruct (fits (pp_left pp) wl ρ s) eqn:Hs; [|done].
  destruct (fits (pp_right pp) wr ρ d) eqn:Hd; [|done].
  cbn in H. injection H as <-. eauto.
Qed.

Lemma fits_bound (np : node_pattern) want (ρ : row) (n m : Node) :
  fits np want ρ n = true → ρ !! np_var np = Some (CNode m) →
  elementId m = elementId n.
Proof.
  unfold fits. intros H Hm. rewrite Hm in H.
  apply andb_true_iff in H as [_ H]. by apply String.eqb_eq.
Qed.

Lemma expand_elem (pp : path_pattern) (ρ ρ' : row) rows :
  expand toLower g ps pp ρ = Fulfilled rows → ρ' ∈ rows →
  ∃ s d wl wr, ρ' = <[np_var (pp_right pp) := CNode d]> (<[np_var (pp_left pp) := CNode s]> ρ)
               ∧ fits (pp_left pp) wl ρ s = true ∧ fits (pp_right pp) wr ρ d = true.
Proof.
  unfold expand.
  destruct (resolve toLower ps (pp_left pp)) as [wl|]; [|done].
  destruct (resolve toLower ps (pp_right pp)) as [wr|]; [|done]. cbn.
  intros [= <-] H. apply extensions_elem in H as (s & d & ?). eauto 10.
Qed.

Lemma expand_optional_elem (pp : path_pattern) (ρ ρ' : row) rows :
  expand_optional toLower g ps pp ρ = Fulfilled rows → ρ' ∈ rows →
  ρ' = bind_null (np_var (pp_right pp)) (bind_null (np_var (pp_left pp)) ρ)
  ∨ ∃ s d wl wr, ρ' = <[np_var (pp_right pp) := CNode d]>
                         (<[np_var (pp_left pp) := CNode s]> ρ)
                 ∧ fits (pp_left pp) wl ρ s = true ∧ fits (pp_right pp) wr ρ d = true.
Proof.
  unfold expand_optional.
  destruct (expand toLower g ps pp ρ) as [ms|] eqn:Hms; [|done]. cbn.
  destruct ms as [|m ms].
  - intros [= <-] H. apply list_elem_of_singleton in H. by left.
  - intros [= <-] H. right. by eapply expand_elem.
Qed.

Lemma expand_optional_nonempty (pp : path_pattern) (ρ : row) rows :
  expand_optional toLower g ps pp ρ = Fulfilled rows → rows ≠ [].
Proof.
  unfold expand_optional.
  destruct (expand toLower g ps pp ρ) as [[|m ms]|]; cbn; [| |done]; by intros [= <-].
Qed.

Lemma where_sublist (p : pred) (rows kept : list row) :
  where_ toLower ps p rows = Fulfilled kept → kept `sublist_of` rows.
Proof.
  revert kept. induction rows as [|ρ rows IH]; intros kept; cbn.
  - by intros [= <-].
  - destruct (holds toLower ps ρ p) as [t|]; [|done]. cbn.
    destruct (where_ toLower ps p rows) as [kept'|]; [|done]. cbn.
    specialize (IH _ eq_refl).
    intros [= <-]. destruct t; by constructor.
Qed.

Lemma subject_not_n (r : relation) : subject r ≠ "n".
Proof. by destruct r. Qed.

(** After the MATCH the subject is bound to a node and [n] is free. *)
Lemma traversal_rows (r : relation) (ρ : row) rows :
  expand toLower g ps (traversal r) ∅ = Fulfilled rows → ρ ∈ rows →
  (∃ x, ρ !! subject r = Some (CNode x)) ∧ ρ !! "n" = None.
Proof.
  intros H Hρ. destruct (expand_elem _ _ _ _ H Hρ) as (s & d & _ & _ & -> & _).
  destruct r; cbn; simplify_map_eq; eauto.
Qed.

(** The OPTIONAL MATCH keeps the subject and binds [n]. *)
Lemma naming_rows (r : relation) (pp : path_pattern) (ρ ρ' : row) rows x :
  naming r = Some pp →
  ρ !! subject r = Some (CNode x) → ρ !! "n" = None →
  expand_optional toLower g ps pp ρ = Fulfilled rows → ρ' ∈ rows →
  (∃ x', ρ' !! subject r = Some (CNode x') ∧ elementId x' = elementId x)
  ∧ (ρ' !! "n" = Some CNull ∨ ∃ m, ρ' !! "n" = Some (CNode m)).
Proof.
  intros Hpp Hx Hn H Hρ'.
  assert (Hl : np_var (pp_left pp) = subject r)
    by (destruct r; cbn in Hpp; try done; injection Hpp as <-; reflexivity).
  assert (Hr : np_var (pp_right pp) = "n")
    by (destruct r; cbn in Hpp; try done; injection Hpp as <-; reflexivity).
  pose proof (subject_not_n r) as Hne.
  destruct (expand_optional_elem _ _ _ _ H Hρ') as [->|(s & d & wl & wr & -> & Hs & _)];
    rewrite Hl, Hr.
  - unfold bind_null. rewrite Hx. rewrite Hn.
    rewrite lookup_insert_ne by done. rewrite lookup_insert_eq. eauto.
  - rewrite lookup_insert_ne by done. rewrite !lookup_insert_eq.
    split; [|eauto]. exists s. split; [done|].
    symmetry. eapply fits_bound; [exact Hs|]. by rewrite Hl.
Qed.

Lemma with_vars_scope (r : relation) (ρ : row) x y :
  ρ !! subject r = Some x → ρ !! "n" = Some y →
  with_vars toLower ps [subject r; "n"] ρ
  = Fulfilled (<[subject r := x]> (<["n" := y]> ∅)).
Proof. intros Hx Hy. cbn. rewrite Hx. cbn. rewrite Hy. reflexivity. Qed.

End Rows.

Lemma scope_of_naming (r : relation) :
  match naming r with
  | Some _ => scope r = Some [subject r; "n"]
  | None => scope r = None
  end.
Proof. by destruct r. Qed.

Lemma subject_id_shaped (r : relation) (ρ : row) : shaped r ρ → is_Some (subject_id r ρ).
Proof. intros [[x Hx] _]. unfold subject_id. rewrite Hx. eauto. Qed.

Lemma elem_of_flat {A} (x : A) (ls : list (list A)) :
  x ∈ flat ls ↔ ∃ l, x ∈ l ∧ l ∈ ls.
Proof.
  unfold flat. rewrite list_elem_of_In, in_concat. split.
  - intros (l & Hl & Hx). exists l. by rewrite !list_elem_of_In.
  - intros (l & Hx & Hl). exists l. by rewrite <- !list_elem_of_In.
Qed.

Section Matched.

Variable toLower : string → string.
Variable g : Graph.
Variable ps : obj.

(** The rows that reach RETURN are shaped; without a search condition they
    cover every subject the MATCH found. *)
Lemma matched_inv (r : relation) (searchTerm : option string) (rows : list row) :
  matched toLower g ps (countPlan r searchTerm) = Fulfilled rows →
  ∃ rows0 rows2,
    expand toLower g ps (traversal r) ∅ = Fulfilled rows0
    ∧ rows `sublist_of` rows2
    ∧ (condition r searchTerm = None → rows = rows2)
    ∧ Forall (shaped r) rows2
    ∧ length rows0 ≤ length rows2
    ∧ ∀ ρ0, ρ0 ∈ rows0 →
        ∃ ρ, ρ ∈ rows2 ∧ subject_id r ρ = subject_id r ρ0 ∧ is_Some (subject_id r ρ0).
Proof.
  unfold matched. cbn [q_match q_optional q_with q_where countPlan].
  destruct (expand toLower g ps (traversal r) ∅) as [rows0|] eqn:H0; [|done]. cbn.
  pose proof (scope_of_naming r) as Hscope.
  destruct (naming r) as [pp|] eqn:Hnaming; rewrite Hscope; clear Hscope.
  - destruct (map_throwing (expand_optional toLower g ps pp) rows0) as [mss|] eqn:H1;
      cbn [mbind outcome_bind fmap outcome_fmap]; [|done].
    destruct (map_throwing (with_vars toLower ps [subject r; "n"]) (flat mss))
      as [rows2|] eqn:H2; cbn [mbind outcome_bind fmap outcome_fmap]; [|done].
    intros Hw. exists rows0, rows2.
    apply map_throwing_Forall2 in H1, H2.
    assert (Hopt : ∀ ρ1, ρ1 ∈ flat mss →
              ∃ ρ0 x x' y, ρ0 ∈ rows0 ∧ ρ0 !! subject r = Some (CNode x)
                ∧ ρ1 !! subject r = Some (CNode x') ∧ elementId x' = elementId x
                ∧ ρ1 !! "n" = Some y ∧ (y = CNull ∨ ∃ m, y = CNode m)).
    { intros ρ1 Hρ1. apply elem_of_flat in Hρ1 as (ms & Hρ1 & Hms).
      apply list_elem_of_lookup in Hms as [i Hi].
      destruct (Forall2_lookup_l _ _ _ _ _ H1 Hi) as (ρ0 & Hi0 & He).
      assert (Hρ0 : ρ0 ∈ rows0) by (by eapply list_elem_of_lookup_2).
      destruct (traversal_rows toLower g ps r ρ0 rows0 H0 Hρ0) as [[x Hx] Hn].
      destruct (naming_rows toLower g ps r pp ρ0 ρ1 ms x Hnaming Hx Hn He Hρ1)
        as [(x' & Hx' & Hid) Hn'].
      destruct Hn' as [Hn'|[m Hn']]; eauto 12. }
    assert (Hwith : ∀ ρ2, ρ2 ∈ rows2 →
              ∃ ρ1, ρ1 ∈ flat mss ∧ with_vars toLower ps [subject r; "n"] ρ1 = Fulfilled ρ2).
    { intros ρ2 Hρ2. apply list_elem_of_lookup in Hρ2 as [i Hi].
      destruct (Forall2_lookup_l _ _ _ _ _ H2 Hi) as (ρ1 & Hi1 & He).
      exists ρ1. split; [by eapply list_elem_of_lookup_2|done]. }
    assert (Hshape : ∀ ρ1 ρ2, ρ1 ∈ flat mss →
              with_vars toLower ps [subject r; "n"] ρ1 = Fulfilled ρ2 →
              shaped r ρ2 ∧ subject_id r ρ2 = subject_id r ρ1).
    { intros ρ1 ρ2 Hρ1 He.
      destruct (Hopt ρ1 Hρ1) as (ρ0 & x & x' & y & _ & _ & Hx' & _ & Hy & Hy').
      rewrite (with_vars_scope toLower ps r ρ1 _ _ Hx' Hy) in He. injection He as <-.
      unfold shaped, subject_id. rewrite Hx'. rewrite !lookup_insert_eq.
      rewrite lookup_insert_ne by (apply subject_not_n). rewrite lookup_insert_eq.
      split; [|done]. split; [eauto|]. intros _.
      destruct Hy' as [->|[m ->]]; eauto. }
    split; [done|]. split.
    { destruct (condition r searchTerm) as [p|]; [by eapply where_sublist|].
      by injection Hw as <-. }
    split.
    { intros Hc. rewrite Hc in Hw. by injection Hw as <-. }
    split.
    { apply Forall_forall. intros ρ2 Hρ2. destruct (Hwith ρ2 Hρ2) as (ρ1 & Hρ1 & He).
      by destruct (Hshape ρ1 ρ2 Hρ1 He). }
    split.
    { rewrite (Forall2_length _ _ _ H2). rewrite <- (Forall2_length _ _ _ H1).
      unfold flat. clear -H1 toLower ps g.
      induction H1 as [|ms ρ0 mss rows0 He _ IH]; [done|]. cbn.
      rewrite length_app. apply expand_optional_nonempty in He.
      destruct ms; [done|]. cbn. lia. }
    intros ρ0 Hρ0. apply list_elem_of_lookup in Hρ0 as [i Hi].
    destruct (Forall2_lookup_r _ _ _ _ _ H1 Hi) as (ms & Hms & He).
    pose proof (expand_optional_nonempty toLower g ps _ _ _ He) as Hne.
    destruct ms as [|ρ1 ms]; [done|].
    assert (Hρ1 : ρ1 ∈ flat mss).
    { apply elem_of_flat. exists (ρ1 :: ms).
      split; [by left|by eapply list_elem_of_lookup_2]. }
    apply list_elem_of_lookup in Hρ1 as Hj. destruct Hj as [j Hj].
    destruct (Forall2_lookup_r _ _ _ _ _ H2 Hj) as (ρ2 & Hj2 & He2).
    destruct (Hshape ρ1 ρ2 Hρ1 He2) as [_ Hid].
    assert (Hρ0 : ρ0 ∈ rows0) by (by eapply list_elem_of_lookup_2).
    destruct (traversal_rows toLower g ps r ρ0 rows0 H0 Hρ0) as [[x Hx] Hn].
    destruct (naming_rows toLower g ps r pp ρ0 ρ1 (ρ1 :: ms) x Hnaming Hx Hn He)
      as [(x' & Hx' & Hxid) _]; [by left|].
    exists ρ2. split; [by eapply list_elem_of_lookup_2|].
    rewrite Hid. unfold subject_id. rewrite Hx, Hx', Hxid. eauto.
  - cbn. intros Hw. exists rows0, rows0.
    split; [done|]. split.
    { destruct (condition r searchTerm) as [p|]; [by eapply where_sublist|].
      by injection Hw as <-. }
    split.
    { intros Hc. rewrite Hc in Hw. by injection Hw as <-. }
    split.
    { apply Forall_forall. intros ρ Hρ.
      destruct (traversal_rows toLower g ps r ρ rows0 H0 Hρ) as [Hx _].
      split; [done|]. by rewrite Hnaming. }
    split; [done|].
    intros ρ0 Hρ0. exists ρ0. split; [done|]. split; [done|].
    destruct (traversal_rows toLower g ps r ρ0 rows0 H0 Hρ0) as [[x Hx] _].
    unfold subject_id. rewrite Hx. eauto.
Qed.

End Matched.

Lemma map_throwing_defined {A B} (f : A → outcome B) (xs : list A) :
  (∀ x, x ∈ xs → ∃ y, f x = Fulfilled y) → ∃ ys, map_throwing f xs = Fulfilled ys.
Proof.
  induction xs as [|x xs IH]; intros H; [by exists []|]. cbn.
  destruct (H x) as [y ->]; [by left|]. cbn.
  destruct IH as [ys ->]; [intros z Hz; apply H; by right|]. cbn. eauto.
Qed.

Section Returned.

Variable toLower : string → string.
Variable g : Graph.
Variable ps : obj.

Lemma expand_traversal_defined (r : relation) (v : jsval) :
  ps !! "articleId" = Some v →
  ∃ rows0, expand toLower g ps (traversal r) ∅ = Fulfilled rows0.
Proof.
  intros Hid. unfold expand, resolve. destruct r; cbn; rewrite Hid; cbn; eauto.
Qed.

Lemma expand_naming_defined (r : relation) (pp : path_pattern) (ρ : row) :
  naming r = Some pp → ∃ ms, expand_optional toLower g ps pp ρ = Fulfilled ms.
Proof.
  intros Hpp. unfold expand_optional, expand, resolve.
  destruct r; cbn in Hpp; try done; injection Hpp as <-; cbn;
    destruct (extensions g _ None None ρ); cbn; eauto.
Qed.

(** Without a search condition the clauses before RETURN always give
    rows. *)
Lemma matched_defined (r : relation) (searchTerm : option string) (v : jsval) :
  ps !! "articleId" = Some v → condition r searchTerm = None →
  ∃ rows, matched toLower g ps (countPlan r searchTerm) = Fulfilled rows.
Proof.
  intros Hid Hc. unfold matched. cbn [q_match q_optional q_with q_where countPlan].
  destruct (expand_traversal_defined r v Hid) as [rows0 H0]. rewrite H0.
  cbn [mbind outcome_bind]. rewrite Hc.
  pose proof (scope_of_naming r) as Hscope.
  destruct (naming r) as [pp|] eqn:Hnaming; rewrite Hscope; clear Hscope;
    [|cbn; eauto].
  destruct (map_throwing_defined (expand_optional toLower g ps pp) rows0) as [mss H1].
  { intros ρ _. by eapply expand_naming_defined. }
  rewrite H1. cbn [mbind outcome_bind fmap outcome_fmap].
  destruct (map_throwing_defined (with_vars toLower ps [subject r; "n"]) (flat mss))
    as [rows2 H2].
  { intros ρ1 Hρ1. apply elem_of_flat in Hρ1 as (ms & Hρ1 & Hms).
    apply map_throwing_Forall2 in H1.
    apply list_elem_of_lookup in Hms as [i Hi].
    destruct (Forall2_lookup_l _ _ _ _ _ H1 Hi) as (ρ0 & Hi0 & He).
    assert (Hρ0 : ρ0 ∈ rows0) by (by eapply list_elem_of_lookup_2).
    destruct (traversal_rows toLower g ps r ρ0 rows0 H0 Hρ0) as [[x Hx] Hn].
    destruct (naming_rows toLower g ps r pp ρ0 ρ1 ms x Hnaming Hx Hn He Hρ1)
      as [(x' & Hx' & _) Hn'].
    destruct Hn' as [Hn'|[m Hn']];
      rewrite (with_vars_scope toLower ps r ρ1 _ _ Hx' Hn'); eauto. }
  rewrite H2. cbn. eauto.
Qed.

Lemma count_nodes (r : relation) (rows : list row) :
  Forall (shaped r) rows →
  length (filter (λ v, is_null v = false)
            ((λ ρ, default CNull (ρ !! subject r)) <$> rows)) = length rows.
Proof.
  induction 1 as [|ρ rows [[x Hx] _] _ IH]; [reflexivity|].
  cbn [fmap list_fmap]. rewrite Hx. cbn [default].
  rewrite filter_cons_True by done. cbn. by rewrite IH.
Qed.

(** The count: one row, the number of rows that reached RETURN, each
    counted as often as it occurs. *)
Lemma returned_count (r : relation) (searchTerm : option string) (rows : list row) :
  Forall (shaped r) rows →
  returned toLower ps (countPlan r searchTerm) rows
  = Fulfilled [[("totalCount", CInt (Z.of_nat (length rows)))]].
Proof.
  intros Hrows. unfold returned. cbn [q_return countPlan named].
  rewrite (map_throwing_total _ (λ ρ, default CNull (ρ !! subject r))).
  - cbn. by rewrite count_nodes.
  - intros ρ Hρ. rewrite Forall_forall in Hrows.
    destruct (Hrows ρ Hρ) as [[x Hx] _]. cbn. by rewrite Hx.
Qed.

Lemma distinct_step_spec (rs seen : list result_row) :
  let out := fold_left (λ seen r, if existsb (result_row_eqb r) seen then seen else seen ++ [r])
                       rs seen in
  length out ≤ length seen + length rs ∧ ∀ x, x ∈ out → x ∈ seen ∨ x ∈ rs.
Proof.
  revert seen. induction rs as [|r rs IH]; intros seen; cbn.
  - split; [lia|auto].
  - destruct (IH (if existsb (result_row_eqb r) seen then seen else seen ++ [r]))
      as [Hlen Hin].
    split.
    + etrans; [exact Hlen|]. destruct (existsb _ _); [lia|]. rewrite length_app. cbn. lia.
    + intros x Hx. destruct (Hin x Hx) as [Hs|Hr]; [|right; by right].
      destruct (existsb _ _); [by left|].
      apply elem_of_app in Hs as [?|Hs]; [by left|].
      apply list_elem_of_singleton in Hs as ->. right. by left.
Qed.

Lemma distinct_length (rs : list result_row) : length (distinct rs) ≤ length rs.
Proof. destruct (distinct_step_spec rs []) as [H _]. exact H. Qed.

Lemma distinct_elem (rs : list result_row) (x : result_row) : x ∈ distinct rs → x ∈ rs.
Proof.
  destruct (distinct_step_spec rs []) as [_ H]. intros Hx.
  destruct (H x Hx) as [Hn|]; [|done]. by apply elem_of_nil in Hn.
Qed.

(** The page projection of a shaped row leads with the subject node. *)
Lemma project_shaped (r : relation) (ρ : row) :
  shaped r ρ →
  ∃ x rest,
    map_throwing (λ i, v ← eval toLower ps ρ (ri_expr i); mret (column i, v)) (projection r)
    = Fulfilled ((subject r, CNode x) :: rest).
Proof.
  intros [[x Hx] Hn]. exists x.
  destruct r; cbn; cbn in Hx; rewrite Hx; cbn;
    try (destruct Hn as [Hn|[m Hn]]; [done| |]; cbn in Hn; rewrite Hn; cbn); eauto.
Qed.

Lemma returned_page (r : relation) (searchTerm : option string) (rows : list row) :
  Forall (shaped r) rows →
  ∃ rs, returned toLower ps (pagePlan r searchTerm) rows = Fulfilled rs
        ∧ length rs ≤ length rows
        ∧ Forall (λ row, ∃ x rest, row = (subject r, CNode x) :: rest) rs.
Proof.
  intros Hrows. unfold returned. cbn [q_return q_distinct pagePlan].
  destruct (map_throwing_defined
              (λ ρ, map_throwing (λ i, v ← eval toLower ps ρ (ri_expr i); mret (column i, v))
                                 (projection r)) rows) as [rs Hrs].
  { intros ρ Hρ. rewrite Forall_forall in Hrows.
    destruct (project_shaped r ρ (Hrows ρ Hρ)) as (x & rest & ->). eauto. }
  assert (Hlead : Forall (λ row, ∃ x rest, row = (subject r, CNode x) :: rest) rs).
  { apply map_throwing_Forall2 in Hrs. apply Forall_forall. intros row Hrow.
    apply list_elem_of_lookup in Hrow as [i Hi].
    destruct (Forall2_lookup_l _ _ _ _ _ Hrs Hi) as (ρ & Hi' & He).
    rewrite Forall_forall in Hrows.
    destruct (project_shaped r ρ) as (x & rest & Hp).
    { apply Hrows. by eapply list_elem_of_lookup_2. }
    rewrite Hp in He. injection He as <-. eauto. }
  exists (distinct rs).
  split; [|split].
  - destruct r; cbn -[distinct]; cbn -[distinct] in Hrs; rewrite Hrs; reflexivity.
  - etrans; [apply distinct_length|]. by rewrite (map_throwing_length _ _ _ Hrs).
  - apply Forall_forall. intros row Hrow. apply distinct_elem in Hrow.
    rewrite Forall_forall in Hlead. by apply Hlead.
Qed.

End Returned.

Lemma order_insert_length {A} (x : cval * A) (l : list (cval * A)) :
  length (order_insert x l) = S (length l).
Proof.
  induction l as [|y l IH]; [reflexivity|]. cbn.
  destruct (cval_ltb x.1 y.1); cbn; by rewrite ?IH.
Qed.

Lemma order_desc_length {A} (l : list (cval * A)) : length (order_desc l) = length l.
Proof.
  induction l as [|x l IH]; [reflexivity|].
  unfold order_desc in *. cbn. by rewrite order_insert_length, IH.
Qed.

Section Paged.

Variable toLower : string → string.
Variable g : Graph.

Lemma ordered_page ps (r : relation) (searchTerm : option string) (rs : list result_row) :
  Forall (λ row, ∃ x rest, row = (subject r, CNode x) :: rest) rs →
  ∃ rs', ordered toLower ps (pagePlan r searchTerm) rs = Fulfilled rs'
         ∧ length rs' = length rs.
Proof.
  intros Hlead. unfold ordered. cbn [q_order_by pagePlan].
  destruct (ordering r) as [e|] eqn:He; [|eauto].
  assert (He' : e = EProp (subject r) "citing_cases")
    by (destruct r; cbn in He; try done; injection He as <-; reflexivity).
  subst e.
  destruct (map_throwing_defined
              (λ row, k ← eval toLower ps (list_to_map row) (EProp (subject r) "citing_cases");
                      mret (k, row)) rs) as [keyed Hk].
  { intros row Hrow. rewrite Forall_forall in Hlead.
    destruct (Hlead row Hrow) as (x & rest & ->).
    cbn. rewrite lookup_insert_eq. cbn. eauto. }
  rewrite Hk. cbn. eexists. split; [reflexivity|].
  rewrite length_fmap, order_desc_length. by eapply map_throwing_length.
Qed.

Lemma sliced_page (filter : ArticlesCitationsFilterDto) (r : relation)
    (searchTerm : option string) (rs : list result_row) :
  sliced toLower (pageParams filter) (pagePlan r searchTerm) rs
  = Fulfilled (take (limit filter) (drop (skip filter) rs)).
Proof.
  unfold sliced. cbn [q_skip_limit pagePlan eval]. unfold pageParams.
  rewrite !(lookup_insert_ne _ "articleId") by done.
  rewrite !(lookup_insert_ne _ "searchTerm") by done.
  rewrite lookup_insert_eq. rewrite lookup_insert_ne by done. rewrite lookup_insert_eq.
  cbn. destruct (Z.leb_spec 0 (Z.of_nat (skip filter))); [|lia].
  destruct (Z.leb_spec 0 (Z.of_nat (limit filter))); [|lia].
  cbn. by rewrite !Nat2Z.id.
Qed.

(** Whenever the rows before RETURN are had, the count query gives their
    number and the page query no more rows than that. *)
Lemma run_count (r : relation) (filter : ArticlesCitationsFilterDto) (rows : list row) :
  matched toLower g (countParams filter) (countPlan r (searchTerm filter)) = Fulfilled rows →
  run toLower g (countParams filter) (countPlan r (searchTerm filter))
  = Fulfilled [[("totalCount", CInt (Z.of_nat (length rows)))]].
Proof.
  intros Hm. unfold run. rewrite Hm. cbn [mbind outcome_bind].
  destruct (matched_inv _ _ _ _ _ _ Hm) as (rows0 & rows2 & _ & Hsub & _ & Hshaped & _).
  rewrite returned_count; [reflexivity|].
  rewrite Forall_forall in Hshaped |- *. intros ρ Hρ. apply Hshaped.
  by eapply elem_of_sublist.
Qed.

Lemma run_page (r : relation) (filter : ArticlesCitationsFilterDto) (rows : list row) :
  matched toLower g (countParams filter) (countPlan r (searchTerm filter)) = Fulfilled rows →
  ∃ rs, run toLower g (pageParams filter) (pagePlan r (searchTerm filter)) = Fulfilled rs
        ∧ length rs ≤ length rows.
Proof.
  intros Hm. unfold run. rewrite <- matched_count_page, Hm. cbn [mbind outcome_bind].
  destruct (matched_inv _ _ _ _ _ _ Hm) as (rows0 & rows2 & _ & Hsub & _ & Hshaped & _).
  assert (Hrows : Forall (shaped r) rows).
  { rewrite Forall_forall in Hshaped |- *. intros ρ Hρ. apply Hshaped.
    by eapply elem_of_sublist. }
  destruct (returned_page toLower (pageParams filter) r (searchTerm filter) rows Hrows)
    as (rs & -> & Hlen & Hlead).
  cbn [mbind outcome_bind].
  destruct (ordered_page (pageParams filter) r (searchTerm filter) rs Hlead)
    as (rs' & -> & Hlen').
  cbn [mbind outcome_bind]. rewrite sliced_page. eexists. split; [reflexivity|].
  rewrite length_take, length_drop. lia.
Qed.

End Paged.

(** ** Count and page *)

(** The count plan and the page plan of a relation share the clauses
    before RETURN. *)
Lemma plans_share_core (r : relation) (searchTerm : option string) :
  q_match (countPlan r searchTerm) = q_match (pagePlan r searchTerm)
  ∧ q_optional (countPlan r searchTerm) = q_optional (pagePlan r searchTerm)
  ∧ q_with (countPlan r searchTerm) = q_with (pagePlan r searchTerm)
  ∧ q_where (countPlan r searchTerm) = q_where (pagePlan r searchTerm).
Proof. repeat split. Qed.

Lemma execute_count toLower g (r : relation) (filter : ArticlesCitationsFilterDto) rows :
  matched toLower g (countParams filter) (countPlan r (searchTerm filter)) = Fulfilled rows →
  execute toLower g (countQuery r (searchTerm filter)) (countParams filter)
  = Fulfilled [<["totalCount" := int (Z.of_nat (length rows))]> ∅].
Proof.
  intros Hm. unfold execute. rewrite parse_countQuery, (run_count _ _ _ _ _ Hm).
  reflexivity.
Qed.

Lemma execute_page toLower g (r : relation) (filter : ArticlesCitationsFilterDto) rows :
  matched toLower g (countParams filter) (countPlan r (searchTerm filter)) = Fulfilled rows →
  ∃ records,
    execute toLower g (pageQuery r (searchTerm filter)) (pageParams filter) = Fulfilled records
    ∧ length records ≤ length rows.
Proof.
  intros Hm. unfold execute. rewrite parse_pageQuery.
  destruct (run_page _ _ _ _ _ Hm) as (rs & -> & Hlen).
  eexists. split; [reflexivity|]. by rewrite length_fmap.
Qed.

(** C1.  The count text and the page text of a relation parse to plans
    with the same MATCH, OPTIONAL MATCH, WITH and WHERE.  But the count is
    [count(subject)], not a count of distinct subjects: where article 1
    cites article 5 in two places, the page query (skip 0, limit 10) has
    the one distinct row and the count query answers 2, which the
    operation returns as the total of its single item. *)
Theorem count_counts_duplicate_rows :
  (∀ r searchTerm,
     parse (countQuery r searchTerm) = Some (countPlan r searchTerm)
     ∧ parse (pageQuery r searchTerm) = Some (pagePlan r searchTerm)
     ∧ q_match (countPlan r searchTerm) = q_match (pagePlan r searchTerm)
     ∧ q_optional (countPlan r searchTerm) = q_optional (pagePlan r searchTerm)
     ∧ q_with (countPlan r searchTerm) = q_with (pagePlan r searchTerm)
     ∧ q_where (countPlan r searchTerm) = q_where (pagePlan r searchTerm))
  ∧ execute asciiLower citedTwice (countQuery CitedBy None) (countParams (firstPage "5" None))
    = Fulfilled [<["totalCount" := int 2]> ∅]
  ∧ length <$> execute asciiLower citedTwice (pageQuery CitedBy None)
                 (pageParams (firstPage "5" None))
    = Fulfilled 1
  ∧ (getCitedByArticles (onGraph citedTwice [doc1]) (firstPage "5" None)).2
    = Fulfilled {| items_key := "articles"; items := [doc1]; total := JNum 2 |}.
Proof.
  split; [|split; [|split]].
  - intros r searchTerm. split; [apply parse_countQuery|].
    split; [apply parse_pageQuery|]. apply plans_share_core.
  - vm_compute. reflexivity.
  - vm_compute. reflexivity.
  - vm_compute. reflexivity.
Qed.

(** ** The search condition *)

Lemma prefix_app (sub s : string) :
  String.prefix sub s = true ↔ ∃ post, s = sub +:+ post.
Proof.
  revert sub. induction s as [|c' s IH]; intros [|c sub]; cbn.
  - split; [by exists ""|done].
  - split; [done|]. intros [post Hp]. discriminate Hp.
  - split; [by eexists|done].
  - destruct (Ascii.ascii_dec c c') as [<-|Hne].
    + rewrite IH. split; intros [post Hp]; exists post.
      * by rewrite Hp.
      * by injection Hp.
    + split; [done|]. intros [post Hp]. injection Hp as -> _. done.
Qed.

(** [contains s sub] holds exactly when [sub] occurs in [s]. *)
Lemma contains_spec (s sub : string) :
  contains s sub = true ↔ ∃ pre post, s = pre +:+ sub +:+ post.
Proof.
  induction s as [|c s IH]; cbn [contains]; rewrite orb_true_iff, prefix_app.
  - split.
    + intros [[post Hp]|?]; [|done]. by exists "", post.
    + intros ([|c pre] & post & Hp); [left; by exists post|discriminate Hp].
  - rewrite IH. split.
    + intros [[post Hp]|(pre & post & Hp)]; [by exists "", post|].
      exists (String c pre), post. cbn. by rewrite Hp.
    + intros ([|c' pre] & post & Hp); [left; by exists post|].
      right. exists pre, post. cbn in Hp. by injection Hp.
Qed.

Section Condition.

Variable toLower : string → string.
Variable ps : obj.
Variable ρ : row.
Variable s : string.
Hypothesis Hterm : ps !! "searchTerm" = Some (JStr s).

Lemma holds_matches_term (f : expr) :
  textual toLower ps ρ f →
  ∃ t, holds toLower ps ρ (matches_term f) = Fulfilled t
       ∧ (t = TTrue ↔ hit toLower ps ρ s f).
Proof.
  unfold textual, hit, matches_term. cbn. rewrite Hterm. cbn.
  intros [->|[v ->]]; cbn.
  - exists TUnknown. split; [done|]. split; [done|]. by intros (v & ? & _).
  - destruct (contains (toLower v) (toLower s)) eqn:Hc.
    + exists TTrue. split; [done|]. split; [|done]. intros _. eauto.
    + exists TFalse. split; [done|]. split; [done|].
      intros (v' & [= <-] & ?). congruence.
Qed.

Lemma tri_or_true (a b : tri) : tri_or a b = TTrue ↔ a = TTrue ∨ b = TTrue.
Proof. destruct a, b; cbn; intuition congruence. Qed.

Lemma holds_any_field (fs : list expr) (p0 : pred) (t0 : tri) :
  holds toLower ps ρ p0 = Fulfilled t0 →
  (∀ f, f ∈ fs → textual toLower ps ρ f) →
  ∃ t, holds toLower ps ρ (fold_left (λ p f', POr p (matches_term f')) fs p0) = Fulfilled t
       ∧ (t = TTrue ↔ t0 = TTrue ∨ ∃ f, f ∈ fs ∧ hit toLower ps ρ s f).
Proof.
  revert p0 t0. induction fs as [|f fs IH]; intros p0 t0 H0 Hfs; cbn.
  - exists t0. split; [done|]. split; [by left|].
    intros [?|(f & Hf & _)]; [done|]. by apply elem_of_nil in Hf.
  - destruct (holds_matches_term f) as (tf & Hf & Htf); [apply Hfs; by left|].
    destruct (IH (POr p0 (matches_term f)) (tri_or t0 tf)) as (t & Ht & Hiff).
    { cbn [holds]. rewrite H0. cbn [mbind outcome_bind]. rewrite Hf. reflexivity. }
    { intros f' Hf'. apply Hfs. by right. }
    exists t. split; [done|]. rewrite Hiff, tri_or_true, Htf. split.
    + intros [[?|?]|(f' & Hf' & ?)]; [by left|right; exists f; split; [by left|done]|].
      right. exists f'. split; [by right|done].
    + intros [?|(f' & Hf' & Hhit)]; [by left; left|].
      apply elem_of_cons in Hf' as [->|Hf']; [by left; right|].
      right. eauto.
Qed.

End Condition.

Lemma condition_some (r : relation) (s : string) :
  s ≠ "" →
  ∃ f fs, searchFields r = f :: fs ∧ condition r (Some s) = Some (any_field f fs).
Proof.
  intros Hs. unfold condition. cbn.
  destruct (String.eqb_spec s "") as [|_]; [done|]. cbn.
  destruct r; cbn; eauto.
Qed.

(** C4.  For a non-empty search term the count text and the page text
    carry the same WHERE, and on a row whose declared fields are text or
    null it is decided, never an error: the row is kept exactly when some
    declared field (the name among them) is text whose folding contains
    the folded term.  A null field, such as the name of a subject without
    one, counts as no match and leaves the other fields to decide. *)
Theorem search_condition_matches_any_field (toLower : string → string)
    (r : relation) (s : string) (ps : obj) (ρ : row) :
  s ≠ "" →
  ps !! "searchTerm" = Some (JStr s) →
  (∀ f, f ∈ searchFields r → textual toLower ps ρ f) →
  ∃ p t,
    parse (countQuery r (Some s)) = Some (countPlan r (Some s))
    ∧ parse (pageQuery r (Some s)) = Some (pagePlan r (Some s))
    ∧ q_where (countPlan r (Some s)) = Some p
    ∧ q_where (pagePlan r (Some s)) = Some p
    ∧ holds toLower ps ρ p = Fulfilled t
    ∧ (t = TTrue ↔ ∃ f, f ∈ searchFields r ∧ hit toLower ps ρ s f)
    ∧ where_ toLower ps p [ρ] = Fulfilled (match t with TTrue => [ρ] | _ => [] end).
Proof.
  intros Hs Hterm Hfields.
  destruct (condition_some r s Hs) as (f & fs & Hsf & Hc).
  destruct (holds_matches_term toLower ps ρ s Hterm f) as (t0 & H0 & Ht0).
  { apply Hfields. rewrite Hsf. by left. }
  destruct (holds_any_field toLower ps ρ s Hterm fs (matches_term f) t0 H0) as (t & Ht & Hiff).
  { intros f' Hf'. apply Hfields. rewrite Hsf. by right. }
  exists (any_field f fs), t.
  split; [apply parse_countQuery|]. split; [apply parse_pageQuery|].
  split; [exact Hc|]. split; [exact Hc|]. split; [exact Ht|]. split.
  - rewrite Hiff, Ht0, Hsf. split.
    + intros [?|(f' & Hf' & ?)]; [exists f; split; [by left|done]|].
      exists f'. split; [by right|done].
    + intros (f' & Hf' & Hhit). apply elem_of_cons in Hf' as [->|Hf']; [by left|].
      right. eauto.
  - cbn [where_]. unfold any_field. rewrite Ht. reflexivity.
Qed.

Lemma search_condition_matches_any_field_witness :
  ∃ p, q_where (countPlan CitedBy (Some "ARTICLE 2")) = Some p
       ∧ where_ asciiLower (countParams (firstPage "5" (Some "ARTICLE 2"))) p [unnamedRow]
         = Fulfilled [unnamedRow].
Proof.
  destruct (search_condition_matches_any_field asciiLower CitedBy "ARTICLE 2"
              (countParams (firstPage "5" (Some "ARTICLE 2"))) unnamedRow)
    as (p & t & _ & _ & Hp & _ & Ht & Hiff & Hw).
  - discriminate.
  - reflexivity.
  - intros f Hf. cbn in Hf.
    apply elem_of_cons in Hf as [->|Hf]; [left; reflexivity|].
    apply elem_of_cons in Hf as [->|Hf]; [right; eexists; reflexivity|].
    apply elem_of_cons in Hf as [->|Hf]; [right; eexists; reflexivity|].
    by apply elem_of_nil in Hf.
  - exists p. split; [exact Hp|].
    assert (Htrue : t = TTrue).
    { apply Hiff. exists (EProp "a" "text"). split.
      - cbn. right. right. left.
      - eexists. split; reflexivity. }
    rewrite Hw, Htrue. reflexivity.
Defined.

(** ** No search term *)

Lemma condition_none (r : relation) (searchTerm : option string) :
  truthy (term searchTerm) = false → condition r searchTerm = None.
Proof. intros H. unfold condition. by rewrite H. Qed.

Lemma countParams_articleId (filter : ArticlesCitationsFilterDto) :
  countParams filter !! "articleId" = Some (JStr (articleId filter)).
Proof. unfold countParams. by rewrite lookup_insert_eq. Qed.

(** C8.  When the search term is absent or empty no search condition is
    put into either text, so the plans have no WHERE: every subject the
    MATCH finds reaches RETURN, with or without a name; the count query
    answers with one number and the page query with no more rows than
    that; and the total an operation returns does not depend on the
    window asked for. *)
Theorem no_search_term_no_condition (toLower : string → string) (g : Graph)
    (r : relation) (filter : ArticlesCitationsFilterDto) :
  truthy (term (searchTerm filter)) = false →
  ((∀ alias nameAlias,
      CitedByArticles.getSearchCondition (searchTerm filter) alias nameAlias = ""
      ∧ ArticleCitingOtherArticles.getSearchCondition (searchTerm filter) alias nameAlias = ""
      ∧ CasesCitingArticle.getSearchCondition (searchTerm filter) alias nameAlias = ""
      ∧ ReferencesWithArticle.getSearchCondition (searchTerm filter) alias = "")
   ∧ parse (countQuery r (searchTerm filter)) = Some (countPlan r (searchTerm filter))
   ∧ parse (pageQuery r (searchTerm filter)) = Some (pagePlan r (searchTerm filter))
   ∧ q_where (countPlan r (searchTerm filter)) = None
   ∧ q_where (pagePlan r (searchTerm filter)) = None)
  ∧ (∃ rows0 rows,
       expand toLower g (countParams filter) (traversal r) ∅ = Fulfilled rows0
       ∧ matched toLower g (countParams filter) (countPlan r (searchTerm filter))
         = Fulfilled rows
       ∧ matched toLower g (pageParams filter) (pagePlan r (searchTerm filter))
         = Fulfilled rows
       ∧ length rows0 ≤ length rows
       ∧ ∀ ρ0, ρ0 ∈ rows0 →
           ∃ ρ, ρ ∈ rows ∧ subject_id r ρ = subject_id r ρ0 ∧ is_Some (subject_id r ρ0))
  ∧ (∃ n records,
       execute toLower g (countQuery r (searchTerm filter)) (countParams filter)
       = Fulfilled [<["totalCount" := int (Z.of_nat n)]> ∅]
       ∧ execute toLower g (pageQuery r (searchTerm filter)) (pageParams filter)
         = Fulfilled records
       ∧ length records ≤ n)
  ∧ (∀ svc skip' limit' p p',
       (pageOperation r svc filter).2 = Fulfilled p →
       (pageOperation r svc (with_window filter skip' limit')).2 = Fulfilled p' →
       total p = total p').
Proof.
  intros Hfalsy.
  pose proof (condition_none r _ Hfalsy) as Hc.
  destruct (matched_defined toLower g (countParams filter) r (searchTerm filter) _
              (countParams_articleId filter) Hc) as [rows Hm].
  destruct (matched_inv _ _ _ _ _ _ Hm) as (rows0 & rows2 & H0 & _ & Heq & _ & Hlen & Hcover).
  specialize (Heq Hc). subst rows2.
  split; [|split; [|split]].
  - split.
    { intros alias nameAlias.
      unfold CitedByArticles.getSearchCondition, ArticleCitingOtherArticles.getSearchCondition,
        CasesCitingArticle.getSearchCondition, ReferencesWithArticle.getSearchCondition.
      by rewrite Hfalsy. }
    split; [apply parse_countQuery|]. split; [apply parse_pageQuery|]. by split.
  - exists rows0, rows. split; [done|]. split; [done|].
    split; [by rewrite <- matched_count_page|]. by split.
  - destruct (execute_page toLower g r filter rows Hm) as (records & Hp & Hle).
    exists (length rows), records. split; [by apply execute_count|]. by split.
  - intros svc skip' limit' p p' Hp Hp'. rewrite pageOperation_outcome in Hp, Hp'.
    apply page_body_fulfilled in Hp as (countResult & ? & ? & Hcount & _ & Ht & _).
    apply page_body_fulfilled in Hp' as (countResult' & ? & ? & Hcount' & _ & Ht' & _).
    change (countCall r svc (with_window filter skip' limit')) with (countCall r svc filter)
      in Hcount'.
    congruence.
Qed.

Lemma no_search_term_no_condition_witness :
  ∃ n records,
    execute asciiLower cited (CitedByArticles.getCountQuery (Some ""))
      (countParams (firstPage "5" (Some "")))
    = Fulfilled [<["totalCount" := int (Z.of_nat n)]> ∅]
    ∧ execute asciiLower cited (CitedByArticles.getArticlesQuery (Some ""))
        (pageParams (firstPage "5" (Some "")))
      = Fulfilled records
    ∧ length records ≤ n.
Proof.
  exact (proj1 (proj2 (proj2
    (no_search_term_no_condition asciiLower cited CitedBy (firstPage "5" (Some ""))
       eq_refl)))).
Defined.

Example count_only_on_scenario :
  getCitedByArticlesCount (onGraph cited []) "5"
  = ([(LOG, "Fetching count of articles cited by article: 5")], Fulfilled (JNum 2)).
Proof. vm_compute. reflexivity. Qed.

(** On the graph of the scenario: article 2 has no name and is listed. *)
Example unnamed_subject_is_listed :
  (λ records : list Neo4jRecord, (λ record : Neo4jRecord, record !! "elementId") <$> records)
    <$> execute asciiLower cited (CitedByArticles.getArticlesQuery None)
          (pageParams (firstPage "5" None))
  = Fulfilled [Some (JStr "n2"); Some (JStr "n1")].
Proof. vm_compute. reflexivity. Qed.

(** * Further properties of the service *)

Import Listings.

(** ** When a page operation returns *)

Lemma Promise_all_fulfilled {A} (ps : list (promise A)) (vs : list A) :
  settled (Promise_all ps) = Fulfilled vs ↔ Forall2 (λ p v, settled p = Fulfilled v) ps vs.
Proof.
  unfold Promise_all. split.
  - destruct (first_rejection ps) as [[t e]|] eqn:Hf; [done|]. cbn. intros [= <-].
    apply first_rejection_None in Hf.
    induction Hf as [|p ps [a Ha] _ IH]; cbn; [constructor|].
    rewrite Ha. by constructor.
  - intros H.
    assert (Hnone : first_rejection ps = None ∧ fulfilled_values ps = vs).
    { induction H as [|p v ps vs Hp _ [IH1 IH2]]; [done|]. cbn. by rewrite Hp, IH1, IH2. }
    destruct Hnone as [-> <-]. reflexivity.
Qed.

Lemma lookups_fulfilled (svc : Services) (idx : string) (rows : list obj) (found : list (list obj)) :
  settled (Promise_all (lookup svc idx <$> rows)) = Fulfilled found ↔
  ∃ responses,
    Forall2 (λ data response, settled (search svc (request idx data)) = Fulfilled response)
            rows responses
    ∧ found = sources <$> responses.
Proof.
  rewrite Promise_all_fulfilled. split.
  - revert found. induction rows as [|data rows IH]; intros found H.
    + apply Forall2_nil_inv_l in H as ->. exists []. split; [constructor|done].
    + rewrite fmap_cons in H. apply Forall2_cons_inv_l in H as (v & found' & Hv & H & ->).
      destruct (IH _ H) as (responses & Hall & ->).
      unfold lookup, then_ in Hv. cbn in Hv.
      destruct (settled (search svc {| index := idx; match_number := member data "number" |}))
        as [response|] eqn:Hs; cbn in Hv; [|done].
      injection Hv as <-. exists (response :: responses). split; [by constructor|done].
  - intros (responses & Hall & ->).
    induction Hall as [|data response rows responses Hs _ IH]; cbn; [constructor|].
    constructor; [|exact IH]. unfold lookup, then_, request in *. cbn. by rewrite Hs.
Qed.

(** X1.  An operation that enriches its rows returns exactly when its count
    query and its page query are answered, the count can be read, every row
    can be normalized and every lookup, one per row and keyed by the row's
    number, is answered; what it returns is then the sources of all the
    hits, row after row, sorted by name presence, with the count read. *)
Theorem enriched_page_returns_iff (r : relation) (svc : Services)
    (filter : ArticlesCitationsFilterDto) (idx key : string) (p : Page) :
  enrichment r = Some (idx, key) →
  (pageOperation r svc filter).2 = Fulfilled p ↔
  ∃ countResult pageResult rows responses t,
    settled (countCall r svc filter) = Fulfilled countResult
    ∧ settled (pageCall r svc filter) = Fulfilled pageResult
    ∧ totalCount countResult = Fulfilled t
    ∧ map_throwing (normalize r) pageResult = Fulfilled rows
    ∧ Forall2 (λ data response, settled (search svc (request idx data)) = Fulfilled response)
              rows responses
    ∧ p = {| items_key := itemsKey r;
             items := sort (byHasName key) (flat (sources <$> responses));
             total := t |}.
Proof.
  intros He. rewrite pageOperation_outcome. split.
  - intros Hp.
    destruct (page_body_fulfilled r svc filter p Hp)
      as (countResult & pageResult & rows & Hc & Hpg & Ht & Hn & Hk & Hi).
    rewrite He in Hi. destruct Hi as (found & Hf & Hitems).
    apply lookups_fulfilled in Hf as (responses & Hall & ->).
    exists countResult, pageResult, rows, responses, (total p).
    repeat (split; [done|]). destruct p as [k i t]. cbn in *. by subst.
  - intros (countResult & pageResult & rows & responses & t & Hc & Hpg & Ht & Hn & Hall & ->).
    pose proof (page_body_returns r svc filter _ _ _ _ Hc Hpg Ht Hn) as H.
    rewrite He in H. apply H. apply lookups_fulfilled. eauto.
Qed.

Lemma enriched_page_returns_iff_witness :
  (getCitedByArticles (onGraph cited [doc2; doc1]) (firstPage "5" None)).2
  = Fulfilled {| items_key := "articles"; items := [doc1; doc2]; total := JNum 2 |}.
Proof.
  apply (proj2 (enriched_page_returns_iff CitedBy (onGraph cited [doc2; doc1])
                  (firstPage "5" None) "articles" "name" _ eq_refl)).
  exists [totalOnlyRow 2], citedPage, citedRows, citedResponses, (JNum 2).
  split; [vm_compute; reflexivity|]. split; [vm_compute; reflexivity|].
  split; [vm_compute; reflexivity|]. split; [vm_compute; reflexivity|].
  split; [|vm_compute; reflexivity].
  repeat first [apply Forall2_nil_2 | apply Forall2_cons_2; [vm_compute; reflexivity|]].
Defined.

(** X2.  When the page query gives no rows no lookup is sent: whatever the
    search index would do, were it even down, the operation returns no
    items with the count read, and logs only its start. *)
Theorem empty_page_sends_no_lookup (r : relation) (svc : Services)
    (search' : SearchRequest → promise SearchResponse)
    (filter : ArticlesCitationsFilterDto) (countResult : list Neo4jRecord) (t : jsval) :
  settled (countCall r svc filter) = Fulfilled countResult →
  settled (pageCall r svc filter) = Fulfilled [] →
  totalCount countResult = Fulfilled t →
  pageOperation r (with_search svc search') filter
  = ([(LOG, startMessage r +:+ articleId filter)],
     Fulfilled {| items_key := itemsKey r; items := []; total := t |}).
Proof.
  intros Hc Hp Ht. rewrite pageOperation_unfold.
  unfold page_operation, page_body, await, Promise_all2.
  change (countCall r (with_search svc search') filter) with (countCall r svc filter).
  change (pageCall r (with_search svc search') filter) with (pageCall r svc filter).
  rewrite Hc, Hp. cbn. rewrite Ht. cbn.
  destruct (enrichment r) as [[idx key]|]; reflexivity.
Qed.

Lemma empty_page_sends_no_lookup_witness :
  getCasesCitingArticle (with_search (counting 3) searchDown) (firstPage "5" None)
  = ([(LOG, "Fetching cases citing article: 5")],
     Fulfilled {| items_key := "cases"; items := []; total := JNum 3 |}).
Proof.
  apply (empty_page_sends_no_lookup CasesCiting (counting 3) searchDown (firstPage "5" None)
           [countRow 3] (JNum 3)); reflexivity.
Defined.

(** ** The count-only operations *)

Lemma countOperation_unfold (r : relation) svc id :
  countOperation r svc id
  = log_then (countStartMessage r +:+ id)
      (try_catch (count_body r svc id)
         (λ error, countErrorMessage r +:+ id +:+ ": " +:+ message error)).
Proof. destruct r; reflexivity. Qed.

(** X3.  A count-only operation reads the [low] of the [count] of the first
    row and of no other.  It fails with the store's own error when the
    query fails, with the error the driver's [get] throws when the first
    row has no [count] column, and with a TypeError when the count is null;
    each failure is logged with the article id and the error's message and
    rethrown, and a success logs only the start. *)
Theorem count_only_outcomes (r : relation) (svc : Services) (id : string) :
  (∀ e, settled (runQuery svc (countOnlyQuery r) (countOnlyParams id)) = Rejected e →
     countOperation r svc id
     = ([(LOG, countStartMessage r +:+ id);
         (ERROR, countErrorMessage r +:+ id +:+ ": " +:+ message e)], Rejected e))
  ∧ (∀ record rest,
       settled (runQuery svc (countOnlyQuery r) (countOnlyParams id))
       = Fulfilled (record :: rest) →
       record !! "count" = None →
       ∃ e, get record "count" = Rejected e
            ∧ error_name e = "Neo4jError"
            ∧ countOperation r svc id
              = ([(LOG, countStartMessage r +:+ id);
                  (ERROR, countErrorMessage r +:+ id +:+ ": " +:+ message e)],
                 Rejected e))
  ∧ (∀ record rest,
       settled (runQuery svc (countOnlyQuery r) (countOnlyParams id))
       = Fulfilled (record :: rest) →
       record !! "count" = Some JNull →
       (countOperation r svc id).2
       = Rejected (TypeError "Cannot read properties of null (reading 'low')"))
  ∧ (∀ record rest v low,
       settled (runQuery svc (countOnlyQuery r) (countOnlyParams id))
       = Fulfilled (record :: rest) →
       record !! "count" = Some v →
       get_prop v "low" = Fulfilled low →
       countOperation r svc id = ([(LOG, countStartMessage r +:+ id)], Fulfilled low)).
Proof.
  rewrite countOperation_unfold. unfold count_body, await, countOnlyParams.
  split; [|split; [|split]].
  - intros e ->. reflexivity.
  - intros record rest -> Hr. exists (Neo4jError (noField record "count")).
    cbn. unfold get. rewrite Hr. done.
  - intros record rest -> Hr. cbn. unfold get. rewrite Hr. reflexivity.
  - intros record rest v low -> Hr Hlow. cbn. unfold get. rewrite Hr. cbn.
    rewrite Hlow. reflexivity.
Qed.

Lemma count_only_outcomes_witness :
  getReferencesWithArticleCount down "5"
  = ([(LOG, "Fetching count of references with article: 5");
      (ERROR, "Error fetching count of references with article 5: connect ECONNREFUSED bolt://graph:7687")],
     Rejected (refused "bolt://graph:7687"))
  ∧ getCasesCitingArticleCount (countingRows [countRow 4; countRow 9]) "5"
    = ([(LOG, "Fetching count of cases citing article: 5")], Fulfilled (JNum 4))
  ∧ getCitedByArticlesCount (countingRows [totalOnlyRow 4]) "5"
    = ([(LOG, "Fetching count of articles cited by article: 5");
        (ERROR, "Error fetching count of articles cited by article 5: This record has no field with key 'count', available keys are: [totalCount].")],
       Rejected (Neo4jError "This record has no field with key 'count', available keys are: [totalCount]."))
  ∧ (getArticleCitingOtherArticlesCount (countingRows [{[ "count" := JNull ]}]) "5").2
    = Rejected (TypeError "Cannot read properties of null (reading 'low')").
Proof.
  destruct (count_only_outcomes References down "5") as (Hdown & _).
  destruct (count_only_outcomes CasesCiting (countingRows [countRow 4; countRow 9]) "5")
    as (_ & _ & _ & Hok).
  destruct (count_only_outcomes CitedBy (countingRows [totalOnlyRow 4]) "5")
    as (_ & Hmissing & _).
  destruct (count_only_outcomes Citing (countingRows [{[ "count" := JNull ]}]) "5")
    as (_ & _ & Hnull & _).
  split; [|split; [|split]].
  - exact (Hdown (refused "bolt://graph:7687") eq_refl).
  - exact (Hok (countRow 4) [countRow 9] (int 4) (JNum 4) eq_refl eq_refl eq_refl).
  - destruct (Hmissing (totalOnlyRow 4) [] eq_refl eq_refl) as (e & He & _ & Hop).
    vm_compute in He. injection He as <-. exact Hop.
  - exact (Hnull {[ "count" := JNull ]} [] eq_refl eq_refl).
Defined.

(** X4.  The count is taken to be the driver's two-word integer.  Handed a
    plain number instead, a page operation finds no [low] on it and reports
    a total of 0 whatever the number, and a count-only operation returns
    [undefined]. *)
Theorem plain_number_count_is_lost (r : relation) (svc : Services)
    (filter : ArticlesCitationsFilterDto) (id : string) (z : Z)
    (record : Neo4jRecord) (rest : list Neo4jRecord) :
  (settled (countCall r svc filter) = Fulfilled (record :: rest) →
   record !! "totalCount" = Some (JNum z) →
   ∀ p, (pageOperation r svc filter).2 = Fulfilled p → total p = JNum 0)
  ∧ (settled (runQuery svc (countOnlyQuery r) (countOnlyParams id))
     = Fulfilled (record :: rest) →
     record !! "count" = Some (JNum z) →
     (countOperation r svc id).2 = Fulfilled JUndefined).
Proof.
  split.
  - intros Hc Hr p Hp. rewrite pageOperation_outcome in Hp.
    apply page_body_fulfilled in Hp as (countResult & ? & ? & Hc' & _ & Ht & _).
    rewrite Hc in Hc'. injection Hc' as <-.
    unfold totalCount in Ht. change ((record :: rest) !! 0) with (Some record) in Ht.
    cbv beta iota in Ht. unfold get in Ht. rewrite Hr in Ht.
    injection Ht as <-. reflexivity.
  - intros Hq Hr. rewrite countOperation_outcome. unfold count_body, await.
    unfold countOnlyParams in Hq. rewrite Hq. cbn. unfold get. rewrite Hr. reflexivity.
Qed.

Lemma plain_number_count_is_lost_witness :
  (getCitedByArticles (countingRows [plainCountRow 7]) (firstPage "5" None)).2
  = Fulfilled {| items_key := "articles"; items := []; total := JNum 0 |}
  ∧ (getCitedByArticlesCount (countingRows [plainCountRow 7]) "5").2 = Fulfilled JUndefined.
Proof.
  destruct (plain_number_count_is_lost CitedBy (countingRows [plainCountRow 7])
              (firstPage "5" None) "5" 7 (plainCountRow 7) []) as [Hpage Hcount].
  split; [|apply Hcount; reflexivity].
  specialize (Hpage eq_refl eq_refl _ eq_refl). cbn in Hpage. reflexivity.
Defined.

(** ** Rows, texts and timing *)

Lemma bind_inv {A B} (m : outcome A) (f : A → outcome B) (d : B) :
  m ≫= f = Fulfilled d → ∃ a, m = Fulfilled a ∧ f a = Fulfilled d.
Proof. destruct m as [a|]; cbn; [eauto|done]. Qed.

Lemma bind_get_inv {B} (record : Neo4jRecord) (k : string) (f : jsval → outcome B) (d : B) :
  get record k ≫= f = Fulfilled d → ∃ v, record !! k = Some v ∧ f v = Fulfilled d.
Proof. unfold get. destruct (record !! k) as [v|]; cbn; [eauto|done]. Qed.

(** X5.  A page row is turned into the node's properties with two fields
    laid over them: [id], the row's element id, and the row's name column.
    A property of the node called [id] or like the name column is hidden by
    them, every other property is kept, and the number a lookup asks for is
    the node's own.  A row without the subject column cannot be read: the
    row is refused with the error the driver's [get] throws. *)
Theorem normalized_row_fields (r : relation) (idx key : string) (record : Neo4jRecord) :
  enrichment r = Some (idx, key) →
  (∀ data, normalize r record = Fulfilled data →
     ∃ node props,
       record !! subject r = Some node
       ∧ get_prop node "properties" = Fulfilled props
       ∧ data !! "id" = record !! "elementId"
       ∧ data !! key = record !! key
       ∧ (∀ k, k ≠ "id" → k ≠ key → data !! k = spread props !! k)
       ∧ match_number (request idx data) = member (spread props) "number")
  ∧ (record !! subject r = None →
     ∃ e, get record (subject r) = Rejected e
          ∧ error_name e = "Neo4jError"
          ∧ normalize r record = Rejected e).
Proof.
  intros He. split.
  - intros data Hdata. unfold normalize in Hdata.
    destruct r; cbn in He; try done; injection He as <- <-; cbn [subject] in *.
    all: apply bind_get_inv in Hdata as (node & Hnode & Hdata).
    all: apply bind_inv in Hdata as (props & Hprops & Hdata).
    all: apply bind_get_inv in Hdata as (x & Hx & Hdata).
    all: apply bind_get_inv in Hdata as (y & Hy & Hdata).
    all: injection Hdata as <-; exists node, props.
    all: split; [done|]; split; [done|].
    all: split; [by rewrite lookup_insert_ne, lookup_insert_eq|].
    all: split; [by rewrite lookup_insert_eq|].
    all: split; [intros k Hk1 Hk2; by rewrite !lookup_insert_ne|].
    all: unfold request, member; cbn; by rewrite !lookup_insert_ne.
  - intros Hnone. exists (Neo4jError (noField record (subject r))).
    unfold normalize, get.
    destruct r; cbn in He; try done; cbn [subject] in *; rewrite Hnone; done.
Qed.

Lemma normalized_row_fields_witness :
  ∃ data, normalize CitedBy clashingRecord = Fulfilled data
          ∧ data !! "id" = Some (JStr "n1")
          ∧ data !! "name" = Some (JStr "Alpha")
          ∧ match_number (request "articles" data) = JStr "1".
Proof.
  destruct (normalize CitedBy clashingRecord) as [data|] eqn:Hdata; [|by vm_compute in Hdata].
  destruct (proj1 (normalized_row_fields CitedBy "articles" "name" clashingRecord eq_refl)
              data Hdata) as (node & props & Hnode & Hprops & Hid & Hname & _ & Hnumber).
  exists data. split; [reflexivity|]. split; [exact Hid|]. split; [exact Hname|].
  rewrite Hnumber. vm_compute in Hnode. injection Hnode as <-.
  vm_compute in Hprops. injection Hprops as <-. reflexivity.
Defined.

(** X6.  Nothing of the search term goes into a query text but whether
    there is one: any two non-empty terms give the same count text and the
    same page text, and the empty term gives the texts of no term.  The
    term itself travels as the parameter [searchTerm]. *)
Theorem search_term_only_as_parameter (r : relation) (s s' : string)
    (filter : ArticlesCitationsFilterDto) :
  s ≠ "" → s' ≠ "" →
  countQuery r (Some s) = countQuery r (Some s')
  ∧ pageQuery r (Some s) = pageQuery r (Some s')
  ∧ countQuery r (Some "") = countQuery r None
  ∧ pageQuery r (Some "") = pageQuery r None
  ∧ countParams filter !! "searchTerm" = Some (term (searchTerm filter))
  ∧ pageParams filter !! "searchTerm" = Some (term (searchTerm filter)).
Proof.
  intros Hs Hs'. destruct s as [|c s]; [done|]. destruct s' as [|c' s']; [done|].
  split; [by destruct r|]. split; [by destruct r|].
  split; [by destruct r|]. split; [by destruct r|].
  unfold countParams, pageParams.
  by rewrite !(lookup_insert_ne _ "articleId"), !lookup_insert_eq.
Qed.

Lemma search_term_only_as_parameter_witness :
  CasesCitingArticle.getCasesQuery (Some "x' OR 1=1 //")
  = CasesCitingArticle.getCasesQuery (Some "tax")
  ∧ pageParams (firstPage "5" (Some "x' OR 1=1 //")) !! "searchTerm"
    = Some (JStr "x' OR 1=1 //").
Proof.
  destruct (search_term_only_as_parameter CasesCiting "x' OR 1=1 //" "tax"
              (firstPage "5" (Some "x' OR 1=1 //"))) as (_ & Hpage & _ & _ & _ & Hparam);
    [discriminate|discriminate|].
  split; [exact Hpage|exact Hparam].
Defined.

(** X7.  What an operation returns does not depend on when its calls
    complete: over services that settle every call in the same way, at
    whatever times, an operation that returns returns the same, log and
    all. *)
Theorem result_ignores_completion_times (r : relation) (svc svc' : Services)
    (filter : ArticlesCitationsFilterDto) (p : Page) :
  (∀ text params, settled (runQuery svc' text params) = settled (runQuery svc text params)) →
  (∀ request, settled (search svc' request) = settled (search svc request)) →
  (pageOperation r svc filter).2 = Fulfilled p →
  pageOperation r svc' filter = pageOperation r svc filter.
Proof.
  intros Hq Hs Hp. rewrite !pageOperation_unfold. unfold page_operation. f_equal.
  rewrite pageOperation_outcome in Hp. rewrite Hp.
  destruct (page_body_fulfilled r svc filter p Hp)
    as (countResult & pageResult & rows & Hc & Hpg & Ht & Hn & Hk & Hi).
  assert (Hc' : settled (countCall r svc' filter) = Fulfilled countResult)
    by (unfold countCall in *; by rewrite Hq).
  assert (Hpg' : settled (pageCall r svc' filter) = Fulfilled pageResult)
    by (unfold pageCall in *; by rewrite Hq).
  pose proof (page_body_returns r svc' filter _ _ _ _ Hc' Hpg' Ht Hn) as H.
  destruct p as [k i t]. cbn in *. subst k.
  destruct (enrichment r) as [[idx key]|].
  - destruct Hi as (found & Hf & ->).
    rewrite (H found); [reflexivity|].
    apply lookups_fulfilled in Hf as (responses & Hall & ->).
    apply lookups_fulfilled. exists responses. split; [|done].
    eapply Forall2_impl; [exact Hall|]. intros data response. cbn. by rewrite Hs.
  - subst i. by rewrite H.
Qed.

Lemma result_ignores_completion_times_witness :
  getCitedByArticles (retimed pageFirst lastFirst (onGraph cited [doc2; doc1]))
    (firstPage "5" None)
  = getCitedByArticles (onGraph cited [doc2; doc1]) (firstPage "5" None)
  ∧ settles_at (pageCall CitedBy (retimed pageFirst lastFirst (onGraph cited [doc2; doc1]))
                  (firstPage "5" None))
    < settles_at (countCall CitedBy (retimed pageFirst lastFirst (onGraph cited [doc2; doc1]))
                    (firstPage "5" None))
  ∧ (λ data, settles_at (search (retimed pageFirst lastFirst (onGraph cited [doc2; doc1]))
                           (request "articles" data))) <$> citedRows
    = [8; 1]
  ∧ (λ data, settles_at (search (onGraph cited [doc2; doc1]) (request "articles" data)))
      <$> citedRows
    = [1; 1].
Proof.
  split; [|split; [vm_compute; lia|split; vm_compute; reflexivity]].
  apply (result_ignores_completion_times CitedBy (onGraph cited [doc2; doc1])
           (retimed pageFirst lastFirst (onGraph cited [doc2; doc1]))
           (firstPage "5" None)
           {| items_key := "articles"; items := [doc1; doc2]; total := JNum 2 |});
    [reflexivity|reflexivity|vm_compute; reflexivity].
Defined.

(** ** The count-only texts *)

Lemma parse_countOnlyQuery (r : relation) :
  parse (countOnlyQuery r) = Some (countOnlyPlan r).
Proof. destruct r; vm_compute; reflexivity. Qed.

Lemma find_node_stored (g : Graph) (id : string) (n : Node) :
  find_node g id = Some n → n ∈ nodes g ∧ elementId n = id.
Proof.
  unfold find_node. intros H. apply List.find_some in H as [Hin Heq].
  split; [by apply list_elem_of_In|]. by apply String.eqb_eq.
Qed.

Section CountOnly.

Variable toLower : string → string.
Variable g : Graph.
Variable ps : obj.

(** The nodes a MATCH binds are nodes of the store, found by their id. *)
Lemma extensions_stored (pp : path_pattern) wl wr (ρ ρ' : row) :
  ρ' ∈ extensions g pp wl wr ρ →
  ∃ s d, ρ' = <[np_var (pp_right pp) := CNode d]> (<[np_var (pp_left pp) := CNode s]> ρ)
         ∧ fits (pp_left pp) wl ρ s = true ∧ fits (pp_right pp) wr ρ d = true
         ∧ find_node g (elementId s) = Some s ∧ find_node g (elementId d) = Some d.
Proof.
  unfold extensions. rewrite list_elem_of_omap. intros (rel & _ & H).
  destruct (String.eqb _ _); [|done].
  destruct (find_node g (rel_start rel)) as [s|] eqn:Hfs; [|done].
  destruct (find_node g (rel_end rel)) as [d|] eqn:Hfd; [|done]. cbn in H.
  destruct (fits (pp_left pp) wl ρ s) eqn:Hs; [|done].
  destruct (fits (pp_right pp) wr ρ d) eqn:Hd; [|done].
  cbn in H. injection H as <-. exists s, d.
  destruct (find_node_stored _ _ _ Hfs) as [_ Hs1].
  destruct (find_node_stored _ _ _ Hfd) as [_ Hd1].
  rewrite Hs1, Hd1. done.
Qed.

Lemma fits_label (np : node_pattern) want (ρ : row) (n : Node) (l : string) :
  np_label np = Some l → fits np want ρ n = true → l ∈ labels n.
Proof.
  unfold fits. intros ->. rewrite !andb_true_iff. intros [[H _] _].
  by apply bool_decide_eq_true in H.
Qed.

(** After the MATCH the subject is a stored node that carries the label
    the count-only text repeats. *)
Lemma traversal_subject (r : relation) (ρ : row) rows :
  expand toLower g ps (traversal r) ∅ = Fulfilled rows → ρ ∈ rows →
  ∃ x, ρ !! subject r = Some (CNode x) ∧ ρ !! "n" = None
       ∧ find_node g (elementId x) = Some x ∧ subjectLabel r ∈ labels x.
Proof.
  unfold expand.
  destruct (resolve toLower ps (pp_left (traversal r))) as [wl|]; [|done].
  destruct (resolve toLower ps (pp_right (traversal r))) as [wr|]; [|done]. cbn.
  intros [= <-] H. apply extensions_stored in H as (s & d & -> & Hs & Hd & Hss & Hsd).
  destruct r; cbn [traversal pp_left pp_right np_var plain numbered subject subjectLabel] in *.
  - exists s. split; [by rewrite lookup_insert_ne, lookup_insert_eq|].
    split; [by rewrite !lookup_insert_ne|]. split; [done|].
    eapply fits_label; [|exact Hs]; reflexivity.
  - exists d. split; [by rewrite lookup_insert_eq|].
    split; [by rewrite !lookup_insert_ne|]. split; [done|].
    eapply fits_label; [|exact Hd]; reflexivity.
  - exists s. split; [by rewrite lookup_insert_ne, lookup_insert_eq|].
    split; [by rewrite !lookup_insert_ne|]. split; [done|].
    eapply fits_label; [|exact Hs]; reflexivity.
  - exists s. split; [by rewrite lookup_insert_ne, lookup_insert_eq|].
    split; [by rewrite !lookup_insert_ne|]. split; [done|].
    eapply fits_label; [|exact Hs]; reflexivity.
Qed.

(** On a bound subject the label of the count-only text asks nothing new. *)
Lemma labelled_extensions (r : relation) (pp pp' : path_pattern) (ρ : row) (x : Node) :
  naming r = Some pp → labelled r = Some pp' →
  ρ !! subject r = Some (CNode x) →
  find_node g (elementId x) = Some x → subjectLabel r ∈ labels x →
  extensions g pp' None None ρ = extensions g pp None None ρ.
Proof.
  intros Hpp Hpp' Hx Hstored Hlabel. unfold extensions.
  assert (Hty : pp_type pp' = pp_type pp ∧ pp_right pp' = pp_right pp
                ∧ np_var (pp_left pp') = subject r ∧ np_var (pp_left pp) = subject r
                ∧ np_label (pp_left pp') = Some (subjectLabel r)
                ∧ np_label (pp_left pp) = None).
  { destruct r; cbn in Hpp, Hpp'; try done; injection Hpp as <-; injection Hpp' as <-; done. }
  destruct Hty as (-> & -> & Hv' & Hv & Hl' & Hl).
  apply list_omap_ext, Forall_Forall2_diag, Forall_forall. intros rel _.
  destruct (String.eqb _ _); [|done].
  destruct (find_node g (rel_start rel)) as [s|] eqn:Hfs; [|done].
  destruct (find_node g (rel_end rel)) as [d|] eqn:Hfd; [|done]. cbn.
  assert (Hfits : fits (pp_left pp') None ρ s = fits (pp_left pp) None ρ s).
  { unfold fits. rewrite Hl', Hl, Hv', Hv, Hx. cbn.
    destruct (String.eqb_spec (elementId x) (elementId s)) as [Heq|]; [|by rewrite !andb_false_r].
    destruct (find_node_stored _ _ _ Hfs) as [_ Hid]. rewrite <- Hid, <- Heq, Hstored in Hfs.
    injection Hfs as <-. by rewrite bool_decide_eq_true_2. }
  rewrite Hfits, Hv', Hv. reflexivity.
Qed.

End CountOnly.

Section CountOnlyRun.

Variable toLower : string → string.
Variable g : Graph.
Variable ps : obj.

Lemma expand_labelled (r : relation) (pp pp' : path_pattern) (ρ : row) rows0 :
  naming r = Some pp → labelled r = Some pp' →
  expand toLower g ps (traversal r) ∅ = Fulfilled rows0 → ρ ∈ rows0 →
  expand_optional toLower g ps pp' ρ = expand_optional toLower g ps pp ρ.
Proof.
  intros Hpp Hpp' H0 Hρ.
  destruct (traversal_subject toLower g ps r ρ rows0 H0 Hρ) as (x & Hx & _ & Hst & Hl).
  pose proof (labelled_extensions g r pp pp' ρ x Hpp Hpp' Hx Hst Hl) as Hext.
  assert (Hv : np_var (pp_left pp') = np_var (pp_left pp)
               ∧ np_var (pp_right pp') = np_var (pp_right pp))
    by (destruct r; cbn in Hpp, Hpp'; try done; injection Hpp as <-; injection Hpp' as <-; done).
  destruct Hv as [Hvl Hvr].
  unfold expand_optional, expand, resolve.
  replace (np_prop (pp_left pp')) with (@None (string * string))
    by (destruct r; cbn in Hpp'; try done; by injection Hpp' as <-).
  replace (np_prop (pp_right pp')) with (@None (string * string))
    by (destruct r; cbn in Hpp'; try done; by injection Hpp' as <-).
  replace (np_prop (pp_left pp)) with (@None (string * string))
    by (destruct r; cbn in Hpp; try done; by injection Hpp as <-).
  replace (np_prop (pp_right pp)) with (@None (string * string))
    by (destruct r; cbn in Hpp; try done; by injection Hpp as <-).
  cbn. by rewrite Hext, Hvl, Hvr.
Qed.

Lemma labelled_of_naming (r : relation) :
  match naming r with
  | Some _ => ∃ pp', labelled r = Some pp'
  | None => labelled r = None
  end.
Proof. destruct r; cbn; eauto. Qed.

(** A count-only text sees as many rows as the count text of the page
    operation does without a search term, the subject bound in each. *)
Lemma matched_countOnly (r : relation) (v : jsval) :
  ps !! "articleId" = Some v →
  ∃ rows rows',
    matched toLower g ps (countOnlyPlan r) = Fulfilled rows
    ∧ matched toLower g ps (countPlan r None) = Fulfilled rows'
    ∧ length rows = length rows'
    ∧ Forall (λ ρ, ∃ x, ρ !! subject r = Some (CNode x)) rows.
Proof.
  intros Hid.
  destruct (matched_defined toLower g ps r None v Hid eq_refl) as [rows' Hm'].
  destruct (expand_traversal_defined toLower g ps r v Hid) as [rows0 H0].
  pose proof (scope_of_naming r) as Hscope. pose proof (labelled_of_naming r) as Hlab.
  revert Hm'. unfold matched.
  cbn [q_match q_optional q_with q_where countPlan countOnlyPlan].
  rewrite H0. cbn [mbind outcome_bind].
  change (condition r None) with (@None pred).
  destruct (naming r) as [pp|] eqn:Hnaming.
  - destruct Hlab as [pp' Hpp']. rewrite Hpp', Hscope.
    rewrite (map_throwing_ext (expand_optional toLower g ps pp')
               (expand_optional toLower g ps pp))
      by (intros ρ Hρ; by eapply expand_labelled).
    destruct (map_throwing (expand_optional toLower g ps pp) rows0) as [mss|] eqn:H1;
      cbn [mbind outcome_bind fmap outcome_fmap]; [|done].
    destruct (map_throwing (with_vars toLower ps [subject r; "n"]) (flat mss))
      as [rows2|] eqn:H2; cbn [mbind outcome_bind mret outcome_ret]; [|done].
    intros [= <-]. exists (flat mss), rows2.
    split; [done|]. split; [done|].
    split; [symmetry; by eapply map_throwing_length|].
    apply Forall_forall. intros ρ1 Hρ1. apply elem_of_flat in Hρ1 as (ms & Hρ1 & Hms).
    apply map_throwing_Forall2 in H1.
    apply list_elem_of_lookup in Hms as [i Hi].
    destruct (Forall2_lookup_l _ _ _ _ _ H1 Hi) as (ρ0 & Hi0 & He).
    assert (Hρ0 : ρ0 ∈ rows0) by (by eapply list_elem_of_lookup_2).
    destruct (traversal_rows toLower g ps r ρ0 rows0 H0 Hρ0) as [[x Hx] Hn].
    destruct (naming_rows toLower g ps r pp ρ0 ρ1 ms x Hnaming Hx Hn He Hρ1)
      as [(x' & Hx' & _) _]. eauto.
  - rewrite Hlab, Hscope. cbn [mbind outcome_bind mret outcome_ret].
    intros [= <-]. exists rows0, rows0. split; [done|]. split; [done|]. split; [done|].
    apply Forall_forall. intros ρ Hρ.
    by destruct (traversal_rows toLower g ps r ρ rows0 H0 Hρ) as [Hx _].
Qed.

Lemma returned_countOnly (r : relation) (rows : list row) :
  Forall (λ ρ, ∃ x, ρ !! subject r = Some (CNode x)) rows →
  returned toLower ps (countOnlyPlan r) rows
  = Fulfilled [[("count", CInt (Z.of_nat (length rows)))]].
Proof.
  intros Hrows.
  assert (Hlen : length (filter (λ v, is_null v = false)
                           ((λ ρ, default CNull (ρ !! subject r)) <$> rows)) = length rows).
  { induction Hrows as [|ρ rows [x Hx] _ IH]; [reflexivity|].
    cbn [fmap list_fmap]. rewrite Hx. cbn [default].
    rewrite filter_cons_True by done. cbn. by rewrite IH. }
  unfold returned. cbn [q_return countOnlyPlan named].
  rewrite (map_throwing_total _ (λ ρ, default CNull (ρ !! subject r))).
  - cbn. by rewrite Hlen.
  - intros ρ Hρ. rewrite Forall_forall in Hrows.
    destruct (Hrows ρ Hρ) as [x Hx]. cbn. by rewrite Hx.
Qed.

End CountOnlyRun.

Lemma execute_countOnly toLower g (r : relation) (id : string) :
  ∃ rows' : list row,
    matched toLower g (countOnlyParams id) (countPlan r None) = Fulfilled rows'
    ∧ execute toLower g (countOnlyQuery r) (countOnlyParams id)
      = Fulfilled [<["count" := int (Z.of_nat (length rows'))]> ∅].
Proof.
  destruct (matched_countOnly toLower g (countOnlyParams id) r (JStr id))
    as (rows & rows' & Hm & Hm' & Hlen & Hb).
  { unfold countOnlyParams. by rewrite lookup_insert_eq. }
  exists rows'. split; [done|].
  unfold execute, run. rewrite parse_countOnlyQuery, Hm. cbn [mbind outcome_bind].
  rewrite (returned_countOnly toLower _ r rows Hb), Hlen. reflexivity.
Qed.

Lemma matched_params_unfiltered (r : relation) :
  Forall (λ x, x = "articleId") (matched_params (countPlan r None)).
Proof.
  destruct r; vm_compute; repeat first [apply Forall_nil_2 | apply Forall_cons_2; [done|]].
Qed.

Lemma matched_unfiltered_params toLower g (r : relation) (ps ps' : obj) :
  ps !! "articleId" = ps' !! "articleId" →
  matched toLower g ps (countPlan r None) = matched toLower g ps' (countPlan r None).
Proof.
  intros H. apply matched_agree. intros x Hx.
  pose proof (matched_params_unfiltered r) as Hall. rewrite Forall_forall in Hall.
  by rewrite (Hall x Hx).
Qed.

(** X8.  Over a graph store, the count-only operation of a relation gives
    the number the page operation of the relation gives as its total when
    it is asked without a search term, whatever the window: the label the
    count-only text repeats on the bound subject and the WITH it leaves out
    change nothing. *)
Theorem count_only_is_unfiltered_total (toLower : string → string) (g : Graph)
    (search_ : SearchRequest → promise SearchResponse) (r : relation) (id : string) :
  ∃ n : nat,
    countOperation r {| runQuery := graphStore toLower g; search := search_ |} id
    = ([(LOG, countStartMessage r +:+ id)], Fulfilled (JNum (to_int32 (Z.of_nat n))))
    ∧ ∀ skip' limit' p,
        (pageOperation r {| runQuery := graphStore toLower g; search := search_ |}
           (window id None skip' limit')).2 = Fulfilled p →
        total p = JNum (to_int32 (Z.of_nat n)).
Proof.
  destruct (execute_countOnly toLower g r id) as (rows' & Hm' & He).
  exists (length rows'). split.
  - rewrite countOperation_unfold. unfold count_body, await. cbn [runQuery graphStore settled].
    change (<["articleId" := JStr id]> ∅) with (countOnlyParams id). rewrite He.
    reflexivity.
  - intros skip' limit' p Hp. rewrite pageOperation_outcome in Hp.
    apply page_body_fulfilled in Hp as (countResult & ? & ? & Hc & _ & Ht & _).
    unfold countCall in Hc. cbn [runQuery graphStore settled] in Hc.
    rewrite (execute_count toLower g r (window id None skip' limit') rows') in Hc.
    + injection Hc as <-.
      rewrite (totalCount_Integer _ _ (to_int32 (Z.of_nat (length rows')))
                 (to_int32 (Z.of_nat (length rows') `div` 2 ^ 32))) in Ht; [congruence|].
      apply lookup_insert_eq.
    + rewrite <- Hm'. apply matched_unfiltered_params.
      unfold countParams, countOnlyParams. cbn. by rewrite !lookup_insert_eq.
Qed.

Lemma count_only_is_unfiltered_total_witness :
  ∃ n : nat,
    getCitedByArticlesCount (onGraph cited [doc2; doc1]) "5"
    = ([(LOG, "Fetching count of articles cited by article: 5")],
       Fulfilled (JNum (to_int32 (Z.of_nat n))))
    ∧ ∀ skip' limit' p,
        (getCitedByArticles (onGraph cited [doc2; doc1]) (window "5" None skip' limit')).2
        = Fulfilled p →
        total p = JNum (to_int32 (Z.of_nat n)).
Proof.
  exact (count_only_is_unfiltered_total asciiLower cited (indexOf [doc2; doc1]) CitedBy "5").
Defined.

(** ** An article the store does not have *)

Lemma fits_numbered (v : string) (id : string) (ρ : row) (n : Node) :
  fits (numbered v) (Some ("number", CStr id)) ρ n = true →
  "Article" ∈ labels n ∧ property n "number" = CStr id.
Proof.
  unfold fits. cbn [numbered np_label]. rewrite !andb_true_iff. intros [[Hl Hp] _].
  split; [by apply bool_decide_eq_true in Hl|].
  destruct (property n "number") as [|s|z|m]; cbn in Hp; try done.
  apply String.eqb_eq in Hp. by subst.
Qed.

Section Unknown.

Variable toLower : string → string.
Variable g : Graph.
Variable ps : obj.
Variable id : string.
Hypothesis Hid : ps !! "articleId" = Some (JStr id).
Hypothesis Hunknown :
  ∀ n, n ∈ nodes g → "Article" ∈ labels n → property n "number" ≠ CStr id.

Lemma traversal_unknown (r : relation) :
  expand toLower g ps (traversal r) ∅ = Fulfilled [].
Proof.
  assert (Hnone : ∀ v ρ n, find_node g (elementId n) = Some n →
            fits (numbered v) (Some ("number", CStr id)) ρ n = true → False).
  { intros v ρ n Hn Hfits. apply fits_numbered in Hfits as [Hl Hp].
    apply find_node_stored in Hn as [Hn _]. by eapply Hunknown. }
  unfold expand, resolve.
  destruct r; cbn [traversal pp_left pp_right numbered plain np_prop eval mbind outcome_bind
                     mret outcome_ret];
    rewrite ?Hid; cbn [mbind outcome_bind mret outcome_ret param_value]; f_equal;
    match goal with |- ?l = [] => destruct l as [|ρ' l'] eqn:Hl end; try reflexivity;
    exfalso;
    (assert (Hin : ρ' ∈ ρ' :: l') by (by left)); rewrite <- Hl in Hin;
    apply extensions_stored in Hin as (s & d & _ & Hs & Hd & Hss & Hsd);
    cbn [traversal pp_left pp_right] in Hs, Hd;
    first [exact (Hnone _ _ _ Hss Hs) | exact (Hnone _ _ _ Hsd Hd)].
Qed.

Lemma matched_unknown (r : relation) (searchTerm : option string) :
  matched toLower g ps (countPlan r searchTerm) = Fulfilled [].
Proof.
  unfold matched. cbn [q_match q_optional q_with q_where countPlan].
  rewrite traversal_unknown. cbn [mbind outcome_bind].
  pose proof (scope_of_naming r) as Hscope.
  destruct (naming r) as [pp|]; rewrite Hscope; cbn;
    by destruct (condition r searchTerm).
Qed.

End Unknown.

(** X9.  Asked about an article id that no Article node of the store has as
    its [number], every operation answers as for an article without
    relations, with or without a search term: the page operation returns no
    items and a total of 0 without a lookup, the count-only operation 0;
    neither logs or raises an error. *)
Theorem unknown_article_is_empty (toLower : string → string) (g : Graph)
    (search_ : SearchRequest → promise SearchResponse) (r : relation)
    (filter : ArticlesCitationsFilterDto) :
  (∀ n, n ∈ nodes g → "Article" ∈ labels n → property n "number" ≠ CStr (articleId filter)) →
  pageOperation r {| runQuery := graphStore toLower g; search := search_ |} filter
  = ([(LOG, startMessage r +:+ articleId filter)],
     Fulfilled {| items_key := itemsKey r; items := []; total := JNum 0 |})
  ∧ countOperation r {| runQuery := graphStore toLower g; search := search_ |}
      (articleId filter)
    = ([(LOG, countStartMessage r +:+ articleId filter)], Fulfilled (JNum 0)).
Proof.
  intros Hunknown. split.
  - assert (Hm : matched toLower g (countParams filter) (countPlan r (searchTerm filter))
                 = Fulfilled []).
    { apply (matched_unknown toLower g _ (articleId filter)); [|done].
      unfold countParams. by rewrite lookup_insert_eq. }
    pose proof (execute_count toLower g r filter [] Hm) as Hc.
    destruct (execute_page toLower g r filter [] Hm) as (records & Hp & Hlen).
    destruct records; [|cbn in Hlen; lia].
    rewrite pageOperation_unfold.
    unfold page_operation, page_body, await, Promise_all2, countCall, pageCall.
    cbn [runQuery graphStore settled settles_at]. rewrite Hc, Hp. cbn.
    destruct (enrichment r) as [[idx key]|]; reflexivity.
  - destruct (execute_countOnly toLower g r (articleId filter)) as (rows' & Hm' & He).
    rewrite (matched_unknown toLower g _ (articleId filter)) in Hm'; [|done|done].
    injection Hm' as <-.
    rewrite countOperation_unfold. unfold count_body, await.
    cbn [runQuery graphStore settled].
    change (<["articleId" := JStr (articleId filter)]> ∅)
      with (countOnlyParams (articleId filter)).
    rewrite He. reflexivity.
Qed.

Lemma unknown_article_is_empty_witness :
  getCitedByArticles (onGraph cited [doc2; doc1]) (firstPage "99" (Some "alpha"))
  = ([(LOG, "Fetching articles cited by article: 99")],
     Fulfilled {| items_key := "articles"; items := []; total := JNum 0 |})
  ∧ getCitedByArticlesCount (onGraph cited [doc2; doc1]) "99"
    = ([(LOG, "Fetching count of articles cited by article: 99")], Fulfilled (JNum 0)).
Proof.
  apply (unknown_article_is_empty asciiLower cited (indexOf [doc2; doc1]) CitedBy
           (firstPage "99" (Some "alpha"))).
  intros n Hn _. cbn in Hn.
  repeat (apply elem_of_cons in Hn as [->|Hn]; [vm_compute; congruence|]).
  by apply elem_of_nil in Hn.
Defined.

(** ** Windows of the page query *)

Lemma returned_page_params toLower (ps ps' : obj) (r : relation) (searchTerm : option string)
    (rows : list row) :
  returned toLower ps (pagePlan r searchTerm) rows
  = returned toLower ps' (pagePlan r searchTerm) rows.
Proof. destruct r; reflexivity. Qed.

Lemma ordered_page_params toLower (ps ps' : obj) (r : relation) (searchTerm : option string)
    (rs : list result_row) :
  ordered toLower ps (pagePlan r searchTerm) rs
  = ordered toLower ps' (pagePlan r searchTerm) rs.
Proof. destruct r; reflexivity. Qed.

Lemma matched_page_params toLower g (r : relation) (searchTerm : option string)
    (ps ps' : obj) :
  ps !! "articleId" = ps' !! "articleId" → ps !! "searchTerm" = ps' !! "searchTerm" →
  matched toLower g ps (pagePlan r searchTerm) = matched toLower g ps' (pagePlan r searchTerm).
Proof.
  intros Hid Hterm. apply matched_agree. intros x Hx.
  pose proof (matched_params_plan r searchTerm) as Hall. rewrite Forall_forall in Hall.
  by destruct (Hall x Hx) as [-> | ->].
Qed.

(** The rows a page query slices do not depend on the window asked for. *)
Lemma listing_window toLower g (r : relation) (filter : ArticlesCitationsFilterDto)
    (skip' limit' : nat) :
  listing toLower g r (with_window filter skip' limit') = listing toLower g r filter.
Proof.
  unfold listing. cbn [with_window searchTerm].
  rewrite (matched_page_params toLower g r (searchTerm filter)
             (pageParams (with_window filter skip' limit')) (pageParams filter)).
  - destruct (matched _ _ _ _) as [rows|]; [|reflexivity]. cbn [mbind outcome_bind].
    rewrite (returned_page_params toLower _ (pageParams filter)).
    destruct (returned _ _ _ _) as [rs|]; [|reflexivity]. cbn [mbind outcome_bind].
    apply ordered_page_params.
  - unfold pageParams. cbn [with_window articleId]. by rewrite !lookup_insert_eq.
  - unfold pageParams. cbn [with_window searchTerm].
    rewrite !(lookup_insert_ne _ "articleId") by done. by rewrite !lookup_insert_eq.
Qed.

(** The page text run with the parameters of a filter gives the rows
    [skip, skip + limit) of the listing, as driver records. *)
Lemma execute_listing toLower g (r : relation) (filter : ArticlesCitationsFilterDto) :
  execute toLower g (pageQuery r (searchTerm filter)) (pageParams filter)
  = (λ rs, record_of <$> take (limit filter) (drop (skip filter) rs))
      <$> listing toLower g r filter.
Proof.
  unfold execute, listing, run. rewrite parse_pageQuery.
  destruct (matched _ _ _ _) as [rows|]; [|reflexivity]. cbn [mbind outcome_bind].
  destruct (returned _ _ _ _) as [rs|]; [|reflexivity]. cbn [mbind outcome_bind].
  destruct (ordered _ _ _ _) as [rs'|]; [|reflexivity]. cbn [mbind outcome_bind].
  rewrite sliced_page. reflexivity.
Qed.

Lemma execute_window toLower g (r : relation) (filter : ArticlesCitationsFilterDto)
    (skip' limit' : nat) :
  execute toLower g (pageQuery r (searchTerm filter))
    (pageParams (with_window filter skip' limit'))
  = (λ rs, record_of <$> take limit' (drop skip' rs)) <$> listing toLower g r filter.
Proof.
  rewrite <- (listing_window toLower g r filter skip' limit').
  exact (execute_listing toLower g r (with_window filter skip' limit')).
Qed.

(** X10.  The size of a page follows from its window alone: a page query
    either fails for every window, or it has a number of rows before SKIP
    and LIMIT such that its page for every [skip] and [limit] has
    [limit] rows or, if fewer are left, that number less [skip] (none from
    there on), never more than the limit, and each of them is one of the
    rows the query has before SKIP and LIMIT, in whatever order the store
    has those. *)
Theorem page_size_follows_window (toLower : string → string) (g : Graph) (r : relation)
    (filter : ArticlesCitationsFilterDto) :
  (∃ rs : list result_row,
     listing toLower g r filter = Fulfilled rs
     ∧ ∀ skip' limit', ∃ records,
         execute toLower g (pageQuery r (searchTerm filter))
           (pageParams (with_window filter skip' limit')) = Fulfilled records
         ∧ length records = limit' `min` (length rs - skip')
         ∧ length records ≤ limit'
         ∧ ∀ record, record ∈ records → record ∈ record_of <$> rs)
  ∨ (∃ e, ∀ skip' limit',
       execute toLower g (pageQuery r (searchTerm filter))
         (pageParams (with_window filter skip' limit')) = Rejected e).
Proof.
  destruct (listing toLower g r filter) as [rs|e] eqn:Hrs.
  - left. exists rs. split; [done|]. intros skip' limit'.
    rewrite execute_window, Hrs. eexists. split; [reflexivity|].
    rewrite length_fmap, length_take, length_drop.
    split; [done|]. split; [lia|].
    intros record Hrecord. apply list_elem_of_fmap in Hrecord as (row & -> & Hrow).
    apply list_elem_of_fmap_2. eapply elem_of_sublist; [exact Hrow|].
    etrans; [apply sublist_take|apply sublist_drop].
  - right. exists e. intros skip' limit'. by rewrite execute_window, Hrs.
Qed.

Lemma page_size_follows_window_witness :
  ∃ records,
    execute asciiLower citedRanked (pageQuery CitedBy None)
      (pageParams (with_window (firstPage "5" None) 2 5)) = Fulfilled records
    ∧ length records = 1.
Proof.
  destruct (page_size_follows_window asciiLower citedRanked CitedBy (firstPage "5" None))
    as [(rs & Hrs & H)|(e & H)].
  - destruct (H 2 5) as (records & He & Hlen & _). exists records.
    split; [exact He|]. rewrite Hlen.
    vm_compute in Hrs. injection Hrs as <-. reflexivity.
  - specialize (H 0 0). vm_compute in H. discriminate H.
Defined.

(** ** DISTINCT *)

Lemma cval_eqb_sym (a b : cval) : cval_eqb a b = cval_eqb b a.
Proof.
  destruct a, b; cbn; try reflexivity; first [apply String.eqb_sym | apply Z.eqb_sym].
Qed.

Lemma result_row_eqb_sym (a b : result_row) : result_row_eqb a b = result_row_eqb b a.
Proof.
  revert b. induction a as [|[c v] a IH]; intros [|[c' v'] b]; cbn; try reflexivity.
  by rewrite String.eqb_sym, cval_eqb_sym, IH.
Qed.

Lemma apart_snoc (seen : list result_row) (r : result_row) :
  ForallOrdPairs apart seen → Forall (λ a, apart a r) seen →
  ForallOrdPairs apart (seen ++ [r]).
Proof.
  induction 1 as [|a seen Ha _ IH]; intros Hr; cbn.
  - repeat constructor.
  - apply Forall_cons in Hr as [Har Hr]. constructor; [|by apply IH].
    apply Forall_app. split; [done|]. by constructor.
Qed.

Lemma distinct_step_apart (rs seen : list result_row) :
  ForallOrdPairs apart seen →
  ForallOrdPairs apart
    (fold_left (λ seen r, if existsb (result_row_eqb r) seen then seen else seen ++ [r])
               rs seen).
Proof.
  revert seen. induction rs as [|r rs IH]; intros seen Hseen; cbn; [done|].
  apply IH. destruct (existsb (result_row_eqb r) seen) eqn:He; [done|].
  apply apart_snoc; [done|]. apply Forall_forall. intros a Ha.
  unfold apart. rewrite result_row_eqb_sym.
  destruct (result_row_eqb r a) eqn:Hra; [|done].
  assert (existsb (result_row_eqb r) seen = true); [|congruence].
  apply existsb_exists. exists a. split; [by apply list_elem_of_In|done].
Qed.

Lemma distinct_apart (rs : list result_row) : ForallOrdPairs apart (distinct rs).
Proof. apply distinct_step_apart. constructor. Qed.

Lemma apart_Permutation (l l' : list result_row) :
  l ≡ₚ l' → ForallOrdPairs apart l → ForallOrdPairs apart l'.
Proof.
  induction 1 as [|x l l' Hp IH|x y l|l l' l'' _ IH1 _ IH2]; intros H.
  - done.
  - inversion_clear H as [|? ? Hx Hl]. constructor; [by rewrite <- Hp|by apply IH].
  - inversion_clear H as [|? ? Hy Hl]. inversion_clear Hl as [|? ? Hx Hl'].
    apply Forall_cons in Hy as [Hyx Hy].
    constructor; [|by constructor].
    constructor; [|done]. unfold apart in *. by rewrite result_row_eqb_sym.
  - auto.
Qed.

Lemma apart_sublist (l l' : list result_row) :
  l' `sublist_of` l → ForallOrdPairs apart l → ForallOrdPairs apart l'.
Proof.
  induction 1 as [|x l' l Hs IH|x l' l Hs IH]; intros H.
  - done.
  - inversion_clear H as [|? ? Hx Hl]. constructor; [|by apply IH].
    apply Forall_forall. intros a Ha. rewrite Forall_forall in Hx. apply Hx.
    by eapply elem_of_sublist.
  - inversion_clear H. by apply IH.
Qed.

Lemma apart_lookup (l : list result_row) :
  ForallOrdPairs apart l → distinct_rows l.
Proof.
  unfold distinct_rows.
  induction 1 as [|x l Hx _ IH]; intros i j a b Hij Hi Hj; [done|].
  rewrite Forall_forall in Hx. destruct i as [|i], j as [|j]; cbn in Hi, Hj.
  - done.
  - injection Hi as <-. apply Hx. by eapply list_elem_of_lookup_2.
  - injection Hj as <-. rewrite result_row_eqb_sym. apply Hx.
    by eapply list_elem_of_lookup_2.
  - eapply (IH i j); [lia|done|done].
Qed.

Lemma order_insert_Permutation {A} (x : cval * A) (l : list (cval * A)) :
  order_insert x l ≡ₚ x :: l.
Proof.
  induction l as [|y l IH]; [done|]. cbn.
  destruct (cval_ltb x.1 y.1); [|done]. rewrite IH. apply Permutation_swap.
Qed.

Lemma order_desc_Permutation {A} (l : list (cval * A)) : order_desc l ≡ₚ l.
Proof.
  induction l as [|x l IH]; [done|]. unfold order_desc in *. cbn.
  by rewrite order_insert_Permutation, IH.
Qed.

Lemma keyed_rows {A} (f : A → outcome cval) (rs : list A) (keyed : list (cval * A)) :
  map_throwing (λ r, k ← f r; mret (k, r)) rs = Fulfilled keyed →
  snd <$> keyed = rs ∧ Forall (λ kr, f kr.2 = Fulfilled kr.1) keyed.
Proof.
  intros H. apply map_throwing_Forall2 in H.
  induction H as [|[k r'] r keyed rs Hr _ [IH1 IH2]]; [by split|].
  destruct (f r) as [k'|] eqn:Hf; [|done]. cbn in Hr. injection Hr as -> ->.
  cbn. split; [by rewrite IH1|]. by constructor.
Qed.

Section Order.

Variable toLower : string → string.
Variable ps : obj.

(** ORDER BY rearranges the rows and SKIP and LIMIT pick among them. *)
Lemma ordered_Permutation (q : query) (rs rs' : list result_row) :
  ordered toLower ps q rs = Fulfilled rs' → rs' ≡ₚ rs.
Proof.
  unfold ordered. destruct (q_order_by q) as [e|]; [|by intros [= <-]].
  destruct (map_throwing _ rs) as [keyed|] eqn:Hk; [|done]. cbn. intros [= <-].
  apply keyed_rows in Hk as [<- _]. by rewrite order_desc_Permutation.
Qed.

Lemma sliced_window (q : query) (rs rs' : list result_row) :
  sliced toLower ps q rs = Fulfilled rs' → ∃ s l, rs' = take l (drop s rs).
Proof.
  unfold sliced. destruct (q_skip_limit q) as [[s l]|].
  - destruct (eval toLower ps ∅ s) as [[]|]; cbn; try done;
      destruct (eval toLower ps ∅ l) as [[]|]; cbn; try done.
    destruct (_ && _); [|done]. intros [= <-]. eauto.
  - intros [= <-]. exists 0, (length rs). by rewrite drop_0, firstn_all.
Qed.

Lemma returned_distinct (q : query) (rows : list row) (rs : list result_row) :
  q_distinct q = true → returned toLower ps q rows = Fulfilled rs →
  ForallOrdPairs apart rs.
Proof.
  intros Hd. unfold returned. rewrite Hd.
  destruct (q_return q) as [|[e a] [|i items]]; try destruct e;
    repeat match goal with
    | |- context [existsb ?f ?l] => destruct (existsb f l); [done|]
    | |- (x ← ?m; _) = _ → _ => destruct m; cbn [mbind outcome_bind]; [|done]
    end;
    intros [= <-]; first [apply distinct_apart | repeat constructor].
Qed.

End Order.

(** X11.  A page of the store has no row twice: any two of its rows differ
    in a column, nodes compared by identity, whatever the relation, the
    search term and the window. *)
Theorem page_rows_are_distinct (toLower : string → string) (g : Graph) (r : relation)
    (filter : ArticlesCitationsFilterDto) (q : query) (rs : list result_row) :
  parse (pageQuery r (searchTerm filter)) = Some q →
  run toLower g (pageParams filter) q = Fulfilled rs →
  distinct_rows rs.
Proof.
  rewrite parse_pageQuery. intros [= <-]. unfold run.
  destruct (matched _ _ _ _) as [rows|]; [|done]. cbn [mbind outcome_bind].
  destruct (returned _ _ _ _) as [rs0|] eqn:Hr; [|done]. cbn [mbind outcome_bind].
  destruct (ordered _ _ _ _) as [rs1|] eqn:Ho; [|done]. cbn [mbind outcome_bind].
  intros Hs. apply sliced_window in Hs as (s & l & ->).
  apply apart_lookup. apply (apart_sublist rs1).
  { etrans; [apply sublist_take|apply sublist_drop]. }
  apply (apart_Permutation rs0); [symmetry; by eapply ordered_Permutation|].
  eapply returned_distinct; [|exact Hr]. reflexivity.
Qed.

Lemma page_rows_are_distinct_witness :
  ∃ rs, run asciiLower citedRanked (pageParams (firstPage "5" None)) (pagePlan CitedBy None)
        = Fulfilled rs
        ∧ length rs = 3 ∧ distinct_rows rs.
Proof.
  eexists. split; [vm_compute; reflexivity|]. split; [reflexivity|].
  apply (page_rows_are_distinct asciiLower citedRanked CitedBy (firstPage "5" None)
           (pagePlan CitedBy None)); vm_compute; reflexivity.
Defined.

(** ** ORDER BY *)

Lemma string_ltb_asym (s t : string) : String.ltb s t = true → String.ltb t s = false.
Proof.
  unfold String.ltb. rewrite (String.compare_antisym t s).
  by destruct (String.compare s t).
Qed.

Lemma cval_ltb_asym (a b : cval) : cval_ltb a b = true → cval_ltb b a = false.
Proof.
  destruct a, b; cbn; try done; first [apply string_ltb_asym | lia].
Qed.

Lemma order_insert_descending {A} (x : cval * A) (l : list (cval * A)) :
  descending_keys l → descending_keys (order_insert x l).
Proof.
  induction l as [|y l IH]; [done|]. intros [Hy Hl].
  cbn [order_insert]. destruct (cval_ltb x.1 y.1) eqn:Hxy.
  - specialize (IH Hl). split; [|done].
    destruct l as [|z l]; cbn [order_insert]; [by apply cval_ltb_asym|].
    destruct (cval_ltb x.1 z.1); [done|by apply cval_ltb_asym].
  - by repeat split.
Qed.

Lemma order_desc_descending {A} (l : list (cval * A)) : descending_keys (order_desc l).
Proof.
  induction l as [|x l IH]; [done|]. unfold order_desc in *. cbn.
  by apply order_insert_descending.
Qed.

Lemma descending_cons (a b : result_row) (rs : list result_row) :
  cval_ltb (citing_cases a) (citing_cases b) = false → descending (b :: rs) →
  descending (a :: b :: rs).
Proof.
  intros Hab Hrs [|i] x y Hx Hy; cbn in Hx, Hy.
  - by injection Hx as <-; injection Hy as <-.
  - by eapply Hrs.
Qed.

Lemma descending_of_keys (l : list (cval * result_row)) :
  descending_keys l → Forall (λ kr, kr.1 = citing_cases kr.2) l →
  descending (snd <$> l).
Proof.
  induction l as [|x l IH]; intros Hl Hk; [by intros i ? ? ?|].
  destruct Hl as [Hx Hl]. apply Forall_cons in Hk as [Hkx Hk].
  specialize (IH Hl Hk). destruct l as [|y l].
  - intros [|i] a b Ha Hb; done.
  - apply Forall_cons in Hk as [Hky _]. cbn. apply descending_cons; [|exact IH].
    by rewrite <- Hkx, <- Hky.
Qed.

Lemma descending_window (rs : list result_row) (s l : nat) :
  descending rs → descending (take l (drop s rs)).
Proof.
  intros H i a b Ha Hb.
  apply lookup_take_Some in Ha as [Ha _]. apply lookup_take_Some in Hb as [Hb _].
  rewrite lookup_drop in Ha, Hb. rewrite Nat.add_succ_r in Hb. by eapply H.
Qed.

(** X12.  Articles and cases come in descending order of their
    [citing_cases]: on a page of the store no row is followed by one whose
    subject has a greater [citing_cases], a missing one (null) counting as
    the greatest as the store orders values. *)
Theorem page_rows_descend (toLower : string → string) (g : Graph) (r : relation)
    (filter : ArticlesCitationsFilterDto) (q : query) (rs : list result_row) :
  r ≠ References →
  parse (pageQuery r (searchTerm filter)) = Some q →
  run toLower g (pageParams filter) q = Fulfilled rs →
  descending rs.
Proof.
  intros Hr. rewrite parse_pageQuery. intros [= <-]. unfold run.
  change (matched toLower g (pageParams filter) (pagePlan r (searchTerm filter)))
    with (matched toLower g (pageParams filter) (countPlan r (searchTerm filter))).
  destruct (matched _ _ _ _) as [rows|] eqn:Hm; [|done]. cbn [mbind outcome_bind].
  destruct (matched_inv _ _ _ _ _ _ Hm) as (rows0 & rows2 & _ & Hsub & _ & Hshaped & _).
  assert (Hrows : Forall (shaped r) rows).
  { rewrite Forall_forall in Hshaped |- *. intros ρ Hρ. apply Hshaped.
    by eapply elem_of_sublist. }
  destruct (returned_page toLower (pageParams filter) r (searchTerm filter) rows Hrows)
    as (rs0 & -> & _ & Hlead).
  cbn [mbind outcome_bind]. unfold ordered. cbn [q_order_by pagePlan].
  assert (He : ordering r = Some (EProp (subject r) "citing_cases")) by (by destruct r).
  rewrite He.
  destruct (map_throwing _ rs0) as [keyed|] eqn:Hk; [|done]. cbn [mbind outcome_bind mret outcome_ret].
  intros Hs. apply sliced_window in Hs as (s & l & ->).
  apply descending_window. apply descending_of_keys; [apply order_desc_descending|].
  apply keyed_rows in Hk as [Hrs Hkeys]. subst rs0.
  rewrite Forall_forall in Hkeys. rewrite Forall_forall in Hlead.
  apply Forall_forall. intros kr Hkr.
  assert (Hin : kr ∈ keyed) by (by rewrite <- (order_desc_Permutation keyed)).
  specialize (Hkeys kr Hin).
  destruct (Hlead kr.2) as (x & rest & Hrow); [by apply list_elem_of_fmap_2|].
  rewrite Hrow in Hkeys |- *. cbn in Hkeys. rewrite lookup_insert_eq in Hkeys.
  cbn in Hkeys. by injection Hkeys as <-.
Qed.

Lemma page_rows_descend_witness :
  ∃ rs, run asciiLower citedRanked (pageParams (firstPage "5" None)) (pagePlan CitedBy None)
        = Fulfilled rs
        ∧ citing_cases <$> rs = [CInt 9; CInt 7; CInt 4] ∧ descending rs.
Proof.
  eexists. split; [vm_compute; reflexivity|]. split; [reflexivity|].
  apply (page_rows_descend asciiLower citedRanked CitedBy (firstPage "5" None)
           (pagePlan CitedBy None)); [done|vm_compute; reflexivity..].
Defined.

(** ** The search term *)

(** The clauses before RETURN with a search term are those without it
    followed by the WHERE. *)
Lemma matched_narrowed toLower g (ps : obj) (r : relation) (searchTerm : option string) :
  matched toLower g ps (countPlan r searchTerm)
  = (rows ← matched toLower g ps (countPlan r None);
     match condition r searchTerm with
     | Some p => where_ toLower ps p rows
     | None => mret rows
     end).
Proof.
  unfold matched. cbn [q_match q_optional q_with q_where countPlan].
  change (condition r None) with (@None pred).
  destruct (expand toLower g ps (traversal r) ∅) as [rows0|]; [|reflexivity].
  cbn [mbind outcome_bind].
  destruct (match naming r with Some _ => _ | None => _ end) as [rows1|]; [|reflexivity].
  cbn [mbind outcome_bind].
  destruct (match scope r with Some _ => _ | None => _ end) as [rows2|]; reflexivity.
Qed.

(** X13.  A search term only narrows: when the count query with the
    filter's term answers, the count query without a term answers too, and
    with a number that is no smaller; the rows counted with the term are
    among those counted without it. *)
Theorem search_term_only_narrows (toLower : string → string) (g : Graph) (r : relation)
    (filter : ArticlesCitationsFilterDto) (records : list Neo4jRecord) :
  execute toLower g (countQuery r (searchTerm filter)) (countParams filter)
  = Fulfilled records →
  ∃ kept all : list row,
    kept `sublist_of` all
    ∧ matched toLower g (countParams filter) (countPlan r (searchTerm filter)) = Fulfilled kept
    ∧ matched toLower g (countParams (without_term filter)) (countPlan r None) = Fulfilled all
    ∧ records = [<["totalCount" := int (Z.of_nat (length kept))]> ∅]
    ∧ execute toLower g (countQuery r None) (countParams (without_term filter))
      = Fulfilled [<["totalCount" := int (Z.of_nat (length all))]> ∅]
    ∧ length kept ≤ length all.
Proof.
  intros He.
  destruct (matched toLower g (countParams filter) (countPlan r (searchTerm filter)))
    as [kept|e] eqn:Hm.
  2: { unfold execute, run in He. rewrite parse_countQuery, Hm in He. done. }
  rewrite (execute_count toLower g r filter kept Hm) in He. injection He as <-.
  pose proof Hm as Hn. rewrite matched_narrowed in Hn.
  destruct (matched toLower g (countParams filter) (countPlan r None)) as [all|] eqn:Ha;
    [|done].
  cbn [mbind outcome_bind] in Hn.
  assert (Hsub : kept `sublist_of` all).
  { destruct (condition r (searchTerm filter)) as [p|]; [by eapply where_sublist|].
    by injection Hn as <-. }
  assert (Ha' : matched toLower g (countParams (without_term filter)) (countPlan r None)
                = Fulfilled all).
  { rewrite <- Ha. apply matched_unfiltered_params.
    unfold countParams. cbn [without_term articleId]. by rewrite !lookup_insert_eq. }
  exists kept, all. repeat split; try done.
  - exact (execute_count toLower g r (without_term filter) all Ha').
  - by apply sublist_length.
Qed.

Lemma search_term_only_narrows_witness :
  ∃ kept all : list row,
    kept `sublist_of` all
    ∧ matched asciiLower cited (countParams (firstPage "5" (Some "alp")))
        (countPlan CitedBy (Some "alp")) = Fulfilled kept
    ∧ matched asciiLower cited (countParams (without_term (firstPage "5" (Some "alp"))))
        (countPlan CitedBy None) = Fulfilled all
    ∧ ([<["totalCount" := int 1]> ∅] : list Neo4jRecord)
      = [<["totalCount" := int (Z.of_nat (length kept))]> ∅]
    ∧ execute asciiLower cited (countQuery CitedBy None)
        (countParams (without_term (firstPage "5" (Some "alp"))))
      = Fulfilled [<["totalCount" := int (Z.of_nat (length all))]> ∅]
    ∧ length kept ≤ length all.
Proof.
  apply (search_term_only_narrows asciiLower cited CitedBy (firstPage "5" (Some "alp"))
           [<["totalCount" := int 1]> ∅]).
  vm_compute. reflexivity.
Defined.

(** ** The case of the search term *)



Section Folded.

Variable toLower : string → string.
Variable g : Graph.
Variables ps ps' : obj.
Hypothesis Hfolded :
  eval toLower ps ∅ (EToLower (EParam "searchTerm"))
  = eval toLower ps' ∅ (EToLower (EParam "searchTerm")).





End Folded.






Section FoldedTerm.

Variable toLower : string → string.
Variable g : Graph.
Variable r : relation.
Variable id : string.
Variables s s' : string.
Variables skip' limit' : nat.
Hypothesis Hs : s ≠ "".
Hypothesis Hs' : s' ≠ "".
Hypothesis Hfold : toLower s = toLower s'.




End FoldedTerm.


